(** * Cryptocurrency dashboard: field parsers, row filter and aggregation

    A shallow embedding of [project_functions.py] (and of the call sites in
    [Cripto_main.py]) together with the properties of the normalisation and
    aggregation layer.

    Conventions of the embedding.
    - A pandas [Series] of raw CSV cells is a list of [option string]
      ([None] is an empty cell, which pandas holds as a float NaN).
    - A parsed number is a [num]: the missing sentinel [NaN], a signed
      infinity, or a finite value.  A finite value is a rational; what the
      reader gives for a literal stands for the float that the literal
      denotes.  The product of the Scaled Currency Parser is the binary64
      product, rounded to nearest ([num_mul]).  The reductions of the
      summary and the divisions of the short format are computed on the
      rationals; what is stated of them does not depend on the rounding.
    - [pd.to_numeric(..., errors='coerce')] is the library's reader; it is
      modelled by [to_numeric] below, which follows the grammar of the
      reader's scanner ([xstrtod]) and its special tokens. *)

From Stdlib Require Import List Bool Arith NArith ZArith QArith Qabs Qpower Qreduction Qfield Lia.
From Stdlib Require Import Ascii String DecimalString OrderedTypeEx.
From Stdlib Require Import Sorting.Sorted Sorting.Permutation.
Import ListNotations.

Close Scope Q_scope.
Open Scope nat_scope.
Open Scope string_scope.

(* ================================================================== *)
(** ** Numbers *)

Inductive num : Type :=
| NaN
| Inf (negative : bool)
| Fin (q : Q).

Definition isnan (x : num) : bool :=
  match x with NaN => true | _ => false end.

(** Equality of numbers up to the representation of the fraction. *)
Definition num_eq (x y : num) : Prop :=
  match x, y with
  | NaN, NaN => True
  | Inf a, Inf b => a = b
  | Fin p, Fin q => (p == q)%Q
  | _, _ => False
  end.

Definition Qsign_neg (q : Q) : bool := (Qnum q <? 0)%Z.
Definition Qis_zero (q : Q) : bool := (Qnum q =? 0)%Z.

(** Nearest integer, ties to the even one. *)
Definition round_half_even (q : Q) : Z :=
  let a := Qnum q in
  let b := Z.pos (Qden q) in
  let fl := (a / b)%Z in
  match (2 * (a mod b) ?= b)%Z with
  | Lt => fl
  | Gt => (fl + 1)%Z
  | Eq => if Z.even fl then fl else (fl + 1)%Z
  end.

(** [floor (log2 q)] for a positive [q]. *)
Definition Qlog2 (q : Q) : Z :=
  let k := (Z.log2 (Qnum q) - Z.log2 (Z.pos (Qden q)))%Z in
  if Qle_bool (2 ^ k) q then k else (k - 1)%Z.

(** The binary64 float nearest to a positive [q], ties to the even
    significand: a significand of 53 bits, or of fewer at the smallest
    exponent -1074; [None] from 2^1024 on, where the float is infinite. *)
Definition b64_pos (q : Q) : option Q :=
  let e := Z.max (Qlog2 q - 52) (-1074) in
  let m := round_half_even (q / 2 ^ e) in
  let r := Qred (inject_Z m * 2 ^ e) in
  if Qle_bool (2 ^ 1024) r then None else Some r.

(** Rounding to binary64. *)
Definition b64 (q : Q) : num :=
  match (Qnum q ?= 0)%Z with
  | Eq => Fin 0
  | Gt => match b64_pos q with Some r => Fin r | None => Inf false end
  | Lt => match b64_pos (- q) with Some r => Fin (- r) | None => Inf true end
  end.

(** The float that a number stands for. *)
Definition to_float (x : num) : num :=
  match x with
  | Fin q => b64 q
  | other => other
  end.

(** The exact product, with the rules of the special values: NaN is
    absorbing, [inf * 0] is NaN. *)
Definition product (x y : num) : num :=
  match x, y with
  | NaN, _ | _, NaN => NaN
  | Fin p, Fin q => Fin (Qred (p * q))
  | Inf a, Inf b => Inf (xorb a b)
  | Inf a, Fin q | Fin q, Inf a =>
      if Qis_zero q then NaN else Inf (xorb a (Qsign_neg q))
  end.

(** [x * y] on floats: the float nearest to the exact product of the two
    floats. *)
Definition num_mul (x y : num) : num :=
  to_float (product (to_float x) (to_float y)).

(** [x + y] on floats: [inf + -inf] is NaN. *)
Definition num_add (x y : num) : num :=
  match x, y with
  | NaN, _ | _, NaN => NaN
  | Fin p, Fin q => Fin (Qred (p + q))
  | Inf a, Inf b => if Bool.eqb a b then Inf a else NaN
  | Inf a, Fin _ | Fin _, Inf a => Inf a
  end.

(** [x / n] for a positive count [n]. *)
Definition num_div_nat (x : num) (n : nat) : num :=
  match x with
  | Fin p => Fin (Qred (p / inject_Z (Z.of_nat n)))
  | other => other
  end.

(** [x <= y]; every comparison with NaN is false. *)
Definition num_leb (x y : num) : bool :=
  match x, y with
  | NaN, _ | _, NaN => false
  | Inf true, _ => true
  | _, Inf false => true
  | Inf false, _ => false
  | _, Inf true => false
  | Fin p, Fin q => Qle_bool p q
  end.

(* ================================================================== *)
(** ** Python string operations used by the parsers *)

(** [s.replace(old, new)] for a one-character [old]: every occurrence. *)
Fixpoint str_replace (old : ascii) (new : string) (s : string) : string :=
  match s with
  | EmptyString => EmptyString
  | String c s' =>
      if Ascii.eqb c old then new ++ str_replace old new s'
      else String c (str_replace old new s')
  end.

(** [s[-1]] through the [.str] accessor: missing on the empty string. *)
Fixpoint str_last (s : string) : option ascii :=
  match s with
  | EmptyString => None
  | String c EmptyString => Some c
  | String _ s' => str_last s'
  end.

(** [s[:-1]]. *)
Fixpoint str_init (s : string) : string :=
  match s with
  | EmptyString => EmptyString
  | String _ EmptyString => EmptyString
  | String c s' => String c (str_init s')
  end.

(** [sr.astype(str)]: an empty cell (NaN) becomes the text [nan]. *)
Definition astype_str (c : option string) : string :=
  match c with
  | Some s => s
  | None => "nan"
  end.

(* ================================================================== *)
(** ** The numeric reader behind [pd.to_numeric(..., errors='coerce')] *)

Definition is_digit (c : ascii) : bool :=
  ((48 <=? N_of_ascii c) && (N_of_ascii c <=? 57))%N.

Definition digit_val (c : ascii) : N := (N_of_ascii c - 48)%N.

(** ASCII white space: space, and the control characters 9 to 13. *)
Definition is_space (c : ascii) : bool :=
  ((N_of_ascii c =? 32) || ((9 <=? N_of_ascii c) && (N_of_ascii c <=? 13)))%N.

Fixpoint skip_ws (s : string) : string :=
  match s with
  | String c s' => if is_space c then skip_ws s' else s
  | EmptyString => EmptyString
  end.

(** Optional sign: [(negative, rest)]. *)
Definition read_sign (s : string) : bool * string :=
  match s with
  | String c s' =>
      if Ascii.eqb c "-" then (true, s')
      else if Ascii.eqb c "+" then (false, s')
      else (false, s)
  | EmptyString => (false, s)
  end.

(** A run of digits, accumulated into [number]; [cnt] counts them. *)
Fixpoint read_digits (number : N) (cnt : nat) (s : string) : N * nat * string :=
  match s with
  | String c s' =>
      if is_digit c then read_digits (number * 10 + digit_val c)%N (S cnt) s'
      else (number, cnt, s)
  | EmptyString => (number, cnt, s)
  end.

Definition is_exp_mark (c : ascii) : bool :=
  Ascii.eqb c "e" || Ascii.eqb c "E".

(** [mantissa * 10^exponent], exactly. *)
Definition scale10 (negative : bool) (mantissa : N) (exponent : Z) : Q :=
  let m := Z.of_N mantissa in
  Qred (inject_Z (if negative then - m else m) * Qpower (inject_Z 10) exponent).

(** The decimal part: a point and the digits after it, read into the same
    mantissa.  Returns the mantissa, the count of all digits, the count of
    decimals and the rest. *)
Definition read_fraction (number : N) (num_digits : nat) (p : string)
    : N * nat * nat * string :=
  match p with
  | String c p' =>
      if Ascii.eqb c "." then
        let '(number', decimals, p'') := read_digits number 0 p' in
        (number', num_digits + decimals, decimals, p'')
      else (number, num_digits, 0, p)
  | EmptyString => (number, num_digits, 0, p)
  end.

(** The exponent: a letter [e] or [E], an optional sign and digits.  When
    no digit follows, nothing is consumed. *)
Definition read_exponent (p : string) : Z * string :=
  match p with
  | String c p' =>
      if is_exp_mark c then
        let '(eneg, p1) := read_sign p' in
        let '(n, edigits, p2) := read_digits 0 0 p1 in
        if Nat.eqb edigits 0 then (0%Z, p)
        else ((if eneg then - Z.of_N n else Z.of_N n)%Z, p2)
      else (0%Z, p)
  | EmptyString => (0%Z, p)
  end.

(** The scanner: leading white space, optional sign, digits, optional
    fraction, at least one digit in all, optional exponent, trailing white
    space.  Returns the value and the unread rest; [None] when no digit was
    read. *)
Definition xstrtod (s : string) : option (Q * string) :=
  let p := skip_ws s in
  let '(negative, p) := read_sign p in
  let '(number, num_digits, p) := read_digits 0 0 p in
  let '(number, num_digits, num_decimals, p) := read_fraction number num_digits p in
  if Nat.eqb num_digits 0 then None
  else
    let '(exponent, p) := read_exponent p in
    Some (scale10 negative number (exponent - Z.of_nat num_decimals), skip_ws p).

(** The whole text has to be consumed. *)
Definition to_double (s : string) : option Q :=
  match xstrtod s with
  | Some (v, EmptyString) => Some v
  | _ => None
  end.

Definition lower_ascii (c : ascii) : ascii :=
  let n := N_of_ascii c in
  if ((65 <=? n) && (n <=? 90))%N then ascii_of_N (n + 32) else c.

Fixpoint lower (s : string) : string :=
  match s with
  | EmptyString => EmptyString
  | String c s' => String (lower_ascii c) (lower s')
  end.

(** The reader's special tokens, matched without regard to case. *)
Definition inf_token (s : string) : option bool :=
  let l := lower s in
  if (l =? "inf") || (l =? "+inf") || (l =? "infinity") || (l =? "+infinity")
  then Some false
  else if (l =? "-inf") || (l =? "-infinity") then Some true
  else None.

(** One cell of [pd.to_numeric(sr, errors='coerce')]: whatever the reader
    rejects is coerced to NaN instead of raising. *)
Definition to_numeric (s : string) : num :=
  if s =? "" then NaN
  else match to_double s with
       | Some v => Fin v
       | None => match inf_token s with
                 | Some negative => Inf negative
                 | None => NaN
                 end
       end.

(* ================================================================== *)
(** ** Field parsers ([project_functions.py], lines 16-61) *)

(** One cell of [transform_string_to_num]. *)
Definition string_to_num (c : option string) : num :=
  to_numeric (str_replace "," "" (astype_str c)).

Definition transform_string_to_num (sr : list (option string)) : list num :=
  map string_to_num sr.

(** The suffix table [{'T': 1e12, 'B': 1e9, 'M': 1e6, 'K': 1e3}]; a key
    that is absent (or a missing last character) maps to NaN. *)
Definition suffix_factor (last : option ascii) : num :=
  match last with
  | Some c =>
      if Ascii.eqb c "T" then Fin (inject_Z (10 ^ 12))
      else if Ascii.eqb c "B" then Fin (inject_Z (10 ^ 9))
      else if Ascii.eqb c "M" then Fin (inject_Z (10 ^ 6))
      else if Ascii.eqb c "K" then Fin (inject_Z (10 ^ 3))
      else NaN
  | None => NaN
  end.

(** [last.isin(['T', 'B', 'M', 'K'])]. *)
Definition is_suffix (last : option ascii) : bool :=
  match last with
  | Some c => existsb (Ascii.eqb c) ["T"; "B"; "M"; "K"]%char
  | None => false
  end.

Definition fillna (default : num) (x : num) : num :=
  if isnan x then default else x.

(** One cell of [transform_dollars_str_to_num]. *)
Definition dollars_str_to_num (c : option string) : num :=
  let num := str_replace "$" "" (astype_str c) in
  let factor := suffix_factor (str_last num) in
  let pure_num := if is_suffix (str_last num) then str_init num else num in
  num_mul (to_numeric (str_replace "," "" pure_num)) (fillna (Fin 1) factor).

Definition transform_dollars_str_to_num (sr : list (option string)) : list num :=
  map dollars_str_to_num sr.

(** One cell of [transform_percent_str_to_num]. *)
Definition percent_str_to_num (c : option string) : num :=
  to_numeric (str_replace "+" "" (str_replace "%" "" (astype_str c))).

Definition transform_percent_str_to_num (sr : list (option string)) : list num :=
  map percent_str_to_num sr.

(* ================================================================== *)
(** ** The table: cells, rows, data frames and raised errors *)

(** A cell of a data frame.  A missing value of an object or float column
    is [VNum NaN]; a missing datetime is [VNaT].  A timestamp is without
    time zone and counts the nanoseconds since the epoch, the finest
    resolution of the library. *)
Inductive cell : Type :=
| VStr (s : string)
| VNum (x : num)
| VTime (t : Z)
| VNaT.

Definition isna (c : cell) : bool :=
  match c with
  | VNum NaN | VNaT => true
  | _ => false
  end.

(** A row keeps its index label and its cells by column name. *)
Record Row : Type := mkRow {
  label : nat;
  fields : list (string * cell)
}.

Fixpoint lookup (col : string) (fs : list (string * cell)) : cell :=
  match fs with
  | [] => VNum NaN
  | (k, v) :: fs' => if k =? col then v else lookup col fs'
  end.

Definition cell_at (r : Row) (col : string) : cell := lookup col (fields r).

Record DataFrame : Type := mkDF {
  columns : list string;
  rows : list Row
}.

Definition has_column (df : DataFrame) (col : string) : bool :=
  existsb (String.eqb col) (columns df).

Definition with_rows (df : DataFrame) (rs : list Row) : DataFrame :=
  mkDF (columns df) rs.

(** Exceptions that reach the caller. *)
Inductive exn : Type :=
| ValueError_column_not_found (by_ : string)
| KeyError (key : string)
| TypeError (col : string)
| ValueError_unknown_datetime (text : string)
| ValueError_could_not_interpret (field : string).

Inductive result (A : Type) : Type :=
| Ok (a : A)
| Raise (e : exn).
Arguments Ok {A} a.
Arguments Raise {A} e.

Definition bind {A B : Type} (m : result A) (k : A -> result B) : result B :=
  match m with
  | Ok a => k a
  | Raise e => Raise e
  end.

Notation "x <- m ;; k" := (bind m (fun x => k))
  (at level 61, m at next level, right associativity).

(** [df[col]]: a [KeyError] when the column is absent. *)
Definition column (df : DataFrame) (col : string) : result (list cell) :=
  if has_column df col then Ok (map (fun r => cell_at r col) (rows df))
  else Raise (KeyError col).

(* ================================================================== *)
(** ** Row filter ([drop_na_line], lines 64-70) *)

(** [df.dropna(subset=[col])]. *)
Definition dropna (col : string) (df : DataFrame) : result DataFrame :=
  if has_column df col then
    Ok (with_rows df (filter (fun r => negb (isna (cell_at r col))) (rows df)))
  else Raise (KeyError col).

Fixpoint drop_na_line (df : DataFrame) (cols : list string) : result DataFrame :=
  match cols with
  | [] => Ok df
  | col :: cols' => df' <- dropna col df ;; drop_na_line df' cols'
  end.

(** The single conjunctive predicate of the specification: a row survives
    when it is non-missing in every listed column. *)
Definition complete_in (cols : list string) (r : Row) : bool :=
  forallb (fun col => negb (isna (cell_at r col))) cols.

(* ================================================================== *)
(** ** Timestamp parser ([transform_string_to_datetime], lines 10-14) *)

Section Timestamps.
(** The library's reader of one date text of a column.  [pd.to_datetime]
    infers one format from the first text of the column that is not a null
    token, and reads every text of the column in that format; so the reading
    of a text depends on the column it stands in.  [to_datetime texts s] is
    a timestamp, [VNaT] for a null token, or nothing when [s] is not a date
    in the format of the column [texts]. *)
Variable to_datetime : list string -> string -> option cell.

(** The texts [sr] of the column [texts], read one after the other. *)
Fixpoint read_dates (texts sr : list string) : result (list cell) :=
  match sr with
  | [] => Ok []
  | s :: sr' =>
      match to_datetime texts s with
      | Some v => vs <- read_dates texts sr' ;; Ok (v :: vs)
      | None => Raise (ValueError_unknown_datetime s)
      end
  end.

(** [pd.to_datetime(sr.astype(str))]: called without [errors='coerce'], so
    the first text that is not a date in the format of the column raises. *)
Definition transform_string_to_datetime (sr : list (option string))
    : result (list cell) :=
  let texts := map astype_str sr in
  read_dates texts texts.
End Timestamps.

(* ================================================================== *)
(** ** Ordering of cells *)

(** Missing values come last in a descending sort, so they rank lowest;
    within a kind, cells compare by value.  Cells of different kinds do not
    compare, see [one_kind]; the rank only makes the order total. *)
Definition rank (c : cell) : nat :=
  match c with
  | VNum NaN | VNaT => 0
  | VNum _ => 1
  | VTime _ => 2
  | VStr _ => 3
  end.

Definition cell_leb (a b : cell) : bool :=
  match a, b with
  | VNum x, VNum y => if isnan x then true else if isnan y then false else num_leb x y
  | VTime s, VTime t => (s <=? t)%Z
  | VStr s, VStr t => String.leb s t
  | _, _ => Nat.leb (rank a) (rank b)
  end.

(** The values of a column compare with one another: apart from the missing
    ones, which a sort sets aside, they are all numbers, all timestamps or
    all texts.  On a column that mixes kinds (a text and a number, say) the
    comparison of the sort raises a [TypeError]. *)
Definition one_kind (l : list cell) : bool :=
  match filter (fun c => negb (isna c)) l with
  | [] => true
  | c :: rest => forallb (fun d => Nat.eqb (rank d) (rank c)) rest
  end.

(** [a] may stand before [b] in a descending sort by column [by_]. *)
Definition desc_by (by_ : string) (a b : Row) : Prop :=
  cell_leb (cell_at b by_) (cell_at a by_) = true.

(** What [sort_values(by=..., ascending=False)] guarantees with the default
    sort kind: the rows are rearranged into descending order.  The order among
    rows of equal value is not part of the contract. *)
Definition sort_contract (argsort : string -> list Row -> list Row) : Prop :=
  forall by_ l,
    Permutation (argsort by_ l) l /\ StronglySorted (desc_by by_) (argsort by_ l).

(** Two sorts that meet the contract.  Insertion sort, each row going in
    front of the rows that are not greater, keeps rows of equal value in their
    original order; run on the reversed list it reverses them. *)
Fixpoint insert_desc (by_ : string) (r : Row) (l : list Row) : list Row :=
  match l with
  | [] => [r]
  | x :: l' =>
      if cell_leb (cell_at x by_) (cell_at r by_) then r :: l
      else x :: insert_desc by_ r l'
  end.

Definition stable_sort_desc (by_ : string) (l : list Row) : list Row :=
  fold_right (insert_desc by_) [] l.

Definition reversing_sort_desc (by_ : string) (l : list Row) : list Row :=
  stable_sort_desc by_ (rev l).

(* ================================================================== *)
(** ** Top-N by metric ([get_top_crypto_list], lines 183-207) *)

Definition cell_eq_dec (a b : cell) : {a = b} + {a <> b}.
Proof.
  repeat decide equality.
Defined.

Definition cell_eqb (a b : cell) : bool :=
  if cell_eq_dec a b then true else false.

(** [drop_duplicates(subset=[col])], keeping the first row of each value:
    [seen] holds the values met so far. *)
Fixpoint keep_first (col : string) (seen : list cell) (l : list Row) : list Row :=
  match l with
  | [] => []
  | r :: l' =>
      if existsb (cell_eqb (cell_at r col)) seen then keep_first col seen l'
      else r :: keep_first col (cell_at r col :: seen) l'
  end.

Definition drop_duplicates (col : string) (df : DataFrame) : result DataFrame :=
  if has_column df col then Ok (with_rows df (keep_first col [] (rows df)))
  else Raise (KeyError col).

(** [df.head(n)]: the first [n] rows, all but the last [-n] for negative [n]. *)
Definition head {A : Type} (n : Z) (l : list A) : list A :=
  if (0 <=? n)%Z then firstn (Z.to_nat n) l
  else firstn (List.length l - Z.to_nat (- n)) l.

Section TopN.
(** The library's sort, see [sort_contract]. *)
Variable argsort : string -> list Row -> list Row.

Definition sort_values (by_ : string) (df : DataFrame) : result DataFrame :=
  if has_column df by_ then
    if one_kind (map (fun r => cell_at r by_) (rows df)) then
      Ok (with_rows df (argsort by_ (rows df)))
    else Raise (TypeError by_)
  else Raise (KeyError by_).

Definition get_top_crypto_list (df : DataFrame) (n : Z) (by_ : string)
    (top1 : bool) : result (list cell) :=
  if negb (has_column df by_) then Raise (ValueError_column_not_found by_)
  else
    let tmp := df in
    d1 <- dropna by_ tmp ;;
    d2 <- sort_values by_ d1 ;;
    d3 <- drop_duplicates "name" d2 ;;
    top_names <- column (with_rows d3 (head n (rows d3))) "name" ;;
    if top1 then Ok (tl top_names) else Ok top_names.
End TopN.

(* ================================================================== *)
(** ** Reductions over a numeric column (NaN skipped, as pandas does) *)

Definition dropnan (l : list num) : list num :=
  filter (fun x => negb (isnan x)) l.

Definition series_mean (l : list num) : num :=
  match dropnan l with
  | [] => NaN
  | v => num_div_nat (fold_left num_add v (Fin 0)) (List.length v)
  end.

Definition series_min (l : list num) : num :=
  match dropnan l with
  | [] => NaN
  | x :: v => fold_left (fun m y => if num_leb y m then y else m) v x
  end.

Definition series_max (l : list num) : num :=
  match dropnan l with
  | [] => NaN
  | x :: v => fold_left (fun m y => if num_leb m y then y else m) v x
  end.

Fixpoint insert_num (x : num) (l : list num) : list num :=
  match l with
  | [] => [x]
  | y :: l' => if num_leb x y then x :: l else y :: insert_num x l'
  end.

Definition sort_num (l : list num) : list num :=
  fold_right insert_num [] l.

Definition series_median (l : list num) : num :=
  let v := sort_num (dropnan l) in
  let n := List.length v in
  if Nat.eqb n 0 then NaN
  else if Nat.odd n then nth (n / 2) v NaN
  else num_div_nat (num_add (nth (n / 2 - 1) v NaN) (nth (n / 2) v NaN)) 2.

(* ================================================================== *)
(** ** Number formatting ([fmt_num], [fmt_percent], lines 210-226) *)

(** The value handed over as a number of decimals: an integer, or (at the
    dashboard's call site) a calendar date, counted in days. *)
Inductive pyarg : Type :=
| PInt (n : Z)
| PDate (day : Z).

Definition decimal_digits (n : N) : string :=
  NilZero.string_of_uint (N.to_uint n).

Fixpoint zeros (k : nat) : string :=
  match k with
  | O => ""
  | S k' => String "0" (zeros k')
  end.

(** Digits right-aligned in a field of [width], filled with zeros. *)
Definition zero_pad (width : nat) (s : string) : string :=
  zeros (width - String.length s) ++ s.

(** A separator after every third digit, counted from the right; the list
    holds the digits from the right. *)
Fixpoint group_rev (cnt : nat) (sep : ascii) (l : list ascii) : list ascii :=
  match l with
  | [] => []
  | c :: l' =>
      match l' with
      | [] => [c]
      | _ :: _ =>
          if Nat.eqb cnt 2 then c :: sep :: group_rev 0 sep l'
          else c :: group_rev (S cnt) sep l'
      end
  end.

Definition group_thousands (sep : ascii) (s : string) : string :=
  string_of_list_ascii (rev (group_rev 0 sep (rev (list_ascii_of_string s)))).

(** [format(x, "_.{dec}f")] for a finite [x] and [dec] decimals. *)
Definition format_fixed (sep : ascii) (dec : nat) (q : Q) : string :=
  let scaled := (q * inject_Z (10 ^ Z.of_nat dec))%Q in
  let r := Z.abs_N (round_half_even scaled) in
  let pow := (10 ^ N.of_nat dec)%N in
  let int_part := group_thousands sep (decimal_digits (r / pow)) in
  let sign := if Qsign_neg q then "-" else "" in
  if Nat.eqb dec 0 then sign ++ int_part
  else sign ++ int_part ++ "." ++ zero_pad dec (decimal_digits (r mod pow)).

(** [format(x, f"_.{dec}f")]: [None] stands for the [ValueError] of an
    invalid format specifier, which is what a negative integer or a date
    in the place of [dec] produces. *)
Definition format_spec (x : num) (dec : pyarg) : option string :=
  match dec with
  | PInt n =>
      if (0 <=? n)%Z then
        match x with
        | Fin q => Some (format_fixed "_" (Z.to_nat n) q)
        | Inf negative => Some (if negative then "-inf" else "inf")
        | NaN => Some "nan"
        end
      else None
  | PDate _ => None
  end.

Section Presentation.
(** Python's [str()] of a cell that is not a string, and [repr()] of a
    string: the texts are the interpreter's. *)
Variable py_str : cell -> string.
Variable py_repr : string -> string.

Definition fmt_num (x : num) (dec : pyarg) : string :=
  if isnan x then "-"
  else match format_spec x dec with
       | Some s => s ++ "$"
       | None => py_str (VNum x)
       end.

Definition fmt_percent (x : num) (dec : pyarg) : string :=
  if isnan x then "-"
  else match format_spec x dec with
       | Some s => s ++ "%"
       | None => py_str (VNum x)
       end.

(** Text of a cell inside an f-string. *)
Definition cell_text (c : cell) : string :=
  match c with
  | VStr s => s
  | other => py_str other
  end.

(* ================================================================ *)
(** ** Per-entity summary ([get_crypto_main_info], lines 228-275) *)

(** What the function shows through Streamlit. *)
Inductive st_call : Type :=
| st_write (s : string)
| st_text (s : string).

(** [df[df['name'] == crypto]]. *)
Definition name_is (crypto : string) (r : Row) : bool :=
  cell_eqb (cell_at r "name") (VStr crypto).

Definition select_name (df : DataFrame) (crypto : string) : result DataFrame :=
  _ <- column df "name" ;;
  Ok (with_rows df (filter (name_is crypto) (rows df))).

(** A column of numbers, as the reductions need it. *)
Fixpoint as_numbers (col : string) (l : list cell) : result (list num) :=
  match l with
  | [] => Ok []
  | VNum x :: l' => xs <- as_numbers col l' ;; Ok (x :: xs)
  | _ :: _ => Raise (TypeError col)
  end.

Definition num_column (df : DataFrame) (col : string) : result (list num) :=
  cells <- column df col ;; as_numbers col cells.

(** The numbers of the block "get number fields". *)
Record summary : Type := mkSummary {
  price_mean : num; price_median : num; price_min : num; price_max : num;
  chg24_mean : num; chg24_min : num; chg24_max : num;
  chg7_mean : num; chg7_min : num; chg7_max : num
}.

Definition summarize (crypto_df : DataFrame) : result summary :=
  price <- num_column crypto_df "price_usd_num" ;;
  chg24 <- num_column crypto_df "chg_24h_num" ;;
  chg7 <- num_column crypto_df "chg_7d_num" ;;
  Ok (mkSummary
        (series_mean price) (series_median price) (series_min price) (series_max price)
        (series_mean chg24) (series_min chg24) (series_max chg24)
        (series_mean chg7) (series_min chg7) (series_max chg7)).

Definition get_crypto_main_info (df : DataFrame) (crypto : string)
    (price_decimals change_decimals : pyarg) : result (list st_call) :=
  crypto_df <- select_name df crypto ;;
  match rows crypto_df with
  | [] => Ok [st_write ("No data for " ++ py_repr crypto)]
  | first :: _ =>
      _ <- column crypto_df "symbol" ;;
      let name := cell_at first "name" in
      let symbol := cell_at first "symbol" in
      s <- summarize crypto_df ;;
      Ok [ st_write ("name: " ++ cell_text name);
           st_write ("symbol: " ++ cell_text symbol);
           st_text ("price in $, mean: " ++ fmt_num (price_mean s) price_decimals);
           st_text ("price in $, median: " ++ fmt_num (price_median s) price_decimals);
           st_text ("price in $, min: " ++ fmt_num (price_min s) price_decimals);
           st_text ("price in $, max: " ++ fmt_num (price_max s) price_decimals);
           st_write ("change in last 24 hours - mean: "
                     ++ fmt_percent (chg24_mean s) change_decimals);
           st_write ("change in last 24 hours - min: "
                     ++ fmt_percent (chg24_min s) change_decimals);
           st_write ("change in last 24 hours - max: "
                     ++ fmt_percent (chg24_max s) change_decimals);
           st_write ("change in last 7 days - mean: "
                     ++ fmt_percent (chg7_mean s) change_decimals);
           st_write ("change in last 7 days - min: "
                     ++ fmt_percent (chg7_min s) change_decimals);
           st_write ("change in last 7 days - max: "
                     ++ fmt_percent (chg7_max s) change_decimals) ]
  end.

(** The call of [Cripto_main.py], line 87: the two ends of the chosen date
    range arrive in the places of [price_decimals] and [change_decimals]. *)
Definition main_info_call_site (df : DataFrame) (option_cripto_name : string)
    (start_date end_date : Z) : result (list st_call) :=
  get_crypto_main_info df option_cripto_name (PDate start_date) (PDate end_date).
End Presentation.

(* ================================================================== *)
(** ** Date range selection ([plot_crypto_field], lines 286-295) *)

Definition nanoseconds_per_day : Z := 86400000000000.

(** [datetime.combine(d, datetime.min.time())]: midnight. *)
Definition start_of_day (d : Z) : Z := (d * nanoseconds_per_day)%Z.

(** [datetime.combine(d, datetime.max.time())]: 23:59:59.999999, one
    microsecond before the next day. *)
Definition end_of_day (d : Z) : Z :=
  (d * nanoseconds_per_day + (nanoseconds_per_day - 1000))%Z.

Definition in_range (start_date end_date : Z) (r : Row) : bool :=
  match cell_at r "timestamp" with
  | VTime t => ((start_of_day start_date <=? t) && (t <=? end_of_day end_date))%Z
  | _ => false
  end.

(** A cell of a column of datetime type. *)
Definition is_datetime (c : cell) : bool :=
  match c with
  | VTime _ | VNaT => true
  | _ => false
  end.

(** The frame [df] of line 289.  The comparison with a datetime raises a
    [TypeError] on a column that holds anything but timestamps. *)
Definition select_range (df_main : DataFrame) (start_date end_date : Z)
    : result DataFrame :=
  stamps <- column df_main "timestamp" ;;
  if forallb is_datetime stamps then
    Ok (with_rows df_main (filter (in_range start_date end_date) (rows df_main)))
  else Raise (TypeError "timestamp").

(** The records of one entity inside the inclusive range, as the loop of
    [plot_crypto_field] selects them (line 295). *)
Definition select_entity_in_range (df_main : DataFrame) (crypto : string)
    (start_date end_date : Z) : result DataFrame :=
  df <- select_range df_main start_date end_date ;;
  select_name df crypto.

(* ================================================================== *)
(** ** The textual patterns of the specification *)

(** A non-empty run of decimal digits. *)
Fixpoint all_digits (s : string) : bool :=
  match s with
  | EmptyString => true
  | String c s' => is_digit c && all_digits s'
  end.

Definition digits (s : string) : bool :=
  negb (s =? "") && all_digits s.

(** The natural number that a run of digits denotes. *)
Fixpoint digits_value_from (acc : N) (s : string) : N :=
  match s with
  | EmptyString => acc
  | String c s' => digits_value_from (acc * 10 + digit_val c)%N s'
  end.

Definition digits_value (s : string) : N := digits_value_from 0 s.

(** [<digits>[.<digits>]]: the fraction is optional. *)
Definition fraction_ok (fp : option string) : bool :=
  match fp with
  | Some f => digits f
  | None => true
  end.

Definition decimal_text (ip : string) (fp : option string) : string :=
  ip ++ match fp with
        | Some f => "." ++ f
        | None => ""
        end.

Definition decimal_value (ip : string) (fp : option string) : Q :=
  (inject_Z (Z.of_N (digits_value ip))
   + match fp with
     | Some f =>
         inject_Z (Z.of_N (digits_value f))
         / inject_Z (10 ^ Z.of_nat (String.length f))
     | None => 0
     end)%Q.

(** The power of ten of a scale suffix; an absent suffix scales by one. *)
Definition suffix_exponent (suffix : option ascii) : option Z :=
  match suffix with
  | None => Some 0%Z
  | Some c =>
      if Ascii.eqb c "K" then Some 3%Z
      else if Ascii.eqb c "M" then Some 6%Z
      else if Ascii.eqb c "B" then Some 9%Z
      else if Ascii.eqb c "T" then Some 12%Z
      else None
  end.

(** The same letters in lower case, which the parser does not scale. *)
Definition lowercase_suffix (c : ascii) : bool :=
  existsb (Ascii.eqb c) ["t"; "b"; "m"; "k"]%char.

Definition suffix_text (suffix : option ascii) : string :=
  match suffix with
  | Some c => String c ""
  | None => ""
  end.

(** [<symbol><digits>[.<digits>]<suffix>] with the dollar sign as symbol. *)
Definition currency_text (ip : string) (fp : option string)
    (suffix : option ascii) : string :=
  "$" ++ decimal_text ip fp ++ suffix_text suffix.

(** A number, negative or not, with a trailing [%] and an optional leading
    [+]. *)
Definition percent_text (plus negative : bool) (ip : string)
    (fp : option string) : string :=
  (if plus then "+" else "") ++ (if negative then "-" else "")
  ++ decimal_text ip fp ++ "%".

Definition signed (negative : bool) (q : Q) : Q :=
  if negative then (- q)%Q else q.

(** Recogniser of the percent pattern: optional [+], optional [-],
    [<digits>[.<digits>]], then [%] and nothing else. *)
Fixpoint skip_digits (s : string) : string :=
  match s with
  | String c s' => if is_digit c then skip_digits s' else s
  | EmptyString => s
  end.

(** The leading run of digits of a text. *)
Fixpoint digit_prefix (s : string) : string :=
  match s with
  | String c s' => if is_digit c then String c (digit_prefix s') else ""
  | EmptyString => ""
  end.

Definition starts_with_digit (s : string) : bool :=
  match s with
  | String c _ => is_digit c
  | EmptyString => false
  end.

Definition strip_char (c : ascii) (s : string) : string :=
  match s with
  | String d s' => if Ascii.eqb d c then s' else s
  | EmptyString => s
  end.

Definition plain_decimal_then (rest : string) (s : string) : bool :=
  starts_with_digit s &&
  let p := skip_digits s in
  if p =? rest then true
  else match p with
       | String c p' =>
           Ascii.eqb c "." && starts_with_digit p' && (skip_digits p' =? rest)
       | EmptyString => false
       end.

Definition percent_pattern (s : string) : bool :=
  plain_decimal_then "%" (strip_char "-" (strip_char "+" s)).

(* ================================================================== *)
(** ** The grammar of the numeric reader, as an automaton *)

Inductive lex_state : Type :=
| LStart      (* leading white space *)
| LSign       (* a sign was read *)
| LInt        (* digits before the point *)
| LDot        (* a point, and no digit yet *)
| LFrac       (* after the point, with a digit on one side at least *)
| LExpMark    (* the exponent letter *)
| LExpSign    (* the sign of the exponent *)
| LExp        (* digits of the exponent *)
| LTrail.     (* trailing white space *)

Definition is_sign (c : ascii) : bool :=
  Ascii.eqb c "-" || Ascii.eqb c "+".

Definition is_dot (c : ascii) : bool := Ascii.eqb c ".".

Definition lex_step (st : lex_state) (c : ascii) : option lex_state :=
  match st with
  | LStart =>
      if is_space c then Some LStart
      else if is_sign c then Some LSign
      else if is_digit c then Some LInt
      else if is_dot c then Some LDot
      else None
  | LSign =>
      if is_digit c then Some LInt
      else if is_dot c then Some LDot
      else None
  | LInt =>
      if is_digit c then Some LInt
      else if is_dot c then Some LFrac
      else if is_exp_mark c then Some LExpMark
      else if is_space c then Some LTrail
      else None
  | LDot => if is_digit c then Some LFrac else None
  | LFrac =>
      if is_digit c then Some LFrac
      else if is_exp_mark c then Some LExpMark
      else if is_space c then Some LTrail
      else None
  | LExpMark =>
      if is_sign c then Some LExpSign
      else if is_digit c then Some LExp
      else None
  | LExpSign => if is_digit c then Some LExp else None
  | LExp =>
      if is_digit c then Some LExp
      else if is_space c then Some LTrail
      else None
  | LTrail => if is_space c then Some LTrail else None
  end.

Definition lex_final (st : lex_state) : bool :=
  match st with
  | LInt | LFrac | LExp | LTrail => true
  | _ => false
  end.

Fixpoint lex_run (st : lex_state) (s : string) : bool :=
  match s with
  | EmptyString => lex_final st
  | String c s' =>
      match lex_step st c with
      | Some st' => lex_run st' s'
      | None => false
      end
  end.

(** A decimal literal of the reader. *)
Definition numeric_literal (s : string) : bool := lex_run LStart s.

(** What the reader turns into a number: a literal or an infinity token. *)
Definition readable (s : string) : bool :=
  numeric_literal s || match inf_token s with Some _ => true | None => false end.

(** The text that each parser hands to the reader. *)
Definition plain_remainder (c : option string) : string :=
  str_replace "," "" (astype_str c).

Definition dollars_remainder (c : option string) : string :=
  let num := str_replace "$" "" (astype_str c) in
  str_replace "," "" (if is_suffix (str_last num) then str_init num else num).

Definition percent_remainder (c : option string) : string :=
  str_replace "+" "" (str_replace "%" "" (astype_str c)).

(** Only white space is left. *)
Definition tail_ok (p : string) : bool := (skip_ws p =? "")%string.

(* ================================================================== *)
(** ** Example data *)

Definition crypto_columns : list string :=
  ["name"; "symbol"; "timestamp"; "price_usd_num"; "market_cap_num";
   "chg_24h_num"; "chg_7d_num"].

(** One record of the cleaned data set. *)
Definition snapshot (label : nat) (name symbol : string) (timestamp : Z)
    (price cap chg24 chg7 : num) : Row :=
  mkRow label
    [("name", VStr name); ("symbol", VStr symbol); ("timestamp", VTime timestamp);
     ("price_usd_num", VNum price); ("market_cap_num", VNum cap);
     ("chg_24h_num", VNum chg24); ("chg_7d_num", VNum chg7)].

(** Noon of a day; day 20089 is 2025-01-01 and day 20120 is 2025-02-01. *)
Definition noon (day : Z) : Z :=
  (start_of_day day + 12 * 3600 * 1000000000)%Z.

Definition qnum (n : Z) : num := Fin (inject_Z n).

(** Eighteen entities, named A to R, with the same market capitalisation. *)
Definition letter (i : nat) : string := String (ascii_of_nat (65 + i)) "".

Definition tied_row (i : nat) : Row :=
  snapshot i (letter i) (letter i) (noon 20089) (qnum 10) (qnum 500) (qnum 1) (qnum 2).

Definition df_ties : DataFrame :=
  mkDF crypto_columns (map tied_row (seq 0 18)).

(** A small market: several records per entity, one without market
    capitalisation. *)
Definition df_market : DataFrame :=
  mkDF crypto_columns
    [snapshot 0 "Bitcoin" "BTC" (noon 20089) (qnum 100) (qnum 900) (qnum 1) (qnum 2);
     snapshot 1 "Ethereum" "ETH" (noon 20089) (qnum 30) (qnum 400) (qnum (-1)) (qnum 5);
     snapshot 2 "Tether" "USDT" (noon 20089) (qnum 1) NaN (qnum 0) (qnum 0);
     snapshot 3 "Bitcoin" "BTC" (noon 20120) (qnum 200) (qnum 950) (qnum 3) (qnum 8);
     snapshot 4 "Solana" "SOL" (noon 20120) (qnum 7) (qnum 120) (qnum 2) (qnum (-4));
     snapshot 5 "Ethereum" "ETH" (noon 20120) (qnum 35) (qnum 410) (qnum 2) (qnum 6)].

(** One entity on two days a month apart. *)
Definition df_two_days : DataFrame :=
  mkDF crypto_columns
    [snapshot 0 "Bitcoin" "BTC" (noon 20089) (qnum 100) (qnum 900) (qnum 1) (qnum 2);
     snapshot 1 "Bitcoin" "BTC" (noon 20120) (qnum 200) (qnum 950) (qnum 3) (qnum 8)].

(** One entity, recorded in February only. *)
Definition df_february : DataFrame :=
  mkDF crypto_columns
    [snapshot 0 "Bitcoin" "BTC" (noon 20120) (qnum 200) (qnum 950) (qnum 3) (qnum 8);
     snapshot 1 "Ethereum" "ETH" (noon 20089) (qnum 30) (qnum 400) (qnum (-1)) (qnum 5)].


(** The rows that [get_top_crypto_list] ranks: those with a metric. *)
Definition has_metric (by_ : string) (r : Row) : bool :=
  negb (isna (cell_at r by_)).

Definition name_of (r : Row) : cell := cell_at r "name".


(* ================================================================== *)
(** ** Distinct entities ([get_crypto_list], lines 177-179) *)

(** [Series.unique()]: the values in the order of their first occurrence;
    [seen] holds the values met so far. *)
Fixpoint unique_from (seen : list cell) (l : list cell) : list cell :=
  match l with
  | [] => []
  | x :: l' =>
      if existsb (cell_eqb x) seen then unique_from seen l'
      else x :: unique_from (x :: seen) l'
  end.

Definition unique (l : list cell) : list cell := unique_from [] l.

Definition get_crypto_list (df : DataFrame) : result (list cell) :=
  names <- column df "name" ;; Ok (unique names).

(** The calendar day of a timestamp ([Timestamp.date()]). *)
Definition date_of (t : Z) : Z := (t / nanoseconds_per_day)%Z.

(** The nanoseconds since midnight. *)
Definition time_of_day (t : Z) : Z := (t mod nanoseconds_per_day)%Z.

(** 23:59:59.999999, the last time of day that [datetime.max.time()]
    reaches. *)
Definition last_microsecond : Z := (nanoseconds_per_day - 1000)%Z.


(** Groups of digits joined by the thousands separator. *)
Fixpoint join_commas (groups : list string) : string :=
  match groups with
  | [] => ""
  | [g] => g
  | g :: rest => g ++ "," ++ join_commas rest
  end.

Definition concat_groups (groups : list string) : string :=
  fold_right String.append "" groups.

Definition Row_eq_dec (a b : Row) : {a = b} + {a <> b}.
Proof.
  decide equality.
  - apply list_eq_dec. intros [k1 v1] [k2 v2].
    destruct (string_dec k1 k2), (cell_eq_dec v1 v2);
      [left; congruence | right; congruence ..].
  - apply Nat.eq_dec.
Defined.

(** Two rows tie in a column when each may stand before the other. *)
Definition tied (by_ : string) (a b : Row) : Prop :=
  desc_by by_ a b /\ desc_by by_ b a.

(** The number of distinct names among the rows that have the metric. *)
Definition qualifying_names (df : DataFrame) (by_ : string) : list cell :=
  unique (map name_of (filter (has_metric by_) (rows df))).

(* ================================================================== *)
(** ** Short numbers ([short_format_num], lines 166-175) *)

(** [f"{q:.{dec}f}"]: fixed notation without grouping. *)
Definition format_fixed_plain (dec : nat) (q : Q) : string :=
  let scaled := (q * inject_Z (10 ^ Z.of_nat dec))%Q in
  let r := Z.abs_N (round_half_even scaled) in
  let pow := (10 ^ N.of_nat dec)%N in
  let sign := if Qsign_neg q then "-" else "" in
  if Nat.eqb dec 0 then sign ++ decimal_digits (r / pow)
  else sign ++ decimal_digits (r / pow) ++ "."
       ++ zero_pad dec (decimal_digits (r mod pow)).

Definition format_point (dec : nat) (x : num) : string :=
  match x with
  | Fin q => format_fixed_plain dec q
  | Inf negative => if negative then "-inf" else "inf"
  | NaN => "nan"
  end.

(** [abs(num) < 1000]; false for NaN and for the infinities. *)
Definition abs_below_thousand (x : num) : bool :=
  match x with
  | Fin q => negb (Qle_bool (inject_Z 1000) (Qabs.Qabs q))
  | _ => false
  end.

(** The loop over the units: the first unit at which the number is below a
    thousand; each step divides by a thousand. *)
Fixpoint short_format_units (units : list string) (num : num) : string :=
  match units with
  | [] => format_point 1 num ++ "P"
  | unit :: rest =>
      if abs_below_thousand num then format_point 1 num ++ unit
      else short_format_units rest (num_div_nat num 1000)
  end.

Definition short_units : list string := [""; "K"; "M"; "B"; "T"].

Definition short_format_num (num : num) : string :=
  short_format_units short_units num.

(** A thousand to the power [k]. *)
Definition thousand_pow (k : nat) : Q := inject_Z (1000 ^ Z.of_nat k).

(* ================================================================== *)
(** ** KPI cards (lines 108-164) *)

(** What a card can raise besides the errors of the data frame: the extreme
    of a column without any value, and a row label that is not unique (the
    lookup by label then gives a frame instead of a row, and formatting it
    raises). *)
Inductive card_exn : Type :=
| FrameError (e : exn)
| ValueError_empty_extreme (col : string)
| AmbiguousLabel (lbl : nat).

(** [a] is not better than [b]: not greater for a maximum, not smaller for
    a minimum. *)
Definition not_better (pick_max : bool) (a b : num) : bool :=
  if pick_max then num_leb a b else num_leb b a.

(** The first of the best rows: the candidate changes only for a strictly
    better value. *)
Fixpoint extreme_from (pick_max : bool) (best : Row * num)
    (l : list (Row * num)) : Row * num :=
  match l with
  | [] => best
  | p :: l' =>
      extreme_from pick_max
        (if not_better pick_max (snd p) (snd best) then best else p) l'
  end.

(** The rows of a numeric column that hold a value, with the value. *)
Definition valued (xs : list num) (rs : list Row) : list (Row * num) :=
  filter (fun p => negb (isnan (snd p))) (combine rs xs).

(** [df[col].idxmax()] and [df[col].idxmin()]: the label of the first row
    with the greatest (smallest) value, missing values skipped. *)
Definition idx_extreme (pick_max : bool) (df : DataFrame) (col : string)
    : nat + card_exn :=
  match num_column df col with
  | Raise e => inr (FrameError e)
  | Ok xs =>
      match valued xs (rows df) with
      | [] => inr (ValueError_empty_extreme col)
      | first :: rest => inl (label (fst (extreme_from pick_max first rest)))
      end
  end.

(** [df.loc[lbl]] as a single row. *)
Definition loc (df : DataFrame) (lbl : nat) : Row + card_exn :=
  match filter (fun r => Nat.eqb (label r) lbl) (rows df) with
  | [r] => inl r
  | _ => inr (AmbiguousLabel lbl)
  end.

(** The dash of the card texts (U+2014 in UTF-8). *)
Definition em_dash : string :=
  String (ascii_of_nat 226) (String (ascii_of_nat 128) (String (ascii_of_nat 148) "")).

Definition show_dollars (x : num) : string := "$" ++ short_format_num x.

Definition show_percent (x : num) : string := format_point 2 x ++ "%".

Section Cards.
Variable py_str : cell -> string.

(** The common shape of the six cards of an extreme: the row of the
    extreme, then [f"{row['name']} - {value}"].  The decorator [make_card]
    renders the pair and hands it back unchanged. *)
Definition extreme_card (title col : string) (pick_max : bool)
    (show : num -> string) (df : DataFrame) : (string * string) + card_exn :=
  match idx_extreme pick_max df col with
  | inr e => inr e
  | inl lbl =>
      match loc df lbl with
      | inr e => inr e
      | inl row =>
          if has_column df "name" then
            match cell_at row col with
            | VNum v =>
                inl (title,
                     cell_text py_str (cell_at row "name") ++ " " ++ em_dash ++ " "
                     ++ show v)
            | _ => inr (FrameError (TypeError col))
            end
          else inr (FrameError (KeyError "name"))
      end
  end.

Definition max_market_cap : DataFrame -> (string * string) + card_exn :=
  extreme_card "Top Market Cap" "market_cap_num" true show_dollars.

Definition most_expensive_crypto : DataFrame -> (string * string) + card_exn :=
  extreme_card "Most Expensive" "price_usd_num" true show_dollars.

Definition top_gainer_24h : DataFrame -> (string * string) + card_exn :=
  extreme_card "Top Gainer (24h)" "chg_24h_num" true show_percent.

Definition top_loser_24h : DataFrame -> (string * string) + card_exn :=
  extreme_card "Top Loser (24h)" "chg_24h_num" false show_percent.

Definition top_gainer_7d : DataFrame -> (string * string) + card_exn :=
  extreme_card "Top Gainer (7d)" "chg_7d_num" true show_percent.

Definition top_loser_7d : DataFrame -> (string * string) + card_exn :=
  extreme_card "Top Loser (7d)" "chg_7d_num" false show_percent.
End Cards.

(** [df['name'].nunique()]: the distinct names, missing ones not counted. *)
Definition nunique (l : list cell) : nat :=
  List.length (filter (fun c => negb (isna c)) (unique l)).

(** [f"{count:_}"]. *)
Definition format_count (count : nat) : string :=
  group_thousands "_" (decimal_digits (N.of_nat count)).

Definition card_info (df : DataFrame) : result (string * string) :=
  names <- column df "name" ;;
  Ok ("Crypto count", format_count (nunique names)).

(** The number in a cell of a numeric column. *)
Definition value_at (col : string) (r : Row) : num :=
  match cell_at r col with
  | VNum x => x
  | _ => NaN
  end.

(* ================================================================== *)
(** ** The series of [plot_crypto_field] (lines 278-324) *)

(** The order of an ascending sort: missing values come last. *)
Definition asc_leb (a b : cell) : bool :=
  if isna b then true else if isna a then false else cell_leb a b.

Definition asc_by (col : string) (a b : Row) : Prop :=
  asc_leb (cell_at a col) (cell_at b col) = true.

(** What [sort_values(col)] guarantees with the default sort kind. *)
Definition sort_contract_asc (argsort : string -> list Row -> list Row) : Prop :=
  forall col l,
    Permutation (argsort col l) l /\ StronglySorted (asc_by col) (argsort col l).

(** Insertion sort, ascending, as one sort within the contract. *)
Fixpoint insert_asc (col : string) (r : Row) (l : list Row) : list Row :=
  match l with
  | [] => [r]
  | x :: l' =>
      if asc_leb (cell_at r col) (cell_at x col) then r :: l
      else x :: insert_asc col r l'
  end.

Definition insertion_sort_asc (col : string) (l : list Row) : list Row :=
  fold_right (insert_asc col) [] l.

(** What the function shows and draws. *)
Inductive plot_event : Type :=
| st_warning (msg : string)
| st_info (msg : string)
| lineplot (y : string) (data : list Row) (label : string)
| st_pyplot (title : string).

(** [", ".join(cryptos)]. *)
Fixpoint join_names (names : list string) : string :=
  match names with
  | [] => ""
  | [c] => c
  | c :: rest => c ++ ", " ++ join_names rest
  end.

Section Plot.
Variable argsort_asc : string -> list Row -> list Row.
Variable py_repr : string -> string.

Definition sort_values_asc (col : string) (df : DataFrame) : result DataFrame :=
  if has_column df col then
    if one_kind (map (fun r => cell_at r col) (rows df)) then
      Ok (with_rows df (argsort_asc col (rows df)))
    else Raise (TypeError col)
  else Raise (KeyError col).

(** The loop over the requested entities: the events in order, and whether
    a series was drawn. *)
Fixpoint plot_series (df : DataFrame) (field : string) (cryptos : list string)
    : result (list plot_event * bool) :=
  match cryptos with
  | [] => Ok ([], false)
  | crypto :: rest =>
      crypto_df <- select_name df crypto ;;
      match rows crypto_df with
      | [] =>
          r <- plot_series df field rest ;;
          Ok (st_warning ("No data for " ++ py_repr crypto) :: fst r, snd r)
      | _ :: _ =>
          sorted <- sort_values_asc "timestamp" crypto_df ;;
          if has_column sorted field then
            r <- plot_series df field rest ;;
            Ok (lineplot field (rows sorted) crypto :: fst r, true)
          else Raise (ValueError_could_not_interpret field)
      end
  end.

(** The figure is stood for by its title; [None] is the return without
    figure. *)
Definition plot_crypto_field (df_main : DataFrame) (start_date end_date : Z)
    (cryptos : list string) (field f_name : string)
    : result (list plot_event * option string) :=
  df <- select_range df_main start_date end_date ;;
  r <- plot_series df field cryptos ;;
  if snd r then
    let title := f_name ++ " " ++ em_dash ++ " " ++ join_names cryptos in
    Ok ((fst r ++ [st_pyplot title])%list, Some title)
  else Ok ((fst r ++ [st_info "No series to plot."])%list, None).
End Plot.

(** The records of an entity inside the range. *)
Definition records_in_range (df_main : DataFrame) (start_date end_date : Z)
    (crypto : string) : list Row :=
  filter (name_is crypto) (filter (in_range start_date end_date) (rows df_main)).

(** What one requested entity contributes to the plot: a warning when it has
    no row, else one line over its rows in ascending order of time. *)
Definition series_step (py_repr : string -> string) (rs : list Row)
    (field crypto : string) (ev : plot_event) : Prop :=
  (rs = [] /\ ev = st_warning ("No data for " ++ py_repr crypto))
  \/ (rs <> []
      /\ exists data, ev = lineplot field data crypto
                      /\ Permutation data rs
                      /\ StronglySorted (asc_by "timestamp") data).

(* ================================================================== *)
(** ** The start of the dashboard ([Cripto_main.py], lines 10-24) *)

(** [df[col] = ...] on one row: the new cell shadows an older one. *)
Definition set_field (col : string) (v : cell) (r : Row) : Row :=
  mkRow (label r) ((col, v) :: fields r).

(** [df[col] = values]: the values go to the rows in order; a new column
    is appended to the columns. *)
Definition assign (col : string) (values : list cell) (df : DataFrame) : DataFrame :=
  mkDF (if has_column df col then columns df else (columns df ++ [col])%list)
       (map (fun p => set_field col (snd p) (fst p)) (combine (rows df) values)).

Definition na_list : list string :=
  ["name"; "price_usd_num"; "vol_24h_num"; "market_cap_num"; "total_vol_num";
   "chg_24h_num"; "chg_7d_num"].

Section Startup.
(** Python's [str()] of a cell that is not a string, and the library's
    reader of one date text. *)
Variable py_str : cell -> string.
Variable to_datetime : list string -> string -> option cell.

(** A cell as the parsers receive it: an empty cell stays empty, a string is
    itself, anything else is its text. *)
Definition raw_text (c : cell) : option string :=
  match c with
  | VStr s => Some s
  | VNum NaN => None
  | other => Some (py_str other)
  end.

(** [df[dst] = parser(df[src])]. *)
Definition parse_column (parser : list (option string) -> list num)
    (src dst : string) (df : DataFrame) : result DataFrame :=
  cells <- column df src ;;
  Ok (assign dst (map VNum (parser (map raw_text cells))) df).

(** Lines 13 to 24: the timestamps, the six numeric columns, the Row
    Filter. *)
Definition clean_crypto (df_crypto : DataFrame) : result DataFrame :=
  stamps <- column df_crypto "timestamp" ;;
  times <- transform_string_to_datetime to_datetime (map raw_text stamps) ;;
  let df := assign "timestamp" times df_crypto in
  df <- parse_column transform_string_to_num "price_usd" "price_usd_num" df ;;
  df <- parse_column transform_dollars_str_to_num "vol_24h" "vol_24h_num" df ;;
  df <- parse_column transform_dollars_str_to_num "market_cap" "market_cap_num" df ;;
  df <- parse_column transform_percent_str_to_num "total_vol" "total_vol_num" df ;;
  df <- parse_column transform_percent_str_to_num "chg_24h" "chg_24h_num" df ;;
  df <- parse_column transform_percent_str_to_num "chg_7d" "chg_7d_num" df ;;
  drop_na_line df na_list.

(** The six derived cells of a row, read off its own raw cells. *)
Definition derived_from_raw (r : Row) : Prop :=
  cell_at r "price_usd_num" = VNum (string_to_num (raw_text (cell_at r "price_usd")))
  /\ cell_at r "vol_24h_num"
     = VNum (dollars_str_to_num (raw_text (cell_at r "vol_24h")))
  /\ cell_at r "market_cap_num"
     = VNum (dollars_str_to_num (raw_text (cell_at r "market_cap")))
  /\ cell_at r "total_vol_num"
     = VNum (percent_str_to_num (raw_text (cell_at r "total_vol")))
  /\ cell_at r "chg_24h_num"
     = VNum (percent_str_to_num (raw_text (cell_at r "chg_24h")))
  /\ cell_at r "chg_7d_num"
     = VNum (percent_str_to_num (raw_text (cell_at r "chg_7d"))).
End Startup.

(** The columns of the source file. *)
Definition csv_columns : list string :=
  ["name"; "symbol"; "timestamp"; "price_usd"; "vol_24h"; "market_cap";
   "total_vol"; "chg_24h"; "chg_7d"].

Definition csv_row (label : nat) (name symbol timestamp price vol cap total
    chg24 chg7 : cell) : Row :=
  mkRow label
    [("name", name); ("symbol", symbol); ("timestamp", timestamp);
     ("price_usd", price); ("vol_24h", vol); ("market_cap", cap);
     ("total_vol", total); ("chg_24h", chg24); ("chg_7d", chg7)].

(** Three records as read from a file: the second one has no market
    capitalisation, the third one a change that is no number. *)
Definition df_raw : DataFrame :=
  mkDF csv_columns
    [csv_row 0 (VStr "Bitcoin") (VStr "BTC") (VStr "2025-01-01")
       (VStr "95,000.5") (VStr "$30.1B") (VStr "$1.88T") (VStr "17%")
       (VStr "+2.5%") (VStr "-1.66%");
     csv_row 1 (VStr "Tether") (VStr "USDT") (VStr "2025-01-01")
       (VStr "1.0") (VStr "$45B") (VNum NaN) (VStr "30%")
       (VStr "0%") (VStr "0%");
     csv_row 2 (VStr "Solana") (VStr "SOL") (VStr "2025-01-01")
       (VStr "190") (VStr "$3.2B") (VStr "$91.53B") (VStr "2%")
       (VStr "n/a") (VStr "+4%")].

(** A date reader for the examples.  The null tokens are read as [NaT].
    The format is that of the first text of the column that is not a null
    token, a date alone (ten characters) or a date with a time (nineteen);
    a text of another length is not in the format of the column. *)
Definition null_text (s : string) : bool :=
  (s =? "nan") || (s =? "NaT") || (s =? "").

Definition example_date (s : string) : option cell :=
  if s =? "2025-01-01" then Some (VTime (start_of_day 20089))
  else if s =? "2025-01-01 12:00:00" then Some (VTime (noon 20089))
  else None.

Definition example_to_datetime (texts : list string) (s : string) : option cell :=
  if null_text s then Some VNaT
  else match find (fun t => negb (null_text t)) texts with
       | Some first =>
           if Nat.eqb (String.length s) (String.length first) then example_date s
           else None
       | None => None
       end.

(* ================================================================== *)
(** ** Top-N by frequency ([count_plot_top_n_by_name], lines 326-359) *)

(** How often a value stands in a column. *)
Definition count_of (l : list cell) (x : cell) : nat := count_occ cell_eq_dec l x.

(** [Series.value_counts()] before its sort: every distinct non-missing
    value with its count. *)
Definition value_counts_unsorted (l : list cell) : list (cell * nat) :=
  map (fun x => (x, count_of l x)) (filter (fun c => negb (isna c)) (unique l)).

(** The sort of [value_counts]: a rearrangement into descending counts; the
    order among equal counts is the sort's own. *)
Definition counts_sort_contract
    (sort_counts : list (cell * nat) -> list (cell * nat)) : Prop :=
  forall l,
    Permutation (sort_counts l) l
    /\ StronglySorted (fun a b => snd b <= snd a) (sort_counts l).

Fixpoint insert_count (p : cell * nat) (l : list (cell * nat)) : list (cell * nat) :=
  match l with
  | [] => [p]
  | q :: l' => if Nat.leb (snd q) (snd p) then p :: l else q :: insert_count p l'
  end.

Definition insertion_sort_counts (l : list (cell * nat)) : list (cell * nat) :=
  fold_right insert_count [] l.

(** [str(n)] of an integer. *)
Definition int_text (n : Z) : string :=
  (if (n <? 0)%Z then "-" else "") ++ decimal_digits (Z.abs_N n).

Inductive count_event : Type :=
| st_error (msg : string)
| countplot (data : list Row) (y : string) (order : list cell)
| count_pyplot (title : string).

Section CountPlot.
Variable sort_counts : list (cell * nat) -> list (cell * nat).
Variable py_repr : string -> string.

(** [df[col].value_counts().head(n).index]. *)
Definition top_values (l : list cell) (n : Z) : list cell :=
  map fst (head n (sort_counts (value_counts_unsorted l))).

(** The events, and whether a figure is returned. *)
Definition count_plot_top_n_by_name (df : DataFrame) (col : string) (n : Z)
    : list count_event * bool :=
  if negb (has_column df col) then
    ([st_error ("Column " ++ py_repr col ++ " not found in DataFrame")], false)
  else
    let values := map (fun r => cell_at r col) (rows df) in
    let top_n := top_values values n in
    let data :=
      filter (fun r => existsb (cell_eqb (cell_at r col)) top_n) (rows df) in
    ([countplot data col top_n;
      count_pyplot ("Top " ++ int_text n ++ " by Count")], true).
End CountPlot.

(* ================================================================== *)
(** ** The ends of the date picker ([Cripto_main.py], lines 27-28) *)

(** The timestamps of a column of datetime type; the missing ones are
    skipped by the reductions. *)
Fixpoint stamps (l : list cell) : result (list Z) :=
  match l with
  | [] => Ok []
  | VTime t :: l' => ts <- stamps l' ;; Ok (t :: ts)
  | VNaT :: l' => stamps l'
  | _ :: _ => Raise (TypeError "timestamp")
  end.

(** [df_crypto['timestamp'].max().date()]; [None] stands for the [NaT] of a
    column without any timestamp. *)
Definition max_date (df_crypto : DataFrame) : result (option Z) :=
  cells <- column df_crypto "timestamp" ;;
  ts <- stamps cells ;;
  match ts with
  | [] => Ok None
  | t :: rest => Ok (Some (date_of (fold_left Z.max rest t)))
  end.

(** [df_crypto['timestamp'].min().date()]. *)
Definition min_date (df_crypto : DataFrame) : result (option Z) :=
  cells <- column df_crypto "timestamp" ;;
  ts <- stamps cells ;;
  match ts with
  | [] => Ok None
  | t :: rest => Ok (Some (date_of (fold_left Z.min rest t)))
  end.


(* ================================================================== *)
(** * Properties *)

(* ------------------------------------------------------------------ *)
(** ** Characters *)

Ltac each_ascii c :=
  destruct c as [[] [] [] [] [] [] [] []]; try reflexivity; try discriminate.

Lemma digit_class (c : ascii) :
  is_digit c = true ->
  is_space c = false /\ is_sign c = false /\ is_dot c = false
  /\ is_exp_mark c = false.
Proof. each_ascii c; intros _; repeat split. Qed.

Lemma space_class (c : ascii) :
  is_space c = true ->
  is_digit c = false /\ is_sign c = false /\ is_dot c = false
  /\ is_exp_mark c = false.
Proof. each_ascii c; intros _; repeat split. Qed.

Lemma sign_class (c : ascii) :
  is_sign c = true ->
  is_digit c = false /\ is_space c = false /\ is_dot c = false
  /\ is_exp_mark c = false.
Proof. each_ascii c; intros _; repeat split. Qed.

Lemma dot_class (c : ascii) :
  is_dot c = true ->
  is_digit c = false /\ is_space c = false /\ is_sign c = false
  /\ is_exp_mark c = false.
Proof. each_ascii c; intros _; repeat split. Qed.

Lemma exp_mark_class (c : ascii) :
  is_exp_mark c = true ->
  is_digit c = false /\ is_space c = false /\ is_sign c = false
  /\ is_dot c = false.
Proof. each_ascii c; intros _; repeat split. Qed.

(* ------------------------------------------------------------------ *)
(** ** Runs of digits *)

Lemma read_digits_spec (s : string) : forall acc cnt,
  read_digits acc cnt s
  = (digits_value_from acc (digit_prefix s),
     cnt + String.length (digit_prefix s), skip_digits s).
Proof.
  induction s as [|c s IH]; intros acc cnt; simpl.
  - now rewrite Nat.add_0_r.
  - destruct (is_digit c); simpl.
    + rewrite IH. now rewrite Nat.add_succ_r.
    + now rewrite Nat.add_0_r.
Qed.

Lemma digit_prefix_empty (s : string) :
  Nat.eqb (String.length (digit_prefix s)) 0 = negb (starts_with_digit s).
Proof. destruct s as [|c s]; simpl; [reflexivity|]. now destruct (is_digit c). Qed.

Lemma skip_digits_no_digit (s : string) :
  starts_with_digit s = false -> skip_digits s = s.
Proof. destruct s as [|c s]; simpl; [reflexivity|]. now intros ->. Qed.

Lemma skip_digits_stops (s : string) : starts_with_digit (skip_digits s) = false.
Proof.
  induction s as [|c s IH]; simpl; [reflexivity|].
  destruct (is_digit c) eqn:E; [exact IH|]. simpl. exact E.
Qed.

(* ------------------------------------------------------------------ *)
(** ** The automaton, state by state *)

Lemma run_trail (s : string) : lex_run LTrail s = tail_ok s.
Proof.
  unfold tail_ok. induction s as [|c s IH]; simpl; [reflexivity|].
  destruct (is_space c); [exact IH | reflexivity].
Qed.

Lemma run_exp (s : string) : lex_run LExp s = tail_ok (skip_digits s).
Proof.
  induction s as [|c s IH]; simpl; [reflexivity|].
  destruct (is_digit c) eqn:D; [exact IH|].
  unfold tail_ok. simpl. destruct (is_space c); [apply run_trail | reflexivity].
Qed.

Lemma run_expsign (s : string) :
  lex_run LExpSign s = starts_with_digit s && tail_ok (skip_digits s).
Proof.
  destruct s as [|c s]; simpl; [reflexivity|].
  destruct (is_digit c); [apply run_exp | reflexivity].
Qed.

Lemma read_sign_spec (s : string) :
  read_sign s
  = match s with
    | String c s' => if is_sign c then (Ascii.eqb c "-", s') else (false, s)
    | EmptyString => (false, s)
    end.
Proof.
  destruct s as [|c s]; [reflexivity|]. unfold read_sign, is_sign.
  destruct (Ascii.eqb c "-"); simpl; [reflexivity|].
  now destruct (Ascii.eqb c "+").
Qed.

Lemma run_expmark (s : string) :
  lex_run LExpMark s
  = starts_with_digit (snd (read_sign s)) && tail_ok (skip_digits (snd (read_sign s))).
Proof.
  rewrite read_sign_spec. destruct s as [|c s]; simpl; [reflexivity|].
  destruct (is_sign c) eqn:S; simpl.
  - apply run_expsign.
  - destruct (is_digit c); [apply run_exp | reflexivity].
Qed.

(** Whether the text after the mantissa is an exponent and white space. *)
Lemma read_exponent_rest (p : string) :
  starts_with_digit p = false ->
  tail_ok (snd (read_exponent p))
  = match p with
    | String c p' => if is_exp_mark c then lex_run LExpMark p' else tail_ok p
    | EmptyString => true
    end.
Proof.
  destruct p as [|c p]; [reflexivity|]. intros D. unfold read_exponent.
  destruct (is_exp_mark c) eqn:E; [|reflexivity].
  rewrite run_expmark.
  destruct (read_sign p) as [eneg p1]. rewrite read_digits_spec. simpl.
  rewrite digit_prefix_empty.
  destruct (starts_with_digit p1); simpl; [reflexivity|].
  unfold tail_ok. simpl.
  destruct (exp_mark_class c E) as (_ & -> & _). reflexivity.
Qed.

Lemma run_frac (s : string) :
  lex_run LFrac s = tail_ok (snd (read_exponent (skip_digits s))).
Proof.
  induction s as [|c s IH]; [reflexivity|].
  simpl lex_run. simpl skip_digits.
  destruct (is_digit c) eqn:D; [exact IH|].
  rewrite read_exponent_rest by (simpl; exact D).
  destruct (is_exp_mark c); [reflexivity|].
  unfold tail_ok. simpl. destruct (is_space c); [apply run_trail | reflexivity].
Qed.

Lemma run_int (s : string) :
  lex_run LInt s
  = match skip_digits s with
    | String c p' =>
        if is_dot c then lex_run LFrac p'
        else tail_ok (snd (read_exponent (skip_digits s)))
    | EmptyString => true
    end.
Proof.
  induction s as [|c s IH]; [reflexivity|].
  simpl lex_run. simpl skip_digits.
  destruct (is_digit c) eqn:D; [exact IH|].
  destruct (is_dot c) eqn:P; [reflexivity|].
  rewrite read_exponent_rest by (simpl; exact D).
  destruct (is_exp_mark c); [reflexivity|].
  unfold tail_ok. simpl. destruct (is_space c); [apply run_trail | reflexivity].
Qed.

Lemma run_start_skip (s : string) : lex_run LStart s = lex_run LStart (skip_ws s).
Proof.
  induction s as [|c s IH]; [reflexivity|]. simpl skip_ws.
  destruct (is_space c) eqn:W; [|reflexivity]. simpl. now rewrite W.
Qed.

Lemma skip_ws_stops (s : string) :
  match skip_ws s with
  | String c _ => is_space c = false
  | EmptyString => True
  end.
Proof.
  induction s as [|c s IH]; simpl; [exact I|].
  destruct (is_space c) eqn:W; [exact IH | exact W].
Qed.

Lemma run_start_sign (p : string) :
  match p with
  | String c _ => is_space c = false
  | EmptyString => True
  end ->
  lex_run LStart p = lex_run LSign (snd (read_sign p)).
Proof.
  rewrite read_sign_spec. destruct p as [|c p]; [reflexivity|]. simpl.
  intros ->. now destruct (is_sign c).
Qed.

Lemma run_sign_digit (p : string) :
  starts_with_digit p = true -> lex_run LSign p = lex_run LInt p.
Proof. destruct p as [|c p]; simpl; [discriminate|]. now intros ->. Qed.

(** The scanner consumes a whole text exactly when the automaton accepts it. *)
Lemma to_double_accepts (s : string) :
  match to_double s with Some _ => true | None => false end = numeric_literal s.
Proof.
  unfold numeric_literal. rewrite run_start_skip.
  rewrite (run_start_sign _ (skip_ws_stops s)).
  unfold to_double, xstrtod.
  destruct (read_sign (skip_ws s)) as [negative p0]. simpl snd.
  rewrite read_digits_spec. simpl Nat.add.
  destruct (starts_with_digit p0) eqn:D0.
  - rewrite (run_sign_digit _ D0), run_int.
    assert (N0 : Nat.eqb (String.length (digit_prefix p0)) 0 = false)
      by now rewrite digit_prefix_empty, D0.
    unfold read_fraction.
    destruct (skip_digits p0) as [|c q'] eqn:Q.
    + rewrite N0. simpl. reflexivity.
    + fold (is_dot c). destruct (is_dot c) eqn:P.
      * rewrite read_digits_spec. simpl Nat.add.
        replace (Nat.eqb (String.length (digit_prefix p0)
                          + String.length (digit_prefix q')) 0) with false
          by (destruct (String.length (digit_prefix p0)); [discriminate|reflexivity]).
        rewrite run_frac. unfold tail_ok.
        destruct (read_exponent (skip_digits q')) as [e r]. simpl.
        now destruct (skip_ws r).
      * rewrite N0. unfold tail_ok.
        destruct (read_exponent (String c q')) as [e r]. simpl.
        now destruct (skip_ws r).
  - rewrite (skip_digits_no_digit _ D0).
    assert (N0 : String.length (digit_prefix p0) = 0).
    { pose proof (digit_prefix_empty p0) as H. rewrite D0 in H.
      now apply Nat.eqb_eq in H. }
    rewrite N0. unfold read_fraction.
    destruct p0 as [|c q']; [reflexivity|].
    simpl in D0. simpl lex_run. rewrite D0.
    fold (is_dot c). destruct (is_dot c) eqn:P; [|reflexivity].
    rewrite read_digits_spec. simpl Nat.add. rewrite digit_prefix_empty.
    destruct q' as [|d q'']; [reflexivity|].
    simpl starts_with_digit. simpl lex_run.
    destruct (is_digit d) eqn:D1; simpl negb; cbv iota; [|reflexivity].
    assert (R : lex_run LFrac q'' = lex_run LFrac (String d q''))
      by (simpl; now rewrite D1).
    rewrite R, run_frac. unfold tail_ok.
    destruct (read_exponent (skip_digits (String d q''))) as [e r]. simpl.
    now destruct (skip_ws r).
Qed.

(** The reader coerces to NaN exactly the texts that are neither a decimal
    literal nor an infinity token. *)
Lemma to_numeric_nan_iff (s : string) :
  to_numeric s = NaN <-> readable s = false.
Proof.
  unfold to_numeric, readable. rewrite <- to_double_accepts.
  destruct (String.eqb_spec s "") as [->|_]; [now split|].
  destruct (to_double s); simpl; [now split|].
  destruct (inf_token s); now split.
Qed.

(* ------------------------------------------------------------------ *)
(** ** String operations *)

Lemma append_nil_r (s : string) : s ++ "" = s.
Proof. induction s as [|c s IH]; simpl; [reflexivity|]. now rewrite IH. Qed.

Lemma append_assoc (a b c : string) : (a ++ b) ++ c = a ++ (b ++ c).
Proof. induction a as [|x a IH]; simpl; [reflexivity|]. now rewrite IH. Qed.

Lemma str_replace_app (old : ascii) (new a b : string) :
  str_replace old new (a ++ b) = str_replace old new a ++ str_replace old new b.
Proof.
  induction a as [|c a IH]; simpl; [reflexivity|].
  destruct (Ascii.eqb c old); rewrite IH; simpl; [|reflexivity].
  now rewrite append_assoc.
Qed.

Lemma str_replace_digits (old : ascii) (new s : string) :
  is_digit old = false -> all_digits s = true -> str_replace old new s = s.
Proof.
  intros O. induction s as [|c s IH]; simpl; [reflexivity|].
  intros H. apply andb_prop in H as [D A].
  destruct (Ascii.eqb_spec c old) as [->|_]; [congruence|].
  now rewrite IH.
Qed.

Lemma str_last_snoc (s : string) (c : ascii) : str_last (s ++ String c "") = Some c.
Proof.
  induction s as [|d s IH]; [reflexivity|].
  simpl. destruct (s ++ String c "") eqn:E; [|exact IH].
  destruct s; discriminate.
Qed.

Lemma str_init_snoc (s : string) (c : ascii) : str_init (s ++ String c "") = s.
Proof.
  induction s as [|d s IH]; [reflexivity|].
  simpl. destruct (s ++ String c "") eqn:E.
  - destruct s; discriminate.
  - now rewrite IH.
Qed.

Lemma digits_last (s : string) :
  digits s = true -> exists d, str_last s = Some d /\ is_digit d = true.
Proof.
  unfold digits. destruct s as [|c s]; [discriminate|]. simpl negb. rewrite andb_true_l.
  revert c. induction s as [|e s IH]; intros c H; simpl in H.
  - exists c. split; [reflexivity|]. now rewrite andb_true_r in H.
  - apply andb_prop in H as [_ H]. destruct (IH e H) as (d & L & D).
    exists d. split; [exact L | exact D].
Qed.

Lemma str_last_app (a b : string) :
  b <> "" -> str_last (a ++ b) = str_last b.
Proof.
  intros B. induction a as [|c a IH]; [reflexivity|].
  simpl. destruct (a ++ b) eqn:E; [|exact IH].
  destruct a; simpl in E; [contradiction | discriminate].
Qed.

(* ------------------------------------------------------------------ *)
(** ** Reading [<digits>[.<digits>]] *)

Lemma digit_prefix_all (s t : string) :
  all_digits s = true -> digit_prefix (s ++ t) = s ++ digit_prefix t.
Proof.
  induction s as [|c s IH]; simpl; [reflexivity|].
  intros H. apply andb_prop in H as [-> A]. now rewrite IH.
Qed.

Lemma skip_digits_all (s t : string) :
  all_digits s = true -> skip_digits (s ++ t) = skip_digits t.
Proof.
  induction s as [|c s IH]; simpl; [reflexivity|].
  intros H. apply andb_prop in H as [-> A]. now apply IH.
Qed.

Lemma digit_prefix_digits (s : string) : all_digits s = true -> digit_prefix s = s.
Proof.
  intros A. rewrite <- (append_nil_r s) at 1.
  rewrite (digit_prefix_all _ _ A). apply append_nil_r.
Qed.

Lemma skip_digits_digits (s : string) : all_digits s = true -> skip_digits s = "".
Proof.
  intros A. rewrite <- (append_nil_r s). now rewrite (skip_digits_all _ _ A).
Qed.

Lemma digits_all (s : string) : digits s = true -> all_digits s = true.
Proof. unfold digits. intros H. now apply andb_prop in H. Qed.

Lemma digits_length (s : string) : digits s = true -> String.length s <> 0.
Proof. unfold digits. destruct s; [discriminate | discriminate]. Qed.

Lemma digits_value_from_shift (s : string) : forall acc,
  digits_value_from acc s
  = (acc * 10 ^ N.of_nat (String.length s) + digits_value s)%N.
Proof.
  unfold digits_value.
  induction s as [|c s IH]; intros acc.
  - simpl. lia.
  - cbn [digits_value_from String.length]. rewrite IH, (IH (0 * 10 + _)%N).
    rewrite Nat2N.inj_succ, N.pow_succ_r'. lia.
Qed.

(** The scanner on [[-]<digits>[.<digits>]]. *)
Lemma read_decimal_text (negative : bool) (ip : string) (fp : option string) :
  digits ip = true -> fraction_ok fp = true ->
  let f := match fp with Some f => f | None => "" end in
  to_double ((if negative then "-" else "") ++ decimal_text ip fp)
  = Some (scale10 negative (digits_value_from (digits_value ip) f)
            (0 - Z.of_nat (String.length f))).
Proof.
  intros I F f.
  pose proof (digits_all _ I) as IA. pose proof (digits_length _ I) as IL.
  assert (H0 : exists c ip', ip = String c ip' /\ is_digit c = true).
  { destruct ip as [|c ip']; [discriminate|]. exists c, ip'. split; [reflexivity|].
    simpl in IA. now apply andb_prop in IA. }
  destruct H0 as (c & ip' & Eip & Dc).
  destruct (digit_class c Dc) as (Wc & Sc & Pc & Ec).
  assert (RS : read_sign (skip_ws ((if negative then "-" else "") ++ decimal_text ip fp))
               = (negative, decimal_text ip fp)).
  { destruct negative; [reflexivity|]. simpl append. unfold decimal_text.
    rewrite Eip. simpl. rewrite Wc. rewrite read_sign_spec. now rewrite Sc. }
  unfold to_double, xstrtod. rewrite RS. rewrite read_digits_spec. simpl Nat.add.
  unfold decimal_text. rewrite (digit_prefix_all _ _ IA), (skip_digits_all _ _ IA).
  destruct fp as [f0|]; subst f.
  - simpl in F. pose proof (digits_all _ F) as FA.
    change (skip_digits ("." ++ f0)) with ("." ++ f0).
    change (digit_prefix ("." ++ f0)) with "".
    rewrite append_nil_r. unfold read_fraction. simpl append.
    change (Ascii.eqb "." ".") with true. cbv iota.
    rewrite read_digits_spec. simpl Nat.add.
    rewrite (digit_prefix_digits _ FA), (skip_digits_digits _ FA).
    assert (E : Nat.eqb (String.length ip + String.length f0) 0 = false)
      by (apply Nat.eqb_neq; lia).
    cbn -[scale10 Nat.eqb Nat.add]. rewrite E. reflexivity.
  - assert (E : Nat.eqb (String.length ip) 0 = false) by (now apply Nat.eqb_neq).
    cbn -[scale10 Nat.eqb Nat.add]. rewrite append_nil_r.
    cbn -[scale10 Nat.eqb Nat.add]. rewrite E. reflexivity.
Qed.

Lemma pow10_nonzero (k : nat) : ~ (inject_Z (10 ^ Z.of_nat k) == 0)%Q.
Proof.
  intros H. unfold Qeq in H. simpl in H.
  pose proof (Z.pow_pos_nonneg 10 (Z.of_nat k)). lia.
Qed.

Lemma scale10_value (negative : bool) (a b : N) (k : nat) :
  (scale10 negative (a * 10 ^ N.of_nat k + b) (0 - Z.of_nat k)
   == (if negative then -1 else 1)
      * (inject_Z (Z.of_N a) + inject_Z (Z.of_N b) / inject_Z (10 ^ Z.of_nat k)))%Q.
Proof.
  unfold scale10. rewrite Qred_correct.
  replace (0 - Z.of_nat k)%Z with (- Z.of_nat k)%Z by lia.
  rewrite Qpower_opp, <- Zpower_Qpower by lia.
  pose proof (pow10_nonzero k) as NZ.
  replace (Z.of_N (a * 10 ^ N.of_nat k + b))
    with (Z.of_N a * 10 ^ Z.of_nat k + Z.of_N b)%Z.
  2:{ rewrite N2Z.inj_add, N2Z.inj_mul, N2Z.inj_pow. simpl Z.of_N.
      now rewrite nat_N_Z. }
  destruct negative.
  - rewrite inject_Z_opp, inject_Z_plus, inject_Z_mult. field. exact NZ.
  - rewrite inject_Z_plus, inject_Z_mult. field. exact NZ.
Qed.

Lemma to_numeric_of_double (s : string) (v : Q) :
  to_double s = Some v -> to_numeric s = Fin v.
Proof.
  unfold to_numeric. destruct (String.eqb_spec s "") as [->|_].
  - discriminate.
  - now intros ->.
Qed.

(* ------------------------------------------------------------------ *)
(** ** Binary64 rounding *)

Lemma pow2_pos (e : Z) : (0 < 2 ^ e)%Q.
Proof. apply Qpower_0_lt. reflexivity. Qed.

Lemma pow2_add (a b : Z) : (2 ^ (a + b) == 2 ^ a * 2 ^ b)%Q.
Proof. apply Qpower_plus. discriminate. Qed.

Lemma pow2_inject (n : Z) : (0 <= n)%Z -> (inject_Z (2 ^ n) == 2 ^ n)%Q.
Proof. intros H. now rewrite Zpower_Qpower. Qed.

Lemma pow2_lt (a b : Z) : (a < b)%Z -> (2 ^ a < 2 ^ b)%Q.
Proof. intros H. apply Qpower_lt_compat_l; [exact H | reflexivity]. Qed.

Lemma pow2_le (a b : Z) : (a <= b)%Z -> (2 ^ a <= 2 ^ b)%Q.
Proof. intros H. apply Qpower_le_compat_l; [exact H | discriminate]. Qed.

Lemma log2_bounds (a : Z) :
  (0 < a)%Z ->
  (2 ^ Z.log2 a <= inject_Z a)%Q /\ (inject_Z a < 2 ^ (Z.log2 a + 1))%Q.
Proof.
  intros H. destruct (Z.log2_spec a H) as [L U].
  pose proof (Z.log2_nonneg a) as N. split.
  - rewrite <- pow2_inject by exact N. now rewrite <- Zle_Qle.
  - rewrite <- pow2_inject by lia. now rewrite <- Zlt_Qlt.
Qed.

Lemma Qlog2_spec (q : Q) :
  (0 < q)%Q -> (2 ^ Qlog2 q <= q)%Q /\ (q < 2 ^ (Qlog2 q + 1))%Q.
Proof.
  intros P. unfold Qlog2.
  assert (Pa : (0 < Qnum q)%Z).
  { unfold Qlt in P. simpl in P. lia. }
  destruct (log2_bounds (Qnum q) Pa) as [A1 A2].
  destruct (log2_bounds (Z.pos (Qden q)) ltac:(lia)) as [B1 B2].
  set (la := Z.log2 (Qnum q)) in *. set (lb := Z.log2 (Z.pos (Qden q))) in *.
  assert (E : (q == inject_Z (Qnum q) / inject_Z (Z.pos (Qden q)))%Q).
  { destruct q as [a b]. apply Qmake_Qdiv. }
  assert (Pb : (0 < inject_Z (Z.pos (Qden q)))%Q) by reflexivity.
  assert (U : (q < 2 ^ (la - lb + 1))%Q).
  { rewrite E. apply Qlt_shift_div_r; [exact Pb|].
    eapply Qlt_le_trans; [exact A2|].
    replace (la + 1)%Z with ((la - lb + 1) + lb)%Z by lia. rewrite pow2_add.
    apply Qmult_le_l; [apply pow2_pos | exact B1]. }
  assert (L : (2 ^ (la - lb - 1) < q)%Q).
  { rewrite E. apply Qlt_shift_div_l; [exact Pb|].
    eapply Qlt_le_trans; [|exact A1].
    replace la with ((la - lb - 1) + (lb + 1))%Z at 2 by lia. rewrite pow2_add.
    apply Qmult_lt_l; [apply pow2_pos | exact B2]. }
  destruct (Qle_bool (2 ^ (la - lb)) q) eqn:C.
  - apply Qle_bool_iff in C. split; [exact C | exact U].
  - split; [now apply Qlt_le_weak|].
    replace (la - lb - 1 + 1)%Z with (la - lb)%Z by lia.
    apply Qnot_le_lt. intros H. apply Qle_bool_iff in H. congruence.
Qed.

Lemma Qlog2_unique (q : Q) (l : Z) :
  (2 ^ l <= q)%Q -> (q < 2 ^ (l + 1))%Q -> Qlog2 q = l.
Proof.
  intros L U.
  assert (P : (0 < q)%Q) by (eapply Qlt_le_trans; [apply pow2_pos | exact L]).
  destruct (Qlog2_spec q P) as [L' U'].
  assert (A : (Qlog2 q < l + 1)%Z).
  { apply (Qpower_lt_compat_l_inv 2); [|reflexivity].
    eapply Qle_lt_trans; [exact L' | exact U]. }
  assert (B : (l < Qlog2 q + 1)%Z).
  { apply (Qpower_lt_compat_l_inv 2); [|reflexivity].
    eapply Qle_lt_trans; [exact L | exact U']. }
  lia.
Qed.

Lemma round_half_even_compat (p q : Q) :
  (p == q)%Q -> round_half_even p = round_half_even q.
Proof.
  unfold Qeq, round_half_even. destruct p as [a b], q as [c d].
  cbn [Qnum Qden]. intros E.
  assert (F : (a / Z.pos b = c / Z.pos d)%Z).
  { apply Z.div_unique with (r := (c - Z.pos d * (a / Z.pos b))%Z); [|lia].
    left. pose proof (Z.mul_div_le a (Z.pos b) ltac:(lia)).
    pose proof (Z.mul_succ_div_gt a (Z.pos b) ltac:(lia)). nia. }
  rewrite <- F.
  replace (2 * (c mod Z.pos d) ?= Z.pos d)%Z
    with (2 * (a mod Z.pos b) ?= Z.pos b)%Z; [reflexivity|].
  rewrite (Z.mod_eq a (Z.pos b)), (Z.mod_eq c (Z.pos d)) by lia. rewrite <- F.
  rewrite (Zmult_compare_compat_l (2 * (a - _))%Z (Z.pos b) (Z.pos d)) by lia.
  rewrite (Zmult_compare_compat_l (2 * (c - _))%Z (Z.pos d) (Z.pos b)) by lia.
  f_equal; nia.
Qed.

Lemma round_half_even_integer (q : Q) (m : Z) :
  (q == inject_Z m)%Q -> round_half_even q = m.
Proof.
  intros E. rewrite (round_half_even_compat _ _ E).
  unfold round_half_even, inject_Z. cbn [Qnum Qden].
  rewrite Z.mod_1_r, Z.div_1_r. reflexivity.
Qed.

Lemma round_half_even_bounds (q : Q) (n : Z) :
  ((inject_Z n <= q)%Q -> (n <= round_half_even q)%Z)
  /\ ((q <= inject_Z n)%Q -> (round_half_even q <= n)%Z).
Proof.
  unfold Qle, round_half_even, inject_Z. destruct q as [a b]. cbn [Qnum Qden].
  pose proof (Z.mul_div_le a (Z.pos b) ltac:(lia)) as D1.
  pose proof (Z.mul_succ_div_gt a (Z.pos b) ltac:(lia)) as D2.
  pose proof (Z.mod_eq a (Z.pos b) ltac:(lia)) as M.
  split; intros H.
  - assert (F : (n <= a / Z.pos b)%Z) by (apply Z.div_le_lower_bound; lia).
    destruct (2 * (a mod Z.pos b) ?= Z.pos b)%Z; [|lia|lia].
    destruct (Z.even (a / Z.pos b)); lia.
  - destruct (Z.compare_spec (2 * (a mod Z.pos b)) (Z.pos b)) as [C|C|C].
    + assert (a / Z.pos b < n)%Z by nia.
      destruct (Z.even (a / Z.pos b)); lia.
    + nia.
    + nia.
Qed.

Lemma Qlog2_compat (p q : Q) : (0 < p)%Q -> (p == q)%Q -> Qlog2 p = Qlog2 q.
Proof.
  intros P E. destruct (Qlog2_spec p P) as [L U].
  symmetry. apply Qlog2_unique; now rewrite <- E.
Qed.

Lemma b64_pos_compat (p q : Q) : (0 < p)%Q -> (p == q)%Q -> b64_pos p = b64_pos q.
Proof.
  intros P E. unfold b64_pos. rewrite <- (Qlog2_compat p q P E).
  set (e := Z.max (Qlog2 p - 52) (-1074)).
  assert (R : round_half_even (p / 2 ^ e) = round_half_even (q / 2 ^ e)).
  { apply round_half_even_compat. now rewrite E. }
  now rewrite R.
Qed.

(** A significand of at most 53 bits with an exponent in range is a float. *)
Lemma b64_pos_grid (m e : Z) :
  (0 < m <= 2 ^ 53)%Z -> (-1074 <= e)%Z -> ((m < 2 ^ 52)%Z -> e = (-1074)%Z) ->
  b64_pos (inject_Z m * 2 ^ e)
  = if Qle_bool (2 ^ 1024) (Qred (inject_Z m * 2 ^ e)) then None
    else Some (Qred (inject_Z m * 2 ^ e)).
Proof.
  intros M E S.
  destruct (log2_bounds m ltac:(lia)) as [L U].
  assert (LM : (Z.log2 m <= 53)%Z).
  { pose proof (Z.log2_le_mono m (2 ^ 53) ltac:(lia)) as H.
    now rewrite Z.log2_pow2 in H by lia. }
  assert (LG : Qlog2 (inject_Z m * 2 ^ e) = (Z.log2 m + e)%Z).
  { apply Qlog2_unique.
    - rewrite pow2_add. apply Qmult_le_compat_r; [exact L|].
      apply Qlt_le_weak, pow2_pos.
    - replace (Z.log2 m + e + 1)%Z with ((Z.log2 m + 1) + e)%Z by lia.
      rewrite pow2_add. apply Qmult_lt_compat_r; [apply pow2_pos | exact U]. }
  unfold b64_pos. rewrite LG.
  destruct (Z.eq_dec m (2 ^ 53)) as [-> | NE].
  - change (Z.log2 (2 ^ 53)) with 53%Z.
    replace (Z.max (53 + e - 52) (-1074)) with (e + 1)%Z by lia.
    assert (X : (inject_Z (2 ^ 53) * 2 ^ e / 2 ^ (e + 1) == inject_Z (2 ^ 52))%Q).
    { rewrite pow2_add. pose proof (pow2_pos e) as P.
      change (inject_Z (2 ^ 53)) with (inject_Z (2 ^ 52) * 2)%Q.
      change (2 ^ 1)%Q with 2%Q. field. intros Z. rewrite Z in P.
      now apply Qlt_irrefl in P. }
    rewrite (round_half_even_integer _ _ X).
    assert (Y : Qred (inject_Z (2 ^ 52) * 2 ^ (e + 1))
                = Qred (inject_Z (2 ^ 53) * 2 ^ e)).
    { apply Qred_complete. rewrite pow2_add.
      change (inject_Z (2 ^ 53)) with (inject_Z (2 ^ 52) * 2)%Q.
      change (2 ^ 1)%Q with 2%Q. ring. }
    now rewrite Y.
  - assert (LM' : (Z.log2 m <= 52)%Z).
    { assert (Z.log2 m < 53)%Z; [|lia]. apply Z.log2_lt_pow2; lia. }
    assert (EE : Z.max (Z.log2 m + e - 52) (-1074) = e).
    { destruct (Z.eq_dec (Z.log2 m) 52) as [T|T]; [lia|].
      assert (m < 2 ^ 52)%Z.
      { apply Z.log2_lt_pow2; lia. }
      rewrite (S H). lia. }
    rewrite EE.
    assert (X : (inject_Z m * 2 ^ e / 2 ^ e == inject_Z m)%Q).
    { pose proof (pow2_pos e) as P. field. intros Z. rewrite Z in P.
      now apply Qlt_irrefl in P. }
    now rewrite (round_half_even_integer _ _ X).
Qed.

(** What the rounding of a positive number is made of. *)
Lemma b64_pos_form (q : Q) :
  (0 < q)%Q ->
  exists m e,
    (0 <= m <= 2 ^ 53)%Z /\ (-1074 <= e)%Z /\ ((m < 2 ^ 52)%Z -> e = (-1074)%Z)
    /\ b64_pos q = if Qle_bool (2 ^ 1024) (Qred (inject_Z m * 2 ^ e)) then None
                   else Some (Qred (inject_Z m * 2 ^ e)).
Proof.
  intros P. destruct (Qlog2_spec q P) as [L U].
  set (e := Z.max (Qlog2 q - 52) (-1074)).
  exists (round_half_even (q / 2 ^ e)), e.
  pose proof (pow2_pos e) as Pe.
  assert (X0 : (inject_Z 0 <= q / 2 ^ e)%Q).
  { apply Qle_shift_div_l; [exact Pe|]. rewrite Qmult_0_l. now apply Qlt_le_weak. }
  apply (proj1 (round_half_even_bounds _ _)) in X0.
  split; [|split; [lia | split; [|reflexivity]]].
  - split; [exact X0|].
    apply (proj2 (round_half_even_bounds _ _)).
    rewrite pow2_inject by lia.
    apply Qle_shift_div_r; [exact Pe|]. rewrite <- pow2_add.
    apply Qlt_le_weak. eapply Qlt_le_trans; [exact U|]. apply pow2_le. lia.
  - intros Small. destruct (Z.max_spec (Qlog2 q - 52) (-1074)) as [[_ M] | [G M]];
      [exact M|].
    exfalso. fold e in M.
    assert (B : (2 ^ 52 <= round_half_even (q / 2 ^ e))%Z); [|lia].
    apply (proj1 (round_half_even_bounds _ _)).
    rewrite pow2_inject by lia.
    apply Qle_shift_div_l; [exact Pe|]. rewrite <- pow2_add.
    replace (52 + e)%Z with (Qlog2 q) by lia. exact L.
Qed.

Lemma Qred_zero (q : Q) : (q == 0)%Q -> Qred q = 0%Q.
Proof. intros E. now rewrite (Qred_complete _ _ E). Qed.

Lemma b64_pos_idem (q r : Q) :
  (0 < q)%Q -> b64_pos q = Some r ->
  Qred r = r /\ (0 <= r)%Q /\ ((0 < r)%Q -> b64_pos r = Some r).
Proof.
  intros P H. destruct (b64_pos_form q P) as (m & e & M & E & S & F).
  rewrite H in F.
  destruct (Qle_bool (2 ^ 1024) (Qred (inject_Z m * 2 ^ e))) eqn:O; [discriminate F|].
  assert (Er : r = Qred (inject_Z m * 2 ^ e)) by congruence.
  clear F. subst r.
  assert (V : (Qred (inject_Z m * 2 ^ e) == inject_Z m * 2 ^ e)%Q)
    by apply Qred_correct.
  split; [apply Qred_complete, Qred_correct|]. split.
  - rewrite V. apply Qmult_le_0_compat; [|apply Qlt_le_weak, pow2_pos].
    change 0%Q with (inject_Z 0). rewrite <- Zle_Qle. lia.
  - intros R. assert (Mp : (0 < m)%Z).
    { destruct (Z.eq_dec m 0) as [-> | N]; [|lia].
      rewrite V in R. rewrite Qmult_0_l in R. now apply Qlt_irrefl in R. }
    rewrite (b64_pos_compat _ _ R V).
    rewrite b64_pos_grid by (auto; lia). now rewrite O.
Qed.

Lemma b64_not_nan (q : Q) : isnan (b64 q) = false.
Proof.
  unfold b64. destruct (Qnum q ?= 0)%Z; [reflexivity | |].
  - now destruct (b64_pos (- q)).
  - now destruct (b64_pos q).
Qed.

Lemma b64_compat (p q : Q) : (p == q)%Q -> b64 p = b64 q.
Proof.
  intros E. unfold b64.
  assert (S : (Qnum p ?= 0)%Z = (Qnum q ?= 0)%Z).
  { unfold Qeq in E. destruct p as [a b], q as [c d]. cbn [Qnum Qden] in *.
    destruct (Z.compare_spec a 0), (Z.compare_spec c 0); try reflexivity; nia. }
  rewrite <- S. destruct (Z.compare_spec (Qnum p) 0) as [Z|N|P]; [reflexivity | |].
  - rewrite (b64_pos_compat (- p) (- q)); [reflexivity | | now rewrite E].
    unfold Qlt. simpl. lia.
  - rewrite (b64_pos_compat p q); [reflexivity | | exact E].
    unfold Qlt. simpl. lia.
Qed.

Lemma Qnum_pos (q : Q) : (0 < Qnum q)%Z <-> (0 < q)%Q.
Proof. unfold Qlt. simpl. lia. Qed.

Lemma b64_idem (q r : Q) : b64 q = Fin r -> b64 r = Fin r.
Proof.
  unfold b64 at 1. destruct (Z.compare_spec (Qnum q) 0) as [Z|N|P].
  - intros [= <-]. reflexivity.
  - assert (Pq : (0 < - q)%Q) by (apply Qnum_pos; simpl; lia).
    destruct (b64_pos (- q)) as [s|] eqn:B; [|discriminate]. intros [= <-].
    destruct (b64_pos_idem _ _ Pq B) as (R & S0 & I).
    destruct (Z.compare_spec (Qnum s) 0) as [Zs|Ns|Ps].
    + unfold b64. simpl. rewrite Zs. simpl.
      destruct s as [a b]. simpl in Zs. subst a.
      rewrite <- R. reflexivity.
    + exfalso. unfold Qle in S0. simpl in S0. lia.
    + unfold b64. replace (Qnum (- s) ?= 0)%Z with Lt
        by (symmetry; apply Z.compare_lt_iff; simpl; lia).
      rewrite (b64_pos_compat (- - s) s); [|apply Qnum_pos; simpl; lia | apply Qopp_involutive].
      now rewrite (I (proj1 (Qnum_pos s) Ps)).
  - assert (Pq : (0 < q)%Q) by now apply Qnum_pos.
    destruct (b64_pos q) as [s|] eqn:B; [|discriminate]. intros [= <-].
    destruct (b64_pos_idem _ _ Pq B) as (R & S0 & I).
    destruct (Z.compare_spec (Qnum s) 0) as [Zs|Ns|Ps].
    + unfold b64. rewrite Zs. simpl.
      destruct s as [a b]. simpl in Zs. subst a.
      rewrite <- R. reflexivity.
    + exfalso. unfold Qle in S0. simpl in S0. lia.
    + unfold b64. replace (Qnum s ?= 0)%Z with Gt
        by (symmetry; apply Z.compare_gt_iff; lia).
      now rewrite (I (proj1 (Qnum_pos s) Ps)).
Qed.

Lemma to_float_idem (x : num) : to_float (to_float x) = to_float x.
Proof.
  destruct x as [| |q]; try reflexivity. simpl.
  destruct (b64 q) as [| |r] eqn:B; try reflexivity. simpl. now apply (b64_idem q).
Qed.

(** Multiplying by one rounds and does nothing else. *)
Lemma num_mul_one (x : num) : num_mul x (Fin 1) = to_float x.
Proof.
  unfold num_mul. change (to_float (Fin 1)) with (Fin 1).
  pose proof (to_float_idem x) as I.
  destruct (to_float x) as [|s|q]; [reflexivity | now destruct s |].
  cbn [product to_float] in *. rewrite <- I.
  apply b64_compat. rewrite Qred_correct. ring.
Qed.

(** A product is missing only when a factor is. *)
Lemma num_mul_nan (x : num) (k : Q) :
  Qis_zero k = false -> b64 k = Fin k ->
  (num_mul x (Fin k) = NaN <-> x = NaN).
Proof.
  intros Z K. unfold num_mul. cbn [to_float]. rewrite K.
  destruct x as [|s|q]; cbn [to_float product].
  - tauto.
  - rewrite Z. cbn [to_float]. split; discriminate.
  - pose proof (b64_not_nan q) as N.
    destruct (b64 q) as [|s|r]; [discriminate N | |]; cbn [product to_float].
    + rewrite Z. split; discriminate.
    + pose proof (b64_not_nan (Qred (r * k))) as N'.
      destruct (b64 (Qred (r * k))); [discriminate N' | |]; split; discriminate.
Qed.

Lemma to_numeric_decimal_text (negative : bool) (ip : string) (fp : option string) :
  digits ip = true -> fraction_ok fp = true ->
  exists v,
    to_numeric ((if negative then "-" else "") ++ decimal_text ip fp) = Fin v
    /\ (v == (if negative then -1 else 1) * decimal_value ip fp)%Q.
Proof.
  intros I F. eexists. split.
  - apply to_numeric_of_double. now apply read_decimal_text.
  - rewrite digits_value_from_shift, scale10_value. unfold decimal_value.
    destruct fp as [f|]; [reflexivity|].
    change (digits_value "") with 0%N. simpl. destruct negative; field.
Qed.

Lemma str_replace_decimal_text (old : ascii) (new ip : string) (fp : option string) :
  is_digit old = false -> is_dot old = false ->
  digits ip = true -> fraction_ok fp = true ->
  str_replace old new (decimal_text ip fp) = decimal_text ip fp.
Proof.
  intros D P I F. unfold decimal_text. rewrite str_replace_app.
  rewrite (str_replace_digits _ _ _ D (digits_all _ I)). f_equal.
  destruct fp as [f|]; [|reflexivity].
  change ("." ++ f) with (String "." f). cbn [str_replace].
  destruct (Ascii.eqb_spec "." old) as [<-|_]; [discriminate P|].
  now rewrite (str_replace_digits _ _ _ D (digits_all _ F)).
Qed.

Lemma decimal_text_last (ip : string) (fp : option string) :
  digits ip = true -> fraction_ok fp = true ->
  exists d, str_last (decimal_text ip fp) = Some d /\ is_digit d = true.
Proof.
  intros I F. unfold decimal_text. destruct fp as [f|].
  - destruct (digits_last _ F) as (d & L & D). exists d. split; [|exact D].
    rewrite str_last_app by discriminate.
    change ("." ++ f) with (String "." "" ++ f).
    rewrite str_last_app; [exact L|]. destruct f; [discriminate F | discriminate].
  - rewrite append_nil_r. now apply digits_last.
Qed.

Lemma digit_not_suffix (d : ascii) :
  is_digit d = true -> is_suffix (Some d) = false /\ suffix_factor (Some d) = NaN.
Proof. each_ascii d; intros _; split; reflexivity. Qed.

Lemma suffix_exponent_factor (c : ascii) (e : Z) :
  suffix_exponent (Some c) = Some e ->
  is_suffix (Some c) = true /\ suffix_factor (Some c) = Fin (inject_Z (10 ^ e))
  /\ is_digit c = false.
Proof.
  unfold suffix_exponent, is_suffix, suffix_factor. simpl existsb.
  destruct (Ascii.eqb_spec c "K") as [->|_]; [intros [= <-]; now repeat split|].
  destruct (Ascii.eqb_spec c "M") as [->|_]; [intros [= <-]; now repeat split|].
  destruct (Ascii.eqb_spec c "B") as [->|_]; [intros [= <-]; now repeat split|].
  destruct (Ascii.eqb_spec c "T") as [->|_]; [intros [= <-]; now repeat split|].
  discriminate.
Qed.

Lemma lex_run_digits (st : lex_state) (s t : string) :
  st = LInt \/ st = LFrac -> all_digits s = true ->
  lex_run st (s ++ t) = lex_run st t.
Proof.
  intros St. induction s as [|c s IH]; simpl; [reflexivity|].
  intros H. apply andb_prop in H as [D A].
  destruct St as [-> | ->]; simpl; rewrite D; now apply IH.
Qed.

Lemma numeric_literal_decimal_then (ip : string) (fp : option string) (t : string) :
  digits ip = true -> fraction_ok fp = true ->
  numeric_literal (decimal_text ip fp ++ t)
  = lex_run (match fp with Some _ => LFrac | None => LInt end) t.
Proof.
  intros I F. unfold numeric_literal, decimal_text.
  destruct ip as [|c ip]; [discriminate|].
  pose proof (digits_all _ I) as IA. simpl in IA. apply andb_prop in IA as [Dc IA].
  destruct (digit_class c Dc) as (Wc & Sc & _).
  rewrite !append_assoc. simpl. rewrite Wc, Sc, Dc.
  rewrite lex_run_digits by (auto using digits_all).
  destruct fp as [f|]; [|reflexivity].
  simpl. apply lex_run_digits; [now right | now apply digits_all].
Qed.

Lemma inf_token_digit (c : ascii) (s : string) :
  is_digit c = true -> inf_token (String c s) = None.
Proof. each_ascii c; intros _; reflexivity. Qed.

Lemma num_mul_compat (p q : Q) (y : num) :
  (p == q)%Q -> num_mul (Fin p) y = num_mul (Fin q) y.
Proof. intros E. unfold num_mul. cbn [to_float]. now rewrite (b64_compat p q E). Qed.

(** C4, as the code has it.  For every text [$<digits>[.<digits>]<suffix>]
    with a suffix among K, M, B, T, or without suffix, the Scaled Currency
    Parser returns the binary64 product of the number that the digits denote
    and 10^3, 10^6, 10^9, 10^12, or 1 when the suffix is absent; the
    lower-case letters are no suffix, and such a text is coerced to NaN.  For
    the examples of the specification the float product is the exact one;
    for [$64.9B] it is 64900000000 + 2^-17, which Python prints as
    64900000000.00001. *)
Theorem scaled_currency_value :
  (forall (ip : string) (fp : option string) (suffix : option ascii) (e : Z),
      digits ip = true -> fraction_ok fp = true ->
      suffix_exponent suffix = Some e ->
      dollars_str_to_num (Some (currency_text ip fp suffix))
      = num_mul (Fin (decimal_value ip fp)) (Fin (inject_Z (10 ^ e))))
  /\ (forall (ip : string) (fp : option string) (c : ascii),
         digits ip = true -> fraction_ok fp = true -> lowercase_suffix c = true ->
         dollars_str_to_num (Some (currency_text ip fp (Some c))) = NaN)
  /\ dollars_str_to_num (Some "$171.53B") = Fin (inject_Z 171530000000)
  /\ dollars_str_to_num (Some "$1.64K") = Fin (inject_Z 1640)
  /\ dollars_str_to_num (Some "$1.64T") = Fin (inject_Z 1640000000000)
  /\ dollars_str_to_num (Some "$1.64") = to_float (Fin (41 # 25))
  /\ dollars_str_to_num (Some "$64.9B") = Fin (8506572800000001 # 131072)
  /\ (8506572800000001 # 131072 == inject_Z 64900000000 + (1 # 2 ^ 17))%Q.
Proof.
  split; [|split; [|repeat split; vm_compute; reflexivity]].
  - intros ip fp suffix e I F S.
    unfold dollars_str_to_num, currency_text. cbn [astype_str].
    change ("$" ++ decimal_text ip fp ++ suffix_text suffix)
      with (String "$" (decimal_text ip fp ++ suffix_text suffix)).
    cbn [str_replace]. change (Ascii.eqb "$" "$") with true. cbv iota.
    change ("" ++ ?x) with x. rewrite str_replace_app.
    rewrite str_replace_decimal_text by (auto; reflexivity).
    destruct (to_numeric_decimal_text false ip fp I F) as (v & TN & V).
    change ("" ++ decimal_text ip fp) with (decimal_text ip fp) in TN.
    assert (V' : (v == decimal_value ip fp)%Q) by (rewrite V; ring).
    destruct suffix as [c|].
    + destruct (suffix_exponent_factor c e S) as (IS & SF & Dc).
      assert (R : str_replace "$" "" (suffix_text (Some c)) = String c "").
      { simpl. destruct (Ascii.eqb_spec c "$") as [->|_]; [discriminate S|reflexivity]. }
      rewrite R, str_last_snoc, IS, SF, str_init_snoc.
      rewrite str_replace_decimal_text by (auto; reflexivity).
      rewrite TN. cbn [fillna isnan]. now apply num_mul_compat.
    + injection S as <-. simpl suffix_text. simpl str_replace. rewrite append_nil_r.
      destruct (decimal_text_last ip fp I F) as (d & L & D).
      destruct (digit_not_suffix d D) as (IS & SF).
      rewrite L, IS, SF. rewrite str_replace_decimal_text by (auto; reflexivity).
      rewrite TN. cbn [fillna isnan]. now apply num_mul_compat.
  - intros ip fp c I F L.
    assert (Hc : is_suffix (Some c) = false /\ suffix_factor (Some c) = NaN
                 /\ Ascii.eqb c "$" = false /\ Ascii.eqb c "," = false
                 /\ lex_step LInt c = None /\ lex_step LFrac c = None).
    { unfold lowercase_suffix in L. simpl in L.
      destruct (Ascii.eqb_spec c "t") as [->|_]; [now repeat split|].
      destruct (Ascii.eqb_spec c "b") as [->|_]; [now repeat split|].
      destruct (Ascii.eqb_spec c "m") as [->|_]; [now repeat split|].
      destruct (Ascii.eqb_spec c "k") as [->|_]; [now repeat split|].
      discriminate. }
    destruct Hc as (IS & SF & C1 & C2 & SI & SR).
    unfold dollars_str_to_num, currency_text. cbn [astype_str].
    change ("$" ++ decimal_text ip fp ++ suffix_text (Some c))
      with (String "$" (decimal_text ip fp ++ String c "")).
    cbn [str_replace]. change (Ascii.eqb "$" "$") with true. cbv iota.
    change ("" ++ ?x) with x. rewrite str_replace_app.
    rewrite str_replace_decimal_text by (auto; reflexivity).
    cbn [str_replace]. rewrite C1. rewrite str_last_snoc, IS, SF.
    rewrite str_replace_app, str_replace_decimal_text by (auto; reflexivity).
    cbn [str_replace]. rewrite C2.
    assert (N : to_numeric (decimal_text ip fp ++ String c "") = NaN).
    { apply to_numeric_nan_iff. unfold readable.
      rewrite numeric_literal_decimal_then by assumption.
      assert (T : inf_token (decimal_text ip fp ++ String c "") = None).
      { unfold decimal_text. destruct ip as [|d ip]; [discriminate|].
        simpl append. apply inf_token_digit.
        pose proof (digits_all _ I) as A. simpl in A. now apply andb_prop in A. }
      rewrite T. destruct fp; cbn [lex_run]; [rewrite SR | rewrite SI]; reflexivity. }
    rewrite N. reflexivity.
Qed.

(** The examples of C4 as instances of the general statement. *)
Lemma scaled_currency_value_witness :
  dollars_str_to_num (Some "$171.53B") = Fin (inject_Z 171530000000)
  /\ dollars_str_to_num (Some "$64.9B") = Fin (8506572800000001 # 131072)
  /\ dollars_str_to_num (Some "$1.64k") = NaN.
Proof.
  split; [|split].
  - pose proof (proj1 scaled_currency_value "171" (Some "53") (Some "B"%char) 9%Z
                  eq_refl eq_refl eq_refl) as H.
    change (currency_text "171" (Some "53") (Some "B"%char)) with "$171.53B" in H.
    rewrite H. vm_compute. reflexivity.
  - pose proof (proj1 scaled_currency_value "64" (Some "9") (Some "B"%char) 9%Z
                  eq_refl eq_refl eq_refl) as H.
    change (currency_text "64" (Some "9") (Some "B"%char)) with "$64.9B" in H.
    rewrite H. vm_compute. reflexivity.
  - exact (proj1 (proj2 scaled_currency_value) "1" (Some "64") "k"%char
             eq_refl eq_refl eq_refl).
Defined.

(** C4 as stated fails: the product is the binary64 one, which is not always
    the number of the digits times the power of ten.  [$64.9B] is such a
    text. *)
Lemma scaled_currency_product_is_rounded :
  ~ (forall (ip : string) (fp : option string) (suffix : option ascii) (e : Z),
        digits ip = true -> fraction_ok fp = true ->
        suffix_exponent suffix = Some e ->
        num_eq (dollars_str_to_num (Some (currency_text ip fp suffix)))
               (Fin (decimal_value ip fp * inject_Z (10 ^ e)))).
Proof.
  intros H.
  specialize (H "64" (Some "9") (Some "B"%char) 9%Z eq_refl eq_refl eq_refl).
  vm_compute in H. discriminate H.
Qed.

(* ------------------------------------------------------------------ *)
(** ** The Percent Parser *)

Lemma percent_remainder_text (plus negative : bool) (ip : string)
    (fp : option string) :
  digits ip = true -> fraction_ok fp = true ->
  percent_remainder (Some (percent_text plus negative ip fp))
  = (if negative then "-" else "") ++ decimal_text ip fp.
Proof.
  intros I F. unfold percent_remainder, percent_text. cbn [astype_str].
  rewrite !str_replace_app.
  rewrite !str_replace_decimal_text by (auto; reflexivity).
  change (str_replace "+" "" (str_replace "%" "" "%")) with "".
  rewrite append_nil_r. now destruct plus, negative.
Qed.

(** C5.  For every text made of an optional [+], a number
    [[-]<digits>[.<digits>]] and a trailing [%], the Percent Parser returns
    the number with its sign: the [+] and the [%] are dropped, a [-]
    negates.  The examples of the specification follow. *)
Theorem percent_value :
  (forall (plus negative : bool) (ip : string) (fp : option string),
      digits ip = true -> fraction_ok fp = true ->
      num_eq (percent_str_to_num (Some (percent_text plus negative ip fp)))
             (Fin (signed negative (decimal_value ip fp))))
  /\ percent_str_to_num (Some "17%") = Fin (inject_Z 17)
  /\ percent_str_to_num (Some "-1.66%") = Fin (- (83 # 50))
  /\ percent_str_to_num (Some "+2.5%") = Fin (5 # 2).
Proof.
  split; [|repeat split; vm_compute; reflexivity].
  intros plus negative ip fp I F.
  change (percent_str_to_num (Some (percent_text plus negative ip fp)))
    with (to_numeric (percent_remainder (Some (percent_text plus negative ip fp)))).
  rewrite percent_remainder_text by assumption.
  destruct (to_numeric_decimal_text negative ip fp I F) as (v & TN & V).
  rewrite TN. cbn [num_eq]. rewrite V. unfold signed. destruct negative; ring.
Qed.

(** The examples of C5 as instances of the general statement. *)
Lemma percent_value_witness :
  num_eq (percent_str_to_num (Some "-1.66%")) (Fin (- (166 # 100)))
  /\ num_eq (percent_str_to_num (Some "+2.5%")) (Fin (25 # 10))
  /\ num_eq (percent_str_to_num (Some "17%")) (Fin (inject_Z 17)).
Proof.
  split; [|split].
  - pose proof (proj1 percent_value false true "1" (Some "66") eq_refl eq_refl) as H.
    vm_compute in H |- *. exact H.
  - pose proof (proj1 percent_value true false "2" (Some "5") eq_refl eq_refl) as H.
    vm_compute in H |- *. exact H.
  - pose proof (proj1 percent_value false false "17" None eq_refl eq_refl) as H.
    vm_compute in H |- *. exact H.
Defined.

(** C10.  The Percent Parser deletes every [%] and every [+], wherever they
    stand: a text with one more of them anywhere is read like the text
    without it.  So texts outside the percent pattern, such as [1+2%] and
    [%5%], are read as numbers. *)
Theorem percent_deletes_everywhere :
  (forall a b : string,
      percent_str_to_num (Some (a ++ "%" ++ b)) = percent_str_to_num (Some (a ++ b))
      /\ percent_str_to_num (Some (a ++ "+" ++ b)) = percent_str_to_num (Some (a ++ b)))
  /\ (percent_pattern "1+2%" = false
      /\ percent_str_to_num (Some "1+2%") = Fin (inject_Z 12))
  /\ (percent_pattern "%5%" = false
      /\ percent_str_to_num (Some "%5%") = Fin (inject_Z 5)).
Proof.
  split; [|repeat split; vm_compute; reflexivity].
  intros a b. unfold percent_str_to_num. cbn [astype_str].
  rewrite !str_replace_app. split; reflexivity.
Qed.

(* ------------------------------------------------------------------ *)
(** ** Totality of the parsers and coercion to the missing value *)

Lemma dollars_nan_iff (c : option string) :
  dollars_str_to_num c = NaN <-> readable (dollars_remainder c) = false.
Proof.
  rewrite <- to_numeric_nan_iff. unfold dollars_str_to_num, dollars_remainder.
  set (num := str_replace "$" "" (astype_str c)).
  set (x := to_numeric _).
  assert (Fk : exists k, fillna (Fin 1) (suffix_factor (str_last num)) = Fin k
                         /\ Qis_zero k = false /\ b64 k = Fin k).
  { unfold suffix_factor. destruct (str_last num) as [d|]; [|now exists 1%Q].
    destruct (Ascii.eqb d "T"); [eexists; repeat split; vm_compute; reflexivity|].
    destruct (Ascii.eqb d "B"); [eexists; repeat split; vm_compute; reflexivity|].
    destruct (Ascii.eqb d "M"); [eexists; repeat split; vm_compute; reflexivity|].
    destruct (Ascii.eqb d "K"); [eexists; repeat split; vm_compute; reflexivity|].
    now exists 1%Q. }
  destruct Fk as (k & -> & Z & K). now apply num_mul_nan.
Qed.

(** C2, as the code has it.  The Plain Number, Scaled Currency and Percent
    parsers give one value for every row of the input column and raise
    nothing; the value is the missing one exactly when the text that is left
    after the parser's deletions (every [,]; every [$] and [,] and one
    trailing K, M, B or T; every [%] and [+]) is neither a decimal literal
    nor an infinity token, and a missing value is not zero.  The texts [abc],
    the empty text and [$--B] are coerced to missing by each of them. *)
Theorem parsers_total_and_coerce :
  (forall (sr : list (option string)) (i : nat) (c : option string),
      nth_error sr i = Some c ->
      (nth_error (transform_string_to_num sr) i = Some (string_to_num c)
       /\ (string_to_num c = NaN <-> readable (plain_remainder c) = false))
      /\ (nth_error (transform_dollars_str_to_num sr) i = Some (dollars_str_to_num c)
          /\ (dollars_str_to_num c = NaN <-> readable (dollars_remainder c) = false))
      /\ (nth_error (transform_percent_str_to_num sr) i = Some (percent_str_to_num c)
          /\ (percent_str_to_num c = NaN <-> readable (percent_remainder c) = false)))
  /\ ~ num_eq NaN (Fin 0)
  /\ transform_string_to_num [Some "abc"; Some ""; Some "$--B"; None] = [NaN; NaN; NaN; NaN]
  /\ transform_dollars_str_to_num [Some "abc"; Some ""; Some "$--B"; None]
     = [NaN; NaN; NaN; NaN]
  /\ transform_percent_str_to_num [Some "abc"; Some ""; Some "$--B"; None]
     = [NaN; NaN; NaN; NaN].
Proof.
  split; [|split; [intros []|repeat split; vm_compute; reflexivity]].
  intros sr i c H.
  unfold transform_string_to_num, transform_dollars_str_to_num,
    transform_percent_str_to_num.
  rewrite !nth_error_map, H. cbn [option_map].
  repeat split; try apply to_numeric_nan_iff; try apply dollars_nan_iff.
Qed.

(** A row that is not readable and a row that is, in one column. *)
Lemma parsers_total_and_coerce_witness :
  nth_error (transform_percent_str_to_num [Some "17%"; Some "$--B"]) 1 = Some NaN
  /\ nth_error (transform_dollars_str_to_num [Some "17%"; Some "$--B"]) 1 = Some NaN
  /\ nth_error (transform_string_to_num [Some "17%"; Some "$--B"]) 1 = Some NaN.
Proof.
  destruct (proj1 parsers_total_and_coerce [Some "17%"; Some "$--B"] 1
              (Some "$--B") eq_refl) as ((P1 & P2) & (D1 & D2) & (Q1 & Q2)).
  rewrite P1, D1, Q1.
  rewrite (proj2 P2 eq_refl), (proj2 D2 eq_refl), (proj2 Q2 eq_refl).
  repeat split.
Defined.

(** C2 as stated fails: a text outside the percent pattern is read as a
    number. *)
Lemma outside_pattern_not_missing :
  ~ (forall s : string,
        percent_pattern s = false -> percent_str_to_num (Some s) = NaN).
Proof.
  intros H. specialize (H "1+2%" eq_refl). discriminate H.
Qed.

(** The Timestamp Parser is the one parser that does not coerce: a text
    that the date reader rejects makes the whole call raise. *)
Lemma read_dates_raises (to_datetime : list string -> string -> option cell)
    (texts sr : list string) (s : string) :
  In s sr -> to_datetime texts s = None ->
  exists text, read_dates to_datetime texts sr
               = Raise (ValueError_unknown_datetime text).
Proof.
  intros I U. induction sr as [|d sr IH]; [contradiction|]. simpl.
  destruct (to_datetime texts d) as [v|] eqn:E; [|now eexists].
  destruct I as [-> | I]; [congruence|].
  destruct (IH I) as (text & ->). now exists text.
Qed.

Lemma transform_string_to_datetime_raises
    (to_datetime : list string -> string -> option cell)
    (sr : list (option string)) (c : option string) :
  In c sr -> to_datetime (map astype_str sr) (astype_str c) = None ->
  exists text, transform_string_to_datetime to_datetime sr
               = Raise (ValueError_unknown_datetime text).
Proof.
  intros I U. unfold transform_string_to_datetime.
  apply (read_dates_raises _ _ _ (astype_str c)); [now apply in_map | exact U].
Qed.

(* ------------------------------------------------------------------ *)
(** ** Formatting back *)

(** C9, as the code has it.  The Plain Number Parser reads [1,234.56] as
    1234.56; [fmt_num] with two decimals writes it as [1_234.56$]: the
    separator is an underscore and a dollar sign is appended.  With the
    dollar sign dropped and the underscores turned into commas the text is
    the original one. *)
Theorem plain_number_format_back (py_str : cell -> string) :
  string_to_num (Some "1,234.56") = Fin (30864 # 25)
  /\ fmt_num py_str (string_to_num (Some "1,234.56")) (PInt 2) = "1_234.56$"
  /\ str_replace "_" ","
       (str_init (fmt_num py_str (string_to_num (Some "1,234.56")) (PInt 2)))
     = "1,234.56".
Proof. repeat split; vm_compute; reflexivity. Qed.

(** C9 as stated fails: the formatted text is not the original text. *)
Lemma format_back_differs :
  ~ (forall py_str : cell -> string,
        fmt_num py_str (string_to_num (Some "1,234.56")) (PInt 2) = "1,234.56").
Proof.
  intros H. specialize (H (fun _ => "")). vm_compute in H. discriminate H.
Qed.

(* ------------------------------------------------------------------ *)
(** ** The Row Filter *)

Lemma filter_filter {A : Type} (f g : A -> bool) (l : list A) :
  filter f (filter g l) = filter (fun x => g x && f x) l.
Proof.
  induction l as [|x l IH]; simpl; [reflexivity|].
  destruct (g x); simpl; [|exact IH]. destruct (f x); now rewrite IH.
Qed.

Lemma filter_all {A : Type} (f : A -> bool) (l : list A) :
  (forall x, f x = true) -> filter f l = l.
Proof.
  intros H. induction l as [|x l IH]; simpl; [reflexivity|]. now rewrite H, IH.
Qed.

Lemma filter_idem {A : Type} (f : A -> bool) (l : list A) :
  filter f (filter f l) = filter f l.
Proof.
  rewrite filter_filter. apply filter_ext. intros x. now destruct (f x).
Qed.

(** The filter is one pass with the conjunctive predicate, and fails with a
    [KeyError] as soon as a listed column is absent. *)
Lemma drop_na_line_ok (cols : list string) : forall df df',
  drop_na_line df cols = Ok df' ->
  columns df' = columns df
  /\ rows df' = filter (complete_in cols) (rows df)
  /\ forallb (has_column df) cols = true.
Proof.
  induction cols as [|col cols IH]; intros df df' H; simpl in H.
  - injection H as <-. repeat split. simpl. symmetry. now apply filter_all.
  - unfold dropna in H. destruct (has_column df col) eqn:HC; [|discriminate H].
    simpl in H. apply IH in H as (C & R & F). simpl in *.
    rewrite HC. repeat split; [exact C | | exact F].
    rewrite R. apply filter_filter.
Qed.

Lemma drop_na_line_complete (cols : list string) : forall df,
  forallb (has_column df) cols = true ->
  drop_na_line df cols = Ok (with_rows df (filter (complete_in cols) (rows df))).
Proof.
  induction cols as [|col cols IH]; intros df H; simpl in *.
  - destruct df as [cs rs]. unfold with_rows. simpl. f_equal. f_equal.
    symmetry. now apply filter_all.
  - apply andb_prop in H as [HC F]. unfold dropna. rewrite HC. simpl.
    rewrite IH by exact F. unfold with_rows. simpl. f_equal. f_equal.
    apply filter_filter.
Qed.

(** C8.  Filtering a filtered data frame again on the same columns changes
    nothing: the second pass returns the data frame it was given (and the
    error of a failing first pass is the error of the whole). *)
Theorem drop_na_line_idempotent (df : DataFrame) (cols : list string) :
  (df' <- drop_na_line df cols ;; drop_na_line df' cols) = drop_na_line df cols
  /\ forall df', drop_na_line df cols = Ok df' ->
                 drop_na_line df' cols = Ok df'
                 /\ rows df' = filter (complete_in cols) (rows df).
Proof.
  assert (K : forall df', drop_na_line df cols = Ok df' ->
                          drop_na_line df' cols = Ok df'
                          /\ rows df' = filter (complete_in cols) (rows df)).
  { intros df' H. destruct (drop_na_line_ok _ _ _ H) as (C & R & F).
    split; [|exact R].
    rewrite drop_na_line_complete.
    - destruct df' as [cs rs]. unfold with_rows. simpl in *. f_equal. f_equal.
      subst rs. apply filter_idem.
    - unfold has_column in *. now rewrite C. }
  split; [|exact K].
  destruct (drop_na_line df cols) as [df'|e] eqn:H; simpl; [|reflexivity].
  now apply K.
Qed.

(* ------------------------------------------------------------------ *)
(** ** The order of cells is a total preorder *)

Lemma string_leb_iff (s t : string) :
  String.leb s t = true <-> String_as_OT.lt s t \/ s = t.
Proof.
  unfold String.leb. destruct (String.compare s t) eqn:C.
  - apply String_as_OT.cmp_eq in C. tauto.
  - apply String_as_OT.cmp_lt in C. tauto.
  - split; [discriminate|]. intros [L | E].
    + apply String_as_OT.cmp_lt in L. unfold String_as_OT.cmp in L. congruence.
    + apply String_as_OT.cmp_eq in E. unfold String_as_OT.cmp in E. congruence.
Qed.

Lemma string_leb_trans (s t u : string) :
  String.leb s t = true -> String.leb t u = true -> String.leb s u = true.
Proof.
  rewrite !string_leb_iff. intros [L1 | ->] [L2 | ->]; auto.
  left. exact (String_as_OT.lt_trans _ _ _ L1 L2).
Qed.

Lemma cell_leb_total (a b : cell) : cell_leb a b = true \/ cell_leb b a = true.
Proof.
  destruct a as [s|x|s|], b as [t|y|t|]; cbn [cell_leb rank];
    try (destruct x as [|[]|p]); try (destruct y as [|[]|q]); simpl;
    auto using String.leb_total.
  - rewrite !Qle_bool_iff.
    destruct (Qlt_le_dec p q) as [L | L]; [left; now apply Qlt_le_weak | now right].
  - rewrite !Z.leb_le. lia.
Qed.

Lemma cell_leb_trans (a b c : cell) :
  cell_leb a b = true -> cell_leb b c = true -> cell_leb a c = true.
Proof.
  destruct a as [s|x|s|], b as [t|y|t|], c as [u|z|u|]; cbn [cell_leb rank];
    try (destruct x as [|[]|p]); try (destruct y as [|[]|q]);
    try (destruct z as [|[]|r]); simpl;
    try reflexivity; try discriminate; try (intros; assumption).
  - apply string_leb_trans.
  - rewrite !Qle_bool_iff. apply Qle_trans.
  - rewrite !Z.leb_le. lia.
Qed.

(* ------------------------------------------------------------------ *)
(** ** Two sorts that meet the contract of the library *)

Lemma insert_desc_perm (by_ : string) (r : Row) (l : list Row) :
  Permutation (insert_desc by_ r l) (r :: l).
Proof.
  induction l as [|x l IH]; simpl; [reflexivity|].
  destruct (cell_leb (cell_at x by_) (cell_at r by_)); [reflexivity|].
  rewrite IH. apply perm_swap.
Qed.

Lemma insert_desc_sorted (by_ : string) (r : Row) (l : list Row) :
  StronglySorted (desc_by by_) l -> StronglySorted (desc_by by_) (insert_desc by_ r l).
Proof.
  induction l as [|x l IH]; intros S; simpl.
  - constructor; constructor.
  - inversion S as [|? ? S' F]; subst.
    destruct (cell_leb (cell_at x by_) (cell_at r by_)) eqn:L.
    + constructor; [exact S|]. constructor; [exact L|].
      apply Forall_forall. intros y Hy. rewrite Forall_forall in F.
      unfold desc_by in *. eapply cell_leb_trans; [now apply F | exact L].
    + assert (X : desc_by by_ x r).
      { unfold desc_by. destruct (cell_leb_total (cell_at r by_) (cell_at x by_));
          congruence. }
      constructor; [now apply IH|].
      apply Forall_forall. intros y Hy.
      apply (Permutation_in _ (insert_desc_perm by_ r l)) in Hy.
      destruct Hy as [<- | Hy]; [exact X|].
      rewrite Forall_forall in F. now apply F.
Qed.

Lemma stable_sort_contract : sort_contract stable_sort_desc.
Proof.
  intros by_ l. unfold stable_sort_desc. induction l as [|r l [P S]]; simpl.
  - split; constructor.
  - split.
    + rewrite insert_desc_perm. now constructor.
    + now apply insert_desc_sorted.
Qed.

(** Rows of one and the same value stay as they are. *)
Lemma stable_sort_keeps_ties (by_ : string) (v : cell) (l : list Row) :
  Forall (fun r => cell_at r by_ = v) l -> stable_sort_desc by_ l = l.
Proof.
  unfold stable_sort_desc. induction 1 as [|r l E F IH]; simpl; [reflexivity|].
  rewrite IH. destruct F as [|x l Ex F]; simpl; [reflexivity|].
  rewrite E, Ex.
  now destruct (cell_leb_total v v) as [-> | ->].
Qed.

Lemma reversing_sort_contract : sort_contract reversing_sort_desc.
Proof.
  intros by_ l. unfold reversing_sort_desc.
  destruct (stable_sort_contract by_ (rev l)) as [P S]. split; [|exact S].
  rewrite P. symmetry. apply Permutation_rev.
Qed.

(* ------------------------------------------------------------------ *)
(** ** Keeping the first row of each name *)

Lemma cell_eqb_eq (a b : cell) : cell_eqb a b = true <-> a = b.
Proof. unfold cell_eqb. destruct (cell_eq_dec a b); split; congruence. Qed.

Lemma seen_In (x : cell) (seen : list cell) :
  existsb (cell_eqb x) seen = true <-> In x seen.
Proof.
  rewrite existsb_exists. split.
  - intros (y & Hy & E). apply cell_eqb_eq in E. now subst.
  - intros H. exists x. split; [exact H | now apply cell_eqb_eq].
Qed.




(* ------------------------------------------------------------------ *)
(** ** Prefixes *)

Lemma firstn_incl {A : Type} (k : nat) (l : list A) (x : A) :
  In x (firstn k l) -> In x l.
Proof.
  revert l. induction k as [|k IH]; intros l H; [contradiction|].
  destruct l as [|y l]; [contradiction|]. simpl in H.
  destruct H as [-> | H]; [now left | right; now apply IH].
Qed.

Lemma firstn_sorted {A : Type} (R : A -> A -> Prop) (k : nat) : forall l,
  StronglySorted R l -> StronglySorted R (firstn k l).
Proof.
  induction k as [|k IH]; intros l S; [constructor|].
  destruct l as [|x l]; [constructor|]. simpl.
  inversion S as [|? ? S' F]; subst. constructor; [now apply IH|].
  apply Forall_forall. intros y Hy. rewrite Forall_forall in F.
  apply F. now apply firstn_incl in Hy.
Qed.

Lemma firstn_NoDup {A : Type} (k : nat) : forall l : list A,
  NoDup l -> NoDup (firstn k l).
Proof.
  induction k as [|k IH]; intros l N; [constructor|].
  destruct l as [|x l]; [constructor|]. simpl.
  inversion N; subst. constructor; [|now apply IH].
  intros H. now apply firstn_incl in H.
Qed.

Lemma head_nonneg {A : Type} (n : Z) (l : list A) :
  (0 <= n)%Z -> head n l = firstn (Z.to_nat n) l.
Proof. unfold head. intros H. now rewrite (proj2 (Z.leb_le 0 n) H). Qed.




(* ------------------------------------------------------------------ *)
(** ** Top-N by metric *)

Lemma has_column_In (df : DataFrame) (col : string) :
  has_column df col = true <-> In col (columns df).
Proof.
  unfold has_column. rewrite existsb_exists. split.
  - intros (c & H & E). apply String.eqb_eq in E. now subst.
  - intros H. exists col. split; [exact H | apply String.eqb_refl].
Qed.

Lemma has_column_with_rows (df : DataFrame) (rs : list Row) (col : string) :
  has_column (with_rows df rs) col = has_column df col.
Proof. reflexivity. Qed.

(** Dropping the missing values of a column does not change its kind. *)
Lemma one_kind_dropna (col : string) (l : list Row) :
  one_kind (map (fun r => cell_at r col)
              (filter (fun r => negb (isna (cell_at r col))) l))
  = one_kind (map (fun r => cell_at r col) l).
Proof.
  unfold one_kind.
  replace (filter (fun c => negb (isna c))
             (map (fun r => cell_at r col)
                (filter (fun r => negb (isna (cell_at r col))) l)))
    with (filter (fun c => negb (isna c)) (map (fun r => cell_at r col) l));
    [reflexivity|].
  induction l as [|r l IH]; [reflexivity|]. simpl.
  destruct (negb (isna (cell_at r col))) eqn:E; simpl; [|exact IH].
  rewrite E. now f_equal.
Qed.


(** C7.  When the requested column is not a column of the data frame,
    [get_top_crypto_list] raises its [ValueError] and returns no list,
    whatever the other arguments are. *)
Theorem top_n_unknown_column (argsort : string -> list Row -> list Row)
    (df : DataFrame) (n : Z) (by_ : string) (top1 : bool) :
  ~ In by_ (columns df) ->
  get_top_crypto_list argsort df n by_ top1 = Raise (ValueError_column_not_found by_).
Proof.
  intros H. unfold get_top_crypto_list.
  destruct (has_column df by_) eqn:E; [|reflexivity].
  apply has_column_In in E. contradiction.
Qed.

Lemma top_n_unknown_column_witness :
  get_top_crypto_list stable_sort_desc df_market 5 "volume" true
  = Raise (ValueError_column_not_found "volume").
Proof.
  apply top_n_unknown_column. simpl.
  intros [H|[H|[H|[H|[H|[H|[H|[]]]]]]]]; discriminate H.
Defined.



Section TopNProperties.
Variable argsort : string -> list Row -> list Row.
Hypothesis argsort_ok : sort_contract argsort.

Variables (df : DataFrame) (by_ : string).




End TopNProperties.




(** The contract of the sort leaves the order of equal metrics open: among
    eighteen entities of equal metric, insertion sort ranks the first row
    first, and the same sort run on the reversed rows ranks the last. *)
Example top_of_ties :
  get_top_crypto_list stable_sort_desc df_ties 1 "market_cap_num" false
  = Ok [VStr "A"]
  /\ get_top_crypto_list reversing_sort_desc df_ties 1 "market_cap_num" false
     = Ok [VStr "R"].
Proof. split; vm_compute; reflexivity. Qed.

(* ------------------------------------------------------------------ *)
(** ** The Row Filter on the example market *)

Lemma drop_na_line_idempotent_witness :
  drop_na_line
    (with_rows df_market
       (filter (complete_in ["name"; "price_usd_num"; "market_cap_num"])
          (rows df_market)))
    ["name"; "price_usd_num"; "market_cap_num"]
  = Ok (with_rows df_market
          (filter (complete_in ["name"; "price_usd_num"; "market_cap_num"])
             (rows df_market)))
  /\ List.length
       (filter (complete_in ["name"; "price_usd_num"; "market_cap_num"])
          (rows df_market)) = 5.
Proof.
  split; [|reflexivity].
  apply (proj2 (drop_na_line_idempotent df_market
                  ["name"; "price_usd_num"; "market_cap_num"])).
  reflexivity.
Defined.

(* ------------------------------------------------------------------ *)
(** ** The per-entity summary at the dashboard's call site *)

(** C1 (the code departs from it).  For Bitcoin and the range 2025-01-01 to
    2025-01-01 on a data set with one Bitcoin record on that day (price 100)
    and one a month later (price 200), the call of the dashboard shows the
    statistics of both records (mean price 150), which are the statistics of
    all records of the entity; the records inside the range have mean price
    100.  The dates arrive as the numbers of decimals, where they only make
    the format specifier invalid, so that every number is shown through
    [str()] and the summary is the same for every date range. *)
Theorem main_info_ignores_date_range (py_str : cell -> string)
    (py_repr : string -> string) :
  (forall (df : DataFrame) (crypto : string) (s1 e1 s2 e2 : Z),
      main_info_call_site py_str py_repr df crypto s1 e1
      = main_info_call_site py_str py_repr df crypto s2 e2)
  /\ main_info_call_site py_str py_repr df_two_days "Bitcoin" 20089 20089
  = Ok [ st_write "name: Bitcoin";
         st_write "symbol: BTC";
         st_text ("price in $, mean: " ++ py_str (VNum (qnum 150)));
         st_text ("price in $, median: " ++ py_str (VNum (qnum 150)));
         st_text ("price in $, min: " ++ py_str (VNum (qnum 100)));
         st_text ("price in $, max: " ++ py_str (VNum (qnum 200)));
         st_write ("change in last 24 hours - mean: " ++ py_str (VNum (qnum 2)));
         st_write ("change in last 24 hours - min: " ++ py_str (VNum (qnum 1)));
         st_write ("change in last 24 hours - max: " ++ py_str (VNum (qnum 3)));
         st_write ("change in last 7 days - mean: " ++ py_str (VNum (qnum 5)));
         st_write ("change in last 7 days - min: " ++ py_str (VNum (qnum 2)));
         st_write ("change in last 7 days - max: " ++ py_str (VNum (qnum 8))) ]
  /\ (d <- select_name df_two_days "Bitcoin" ;; summarize d)
     = Ok (mkSummary (qnum 150) (qnum 150) (qnum 100) (qnum 200)
             (qnum 2) (qnum 1) (qnum 3) (qnum 5) (qnum 2) (qnum 8))
  /\ (d <- select_entity_in_range df_two_days "Bitcoin" 20089 20089 ;; summarize d)
     = Ok (mkSummary (qnum 100) (qnum 100) (qnum 100) (qnum 100)
             (qnum 1) (qnum 1) (qnum 1) (qnum 2) (qnum 2) (qnum 2)).
Proof.
  split; [intros df crypto s1 e1 s2 e2; reflexivity|].
  repeat split; vm_compute; reflexivity.
Qed.

(** Without any record of the entity the summary is the "no data" line. *)
Lemma main_info_no_record (py_str : cell -> string) (py_repr : string -> string)
    (df : DataFrame) (crypto : string) (d1 d2 : pyarg) :
  has_column df "name" = true ->
  filter (name_is crypto) (rows df) = [] ->
  get_crypto_main_info py_str py_repr df crypto d1 d2
  = Ok [st_write ("No data for " ++ py_repr crypto)].
Proof.
  intros HN E. unfold get_crypto_main_info, select_name, column.
  rewrite HN. cbn [bind rows with_rows]. now rewrite E.
Qed.

(** C6 (the code departs from it).  On a data set whose only Bitcoin record
    is of 2025-02-01, no record matches Bitcoin and the range 2025-01-01 to
    2025-01-01; the call of the dashboard still shows the statistics of the
    February record and not the "no data" line. *)
Theorem main_info_outside_range_not_no_data (py_str : cell -> string)
    (py_repr : string -> string) :
  select_entity_in_range df_february "Bitcoin" 20089 20089
  = Ok (with_rows df_february [])
  /\ main_info_call_site py_str py_repr df_february "Bitcoin" 20089 20089
     = Ok [ st_write "name: Bitcoin";
            st_write "symbol: BTC";
            st_text ("price in $, mean: " ++ py_str (VNum (qnum 200)));
            st_text ("price in $, median: " ++ py_str (VNum (qnum 200)));
            st_text ("price in $, min: " ++ py_str (VNum (qnum 200)));
            st_text ("price in $, max: " ++ py_str (VNum (qnum 200)));
            st_write ("change in last 24 hours - mean: " ++ py_str (VNum (qnum 3)));
            st_write ("change in last 24 hours - min: " ++ py_str (VNum (qnum 3)));
            st_write ("change in last 24 hours - max: " ++ py_str (VNum (qnum 3)));
            st_write ("change in last 7 days - mean: " ++ py_str (VNum (qnum 8)));
            st_write ("change in last 7 days - min: " ++ py_str (VNum (qnum 8)));
            st_write ("change in last 7 days - max: " ++ py_str (VNum (qnum 8))) ]
  /\ main_info_call_site py_str py_repr df_february "Bitcoin" 20089 20089
     <> Ok [st_write ("No data for " ++ py_repr "Bitcoin")]
  /\ main_info_call_site py_str py_repr df_february "Dogecoin" 20089 20089
     = Ok [st_write ("No data for " ++ py_repr "Dogecoin")].
Proof.
  split; [vm_compute; reflexivity|].
  split; [vm_compute; reflexivity|].
  split; [vm_compute; discriminate|].
  apply main_info_no_record; reflexivity.
Qed.

(* ================================================================== *)
(** * Further properties of the code *)

(* ------------------------------------------------------------------ *)
(** ** The date range of [plot_crypto_field] *)

(** X1.  The range filter of [plot_crypto_field] is inclusive by calendar
    day, up to 23:59:59.999999 of the end date: a row is kept exactly when it
    has a timestamp whose day lies between the start date and the end date,
    both included, and whose time of day, on the end date, is not past
    23:59:59.999999.  So a record of the last microsecond of the end date is
    dropped, and a row without timestamp is never kept. *)
Theorem in_range_inclusive_days (start_date end_date : Z) (r : Row) :
  in_range start_date end_date r = true
  <-> exists t, cell_at r "timestamp" = VTime t
                /\ (start_date <= date_of t <= end_date)%Z
                /\ (date_of t = end_date -> (time_of_day t <= last_microsecond)%Z).
Proof.
  unfold in_range, date_of, time_of_day, last_microsecond, start_of_day,
    end_of_day, nanoseconds_per_day.
  destruct (cell_at r "timestamp") as [s|x|t|].
  - split; [discriminate | intros (t & E & _); discriminate E].
  - split; [discriminate | intros (t & E & _); discriminate E].
  - rewrite andb_true_iff, !Z.leb_le. split.
    + intros [L U]. exists t. split; [reflexivity|].
      Z.to_euclidean_division_equations. lia.
    + intros (t' & [= <-] & L & U). revert U.
      Z.to_euclidean_division_equations. lia.
  - split; [discriminate | intros (t & E & _); discriminate E].
Qed.

(* ------------------------------------------------------------------ *)
(** ** Distinct entities *)

Lemma not_seen_In (x : cell) (seen : list cell) :
  existsb (cell_eqb x) seen = false <-> ~ In x seen.
Proof.
  rewrite <- seen_In. destruct (existsb (cell_eqb x) seen); split; congruence.
Qed.

Lemma unique_from_In (l : list cell) : forall seen x,
  In x (unique_from seen l) <-> In x l /\ ~ In x seen.
Proof.
  induction l as [|y l IH]; intros seen x; simpl; [tauto|].
  destruct (existsb (cell_eqb y) seen) eqn:E.
  - apply seen_In in E. rewrite IH. split.
    + intros [H N]. split; [now right | exact N].
    + intros [[<- | H] N]; [contradiction | now split].
  - apply not_seen_In in E. simpl. rewrite IH. simpl. split.
    + intros [<- | [H N]]; [split; [now left | exact E]|].
      split; [now right | tauto].
    + intros [[<- | H] N]; [now left|].
      destruct (cell_eq_dec y x) as [-> | D]; [now left|]. right.
      split; [exact H|]. intros [Q | Q]; [contradiction | contradiction].
Qed.

Lemma unique_from_NoDup (l : list cell) : forall seen, NoDup (unique_from seen l).
Proof.
  induction l as [|y l IH]; intros seen; simpl; [constructor|].
  destruct (existsb (cell_eqb y) seen); [apply IH|].
  constructor; [|apply IH]. rewrite unique_from_In. intros [_ N]. apply N. now left.
Qed.

Lemma unique_from_filter (l : list cell) : forall seen,
  unique_from seen l
  = filter (fun x => negb (existsb (cell_eqb x) seen)) (unique l).
Proof.
  unfold unique. induction l as [|y l IH]; intros seen; simpl; [reflexivity|].
  rewrite (IH [y]), filter_filter.
  destruct (existsb (cell_eqb y) seen) eqn:E; simpl.
  - rewrite IH. apply filter_ext_in. intros x _.
    destruct (existsb (cell_eqb x) seen) eqn:X; simpl; [now rewrite andb_false_r|].
    rewrite andb_true_r. unfold cell_eqb. destruct (cell_eq_dec x y) as [-> | _].
    + congruence.
    + reflexivity.
  - f_equal. rewrite IH. apply filter_ext. intros x. simpl.
    now destruct (cell_eqb x y), (existsb (cell_eqb x) seen).
Qed.

Lemma unique_NoDup_id (l : list cell) : NoDup l -> unique l = l.
Proof.
  unfold unique. assert (G : forall seen,
    NoDup l -> (forall x, In x l -> ~ In x seen) -> unique_from seen l = l).
  { induction l as [|y l IH]; intros seen N D; simpl; [reflexivity|].
    inversion N as [|? ? Ny Nl]; subst.
    rewrite (proj2 (not_seen_In y seen)) by (apply D; now left).
    f_equal. apply IH; [exact Nl|].
    intros x Hx [<- | S]; [contradiction|]. apply (D x); [now right | exact S]. }
  intros N. apply G; [exact N | intros x _ []].
Qed.

Lemma keep_first_names (col : string) (l : list Row) : forall seen,
  map (fun r => cell_at r col) (keep_first col seen l)
  = unique_from seen (map (fun r => cell_at r col) l).
Proof.
  induction l as [|r l IH]; intros seen; simpl; [reflexivity|].
  destruct (existsb (cell_eqb (cell_at r col)) seen); simpl; now rewrite IH.
Qed.

(** X2.  On a data frame with a name column, [get_crypto_list] returns every
    name of the column once, in the order of first occurrence: the list has
    no duplicate, holds exactly the names of the rows, is the name column of
    [drop_duplicates(subset=["name"])], and putting one more row in front
    puts its name in front and removes it from the rest.  Taking the
    distinct values of the result again changes nothing. *)
Theorem get_crypto_list_first_occurrences (df : DataFrame) :
  has_column df "name" = true ->
  exists names,
    get_crypto_list df = Ok names
    /\ NoDup names
    /\ (forall x, In x names <-> exists r, In r (rows df) /\ name_of r = x)
    /\ names = map name_of (keep_first "name" [] (rows df))
    /\ unique names = names
    /\ forall r,
         get_crypto_list (with_rows df (r :: rows df))
         = Ok (name_of r :: filter (fun x => negb (cell_eqb x (name_of r))) names).
Proof.
  intros H. unfold get_crypto_list, column. rewrite H. cbn [bind].
  eexists. split; [reflexivity|].
  split; [apply unique_from_NoDup|].
  split.
  { intros x. unfold unique. rewrite unique_from_In, in_map_iff.
    unfold name_of. split.
    - intros [(r & E & I) _]. now exists r.
    - intros (r & I & E). split; [now exists r | intros []]. }
  split; [symmetry; apply (keep_first_names "name" (rows df) [])|].
  split; [apply unique_NoDup_id, unique_from_NoDup|].
  intros r. rewrite has_column_with_rows, H. cbn [bind rows with_rows map].
  unfold unique at 1. cbn [unique_from existsb]. rewrite unique_from_filter.
  do 2 f_equal. apply filter_ext. intros x. simpl. now rewrite orb_false_r.
Qed.

Lemma get_crypto_list_first_occurrences_witness :
  get_crypto_list df_market
  = Ok [VStr "Bitcoin"; VStr "Ethereum"; VStr "Tether"; VStr "Solana"].
Proof.
  destruct (get_crypto_list_first_occurrences df_market eq_refl)
    as (names & E & _ & _ & K & _).
  rewrite E, K. reflexivity.
Defined.

(* ------------------------------------------------------------------ *)
(** ** More on the field parsers *)

Lemma all_digits_app (a b : string) :
  all_digits (a ++ b) = all_digits a && all_digits b.
Proof.
  induction a as [|c a IH]; simpl; [reflexivity|]. now rewrite IH, andb_assoc.
Qed.

Lemma str_replace_join_commas (groups : list string) :
  Forall (fun g => digits g = true) groups ->
  str_replace "," "" (join_commas groups) = concat_groups groups.
Proof.
  induction 1 as [|g rest G F IH]; [reflexivity|].
  assert (R : str_replace "," "" g = g)
    by (apply str_replace_digits; [reflexivity | now apply digits_all]).
  destruct rest as [|g' rest'].
  - simpl. now rewrite append_nil_r.
  - change (join_commas (g :: g' :: rest'))
      with (g ++ "," ++ join_commas (g' :: rest')).
    change (concat_groups (g :: g' :: rest'))
      with (g ++ concat_groups (g' :: rest')).
    rewrite !str_replace_app, R, IH. reflexivity.
Qed.

Lemma concat_groups_digits (groups : list string) :
  groups <> [] -> Forall (fun g => digits g = true) groups ->
  digits (concat_groups groups) = true.
Proof.
  intros N F. destruct F as [|g rest G F]; [contradiction|].
  unfold digits in *. simpl. apply andb_prop in G as [G1 G2].
  apply andb_true_intro. split.
  - destruct g; [discriminate | reflexivity].
  - rewrite all_digits_app, G2. simpl. clear -F.
    induction F as [|h rest H F IH]; [reflexivity|].
    simpl. rewrite all_digits_app, IH, andb_true_r.
    unfold digits in H. now apply andb_prop in H.
Qed.

(** X3.  The Plain Number Parser reads a decimal whose integer part is
    written in groups of digits separated by commas (such as [1,234.56]) as
    the number that the digits denote without the commas, with its sign; and
    a comma anywhere in a text is ignored. *)
Theorem plain_number_grouped :
  (forall (negative : bool) (groups : list string) (fp : option string),
      groups <> [] -> Forall (fun g => digits g = true) groups ->
      fraction_ok fp = true ->
      num_eq (string_to_num
                (Some ((if negative then "-" else "")
                       ++ decimal_text (join_commas groups) fp)))
             (Fin (signed negative (decimal_value (concat_groups groups) fp))))
  /\ (forall a b : string,
         string_to_num (Some (a ++ "," ++ b)) = string_to_num (Some (a ++ b))).
Proof.
  split.
  - intros negative groups fp N G F. unfold string_to_num. cbn [astype_str].
    pose proof (concat_groups_digits groups N G) as D.
    assert (R : str_replace "," ""
                  ((if negative then "-" else "") ++ decimal_text (join_commas groups) fp)
                = (if negative then "-" else "") ++ decimal_text (concat_groups groups) fp).
    { unfold decimal_text. rewrite !str_replace_app, str_replace_join_commas by exact G.
      f_equal; [now destruct negative|]. f_equal.
      destruct fp as [f|]; [|reflexivity].
      change ("." ++ f) with (String "." f). cbn [str_replace].
      change (Ascii.eqb "." ",") with false. cbv iota.
      now rewrite str_replace_digits by (reflexivity || now apply digits_all). }
    rewrite R.
    destruct (to_numeric_decimal_text negative _ fp D F) as (v & -> & V).
    cbn [num_eq]. rewrite V. unfold signed. destruct negative; ring.
  - intros a b. unfold string_to_num. cbn [astype_str].
    now rewrite !str_replace_app.
Qed.

Lemma plain_number_grouped_witness :
  num_eq (string_to_num (Some "-1,234,567.5")) (Fin (- (12345675 # 10))).
Proof.
  pose proof (proj1 plain_number_grouped true ["1"; "234"; "567"] (Some "5")
                ltac:(discriminate)
                ltac:(repeat constructor) eq_refl) as H.
  vm_compute in H |- *. exact H.
Defined.




Lemma not_suffix_factor (last : option ascii) :
  is_suffix last = false -> suffix_factor last = NaN.
Proof.
  unfold is_suffix, suffix_factor. destruct last as [c|]; [|reflexivity].
  simpl. destruct (Ascii.eqb c "T"), (Ascii.eqb c "B"), (Ascii.eqb c "M"),
    (Ascii.eqb c "K"); simpl; congruence.
Qed.

Lemma str_last_replace (old d : ascii) (t : string) :
  str_last t = Some d -> Ascii.eqb d old = false ->
  str_last (str_replace old "" t) = Some d.
Proof.
  intros L D. induction t as [|x t IH]; [discriminate|].
  destruct t as [|y t'].
  - injection L as ->. simpl. now rewrite D.
  - assert (L' : str_last (String y t') = Some d) by exact L.
    specialize (IH L'). cbn [str_replace]. cbn [str_replace] in IH.
    destruct (Ascii.eqb x old); [exact IH|].
    change (str_last (String x ?u)) with
      (match u with EmptyString => Some x | String _ _ => str_last u end).
    destruct (if Ascii.eqb y old then _ else _) eqn:E; [discriminate IH | exact IH].
Qed.

Lemma lex_run_rejects_last (d : ascii) (u : string) :
  (forall st, lex_step st d = None) -> str_last u = Some d ->
  forall st, lex_run st u = false.
Proof.
  intros R. induction u as [|x u IH]; [discriminate|]. intros L st.
  destruct u as [|y u'].
  - injection L as ->. simpl. now rewrite R.
  - cbn [lex_run]. destruct (lex_step st x); [|reflexivity]. now apply IH.
Qed.

Lemma str_last_lower (u : string) :
  str_last (lower u) = option_map lower_ascii (str_last u).
Proof.
  induction u as [|x u IH]; [reflexivity|].
  destruct u as [|y u']; [reflexivity|]. exact IH.
Qed.

Lemma to_numeric_rejects_suffix_end (d : ascii) (u : string) :
  is_suffix (Some d) = true -> str_last u = Some d -> to_numeric u = NaN.
Proof.
  intros S L. apply to_numeric_nan_iff. unfold readable, numeric_literal.
  assert (Hd : (forall st, lex_step st d = None)
               /\ (lower_ascii d <> "f" /\ lower_ascii d <> "y")%char).
  { unfold is_suffix in S. simpl in S.
    destruct (Ascii.eqb_spec d "T") as [->|_];
      [split; [intros []; reflexivity | split; discriminate]|].
    destruct (Ascii.eqb_spec d "B") as [->|_];
      [split; [intros []; reflexivity | split; discriminate]|].
    destruct (Ascii.eqb_spec d "M") as [->|_];
      [split; [intros []; reflexivity | split; discriminate]|].
    destruct (Ascii.eqb_spec d "K") as [->|_];
      [split; [intros []; reflexivity | split; discriminate]|].
    discriminate S. }
  destruct Hd as (R & NF & NY).
  rewrite (lex_run_rejects_last d u R L). simpl.
  assert (LL : str_last (lower u) = Some (lower_ascii d))
    by now rewrite str_last_lower, L.
  unfold inf_token.
  repeat match goal with
         | |- context [String.eqb (lower u) ?k] =>
             destruct (String.eqb_spec (lower u) k) as [E|_];
             [rewrite E in LL; simpl in LL; congruence|]
         end.
  reflexivity.
Qed.

(** X5.  For the Scaled Currency Parser: a dollar sign is ignored wherever it
    stands; one trailing K, M, B or T after a text that does not itself end
    in such a letter multiplies what the text alone gives by the power of
    ten of the letter; and a text with two such letters at its end is
    missing, since only one is taken off. *)
Theorem scaled_currency_suffix_laws :
  (forall a b : string,
      dollars_str_to_num (Some (a ++ "$" ++ b)) = dollars_str_to_num (Some (a ++ b)))
  /\ (forall (s : string) (c : ascii) (e : Z),
         suffix_exponent (Some c) = Some e ->
         is_suffix (str_last (str_replace "$" "" s)) = false ->
         dollars_str_to_num (Some (s ++ String c ""))
         = num_mul (dollars_str_to_num (Some s)) (Fin (inject_Z (10 ^ e))))
  /\ (forall (s : string) (c : ascii) (e : Z),
         suffix_exponent (Some c) = Some e ->
         is_suffix (str_last (str_replace "$" "" s)) = true ->
         dollars_str_to_num (Some (s ++ String c "")) = NaN).
Proof.
  split; [|split].
  - intros a b. unfold dollars_str_to_num. cbn [astype_str].
    now rewrite !str_replace_app.
  - intros s c e S N.
    destruct (suffix_exponent_factor c e S) as (IS & SF & _).
    assert (C : Ascii.eqb c "$" = false).
    { destruct (Ascii.eqb_spec c "$") as [->|]; [discriminate S | reflexivity]. }
    unfold dollars_str_to_num. cbn [astype_str].
    rewrite str_replace_app. cbn [str_replace]. rewrite C.
    rewrite str_last_snoc, IS, SF, str_init_snoc, N, (not_suffix_factor _ N).
    cbn [fillna isnan]. rewrite num_mul_one.
    unfold num_mul. now rewrite to_float_idem.
  - intros s c e S Y.
    destruct (suffix_exponent_factor c e S) as (IS & SF & _).
    assert (C : Ascii.eqb c "$" = false).
    { destruct (Ascii.eqb_spec c "$") as [->|]; [discriminate S | reflexivity]. }
    unfold dollars_str_to_num. cbn [astype_str].
    rewrite str_replace_app. cbn [str_replace]. rewrite C.
    rewrite str_last_snoc, IS, str_init_snoc.
    destruct (str_last (str_replace "$" "" s)) as [d|] eqn:L; [|discriminate Y].
    assert (D : Ascii.eqb d "," = false).
    { destruct (Ascii.eqb_spec d ",") as [->|]; [discriminate Y | reflexivity]. }
    rewrite (to_numeric_rejects_suffix_end d _ Y (str_last_replace _ _ _ L D)).
    reflexivity.
Qed.

Lemma scaled_currency_suffix_laws_witness :
  dollars_str_to_num (Some "$2,500.5M")
  = num_mul (dollars_str_to_num (Some "$2,500.5")) (Fin (inject_Z (10 ^ 6)))
  /\ dollars_str_to_num (Some "$2KM") = NaN.
Proof.
  split.
  - exact (proj1 (proj2 scaled_currency_suffix_laws) "$2,500.5" "M"%char 6%Z
             eq_refl eq_refl).
  - exact (proj2 (proj2 scaled_currency_suffix_laws) "$2K" "M"%char 6%Z
             eq_refl eq_refl).
Defined.

(* ------------------------------------------------------------------ *)
(** ** More on Top-N by metric *)

(** X6.  Excluding the top entity is taking the tail: for all arguments,
    [get_top_crypto_list] with the flag set returns the list that it returns
    without the flag, less its first name, and fails when that one fails. *)
Theorem top_n_exclude_top_is_tail (argsort : string -> list Row -> list Row)
    (df : DataFrame) (n : Z) (by_ : string) :
  get_top_crypto_list argsort df n by_ true
  = (names <- get_top_crypto_list argsort df n by_ false ;; Ok (tl names)).
Proof.
  unfold get_top_crypto_list.
  destruct (negb (has_column df by_)); [reflexivity|].
  destruct (dropna by_ df) as [d1|e]; [|reflexivity]. cbn [bind].
  destruct (sort_values argsort by_ d1) as [d2|e]; [|reflexivity]. cbn [bind].
  destruct (drop_duplicates "name" d2) as [d3|e]; [|reflexivity]. cbn [bind].
  now destruct (column _ "name").
Qed.

Lemma unique_length_perm (l1 l2 : list cell) :
  Permutation l1 l2 -> List.length (unique l1) = List.length (unique l2).
Proof.
  intros P. apply Permutation_length. apply NoDup_Permutation.
  - apply unique_from_NoDup.
  - apply unique_from_NoDup.
  - intros x. unfold unique. rewrite !unique_from_In. split.
    + intros [H N]. split; [now apply (Permutation_in _ P) | exact N].
    + intros [H N]. split; [now apply (Permutation_in _ (Permutation_sym P)) | exact N].
Qed.

(** X7.  With any sort within the library's contract, on a data frame with
    the metric column and the name column whose metric values are of one
    kind, and for a non-negative N, the list without exclusion has min(N, D)
    names, D being the number of distinct names among the rows that have the
    metric; with the top entity excluded it has one less (none when that is
    zero).  So fewer than N names come back exactly when fewer than N
    entities qualify. *)
Theorem top_n_length (argsort : string -> list Row -> list Row)
    (df : DataFrame) (n : Z) (by_ : string) (top1 : bool) :
  sort_contract argsort ->
  has_column df by_ = true -> has_column df "name" = true ->
  one_kind (map (fun r => cell_at r by_) (rows df)) = true ->
  (0 <= n)%Z ->
  exists names,
    get_top_crypto_list argsort df n by_ top1 = Ok names
    /\ List.length names
       = Nat.min (Z.to_nat n) (List.length (qualifying_names df by_))
         - (if top1 then 1 else 0).
Proof.
  intros SC HB HN HK N.
  unfold get_top_crypto_list. rewrite HB. cbn [negb].
  unfold dropna. rewrite HB. cbn [bind].
  unfold sort_values. rewrite has_column_with_rows, HB.
  cbn [rows with_rows]. rewrite one_kind_dropna, HK. cbn [bind].
  unfold drop_duplicates. rewrite !has_column_with_rows, HN. cbn [bind].
  unfold column. rewrite !has_column_with_rows, HN.
  cbn [bind rows with_rows]. rewrite head_nonneg by exact N.
  assert (L : List.length
                (map (fun r => cell_at r "name")
                   (firstn (Z.to_nat n)
                      (keep_first "name" []
                         (argsort by_
                            (filter (fun r => negb (isna (cell_at r by_))) (rows df))))))
              = Nat.min (Z.to_nat n) (List.length (qualifying_names df by_))).
  { rewrite length_map, length_firstn. f_equal.
    rewrite <- (length_map (fun r => cell_at r "name")), keep_first_names.
    apply unique_length_perm. apply Permutation_map. apply SC. }
  set (names := map (fun r => cell_at r "name") (firstn (Z.to_nat n) _)) in *.
  destruct top1; eexists; (split; [reflexivity|]).
  - rewrite <- L. destruct names; simpl; lia.
  - rewrite L. lia.
Qed.

Lemma top_n_length_witness :
  exists names,
    get_top_crypto_list stable_sort_desc df_market 10 "market_cap_num" true = Ok names
    /\ List.length names = 2.
Proof.
  destruct (top_n_length stable_sort_desc df_market 10 "market_cap_num" true
              stable_sort_contract eq_refl eq_refl eq_refl ltac:(lia))
    as (names & E & L).
  exists names. split; [exact E | exact L].
Defined.

Lemma sorted_perm_unique (R : Row -> Row -> Prop) (l1 : list Row) : forall l2,
  StronglySorted R l1 -> StronglySorted R l2 -> Permutation l1 l2 ->
  (forall a b, In a l1 -> In b l1 -> a <> b -> R a b -> R b a -> False) ->
  l1 = l2.
Proof.
  induction l1 as [|a l1 IH]; intros l2 S1 S2 P T.
  - now apply Permutation_nil in P.
  - destruct l2 as [|b l2]; [now apply Permutation_sym, Permutation_nil in P|].
    inversion S1 as [|? ? S1' F1]; subst. inversion S2 as [|? ? S2' F2]; subst.
    rewrite Forall_forall in F1, F2.
    assert (E : a = b).
    { destruct (Row_eq_dec a b) as [E | D]; [exact E|]. exfalso.
      assert (Ia : In a l2).
      { assert (I : In a (b :: l2)) by (apply (Permutation_in _ P); now left).
        destruct I as [I | I]; [now symmetry in I | exact I]. }
      assert (Ib : In b l1).
      { assert (I : In b (a :: l1))
          by (apply (Permutation_in _ (Permutation_sym P)); now left).
        destruct I as [I | I]; [contradiction | exact I]. }
      apply (T a b); [now left | now right | exact D | now apply F1 | now apply F2]. }
    subst b. f_equal. apply IH; [exact S1' | exact S2' | |].
    + now apply Permutation_cons_inv in P.
    + intros x y Hx Hy. apply T; now right.
Qed.

(** X8.  When no two different rows with a metric tie on it, the result of
    [get_top_crypto_list] does not depend on the sort: any two sorts within
    the library's contract give the same list (and the same error). *)
Theorem top_n_without_ties (argsort1 argsort2 : string -> list Row -> list Row)
    (df : DataFrame) (n : Z) (by_ : string) (top1 : bool) :
  sort_contract argsort1 -> sort_contract argsort2 ->
  (forall a b, In a (rows df) -> In b (rows df) ->
               has_metric by_ a = true -> has_metric by_ b = true ->
               a <> b -> ~ tied by_ a b) ->
  get_top_crypto_list argsort1 df n by_ top1
  = get_top_crypto_list argsort2 df n by_ top1.
Proof.
  intros C1 C2 T.
  assert (E : argsort1 by_ (filter (has_metric by_) (rows df))
              = argsort2 by_ (filter (has_metric by_) (rows df))).
  { destruct (C1 by_ (filter (has_metric by_) (rows df))) as [P1 S1].
    destruct (C2 by_ (filter (has_metric by_) (rows df))) as [P2 S2].
    apply (sorted_perm_unique (desc_by by_)); [exact S1 | exact S2 | |].
    - rewrite P1. now symmetry.
    - intros a b Ia Ib D R1 R2.
      apply (Permutation_in _ P1), filter_In in Ia as [Ia Ma].
      apply (Permutation_in _ P1), filter_In in Ib as [Ib Mb].
      apply (T a b Ia Ib Ma Mb D). now split. }
  unfold get_top_crypto_list, dropna, sort_values.
  destruct (has_column df by_) eqn:HB; [|reflexivity].
  cbn [negb bind]. rewrite has_column_with_rows, HB. cbn [bind rows with_rows].
  destruct (one_kind _); [|reflexivity]. cbn [bind rows with_rows].
  unfold has_metric in E. now rewrite E.
Qed.

Lemma top_n_without_ties_witness :
  get_top_crypto_list stable_sort_desc df_market 3 "market_cap_num" false
  = get_top_crypto_list reversing_sort_desc df_market 3 "market_cap_num" false.
Proof.
  apply top_n_without_ties;
    [exact stable_sort_contract | exact reversing_sort_contract |].
  intros a b Ia Ib Ma Mb D [T1 T2].
  simpl in Ia, Ib.
  repeat (destruct Ia as [<- | Ia]; [|]); try contradiction;
    repeat (destruct Ib as [<- | Ib]; [|]); try contradiction;
    try (now apply D); try discriminate Ma; try discriminate Mb;
    try (vm_compute in T1; discriminate T1);
    try (vm_compute in T2; discriminate T2).
Defined.

(* ------------------------------------------------------------------ *)
(** ** Short numbers *)

Lemma Qsign_neg_compat (p q : Q) : (p == q)%Q -> Qsign_neg p = Qsign_neg q.
Proof.
  unfold Qeq, Qsign_neg. destruct p as [a b], q as [c d]. simpl. intros E.
  destruct (Z.ltb_spec a 0), (Z.ltb_spec c 0); try reflexivity; nia.
Qed.

Lemma format_fixed_plain_compat (dec : nat) (p q : Q) :
  (p == q)%Q -> format_fixed_plain dec p = format_fixed_plain dec q.
Proof.
  intros E. unfold format_fixed_plain.
  rewrite (round_half_even_compat (p * _) (q * _)) by now rewrite E.
  now rewrite (Qsign_neg_compat p q E).
Qed.

Lemma abs_below_thousand_iff (q : Q) :
  abs_below_thousand (Fin q) = true <-> (Qabs q < inject_Z 1000)%Q.
Proof.
  unfold abs_below_thousand. rewrite negb_true_iff. split.
  - intros H. apply Qnot_le_lt. intros L. apply Qle_bool_iff in L. congruence.
  - intros H. destruct (Qle_bool (inject_Z 1000) (Qabs q)) eqn:E; [|reflexivity].
    apply Qle_bool_iff in E. exfalso. now apply (Qlt_not_le _ _ H).
Qed.

Lemma Qabs_div_thousand (q : Q) :
  (Qabs (Qred (q / inject_Z (Z.of_nat 1000))) == Qabs q / inject_Z 1000)%Q.
Proof.
  rewrite Qred_correct. unfold Qdiv. rewrite Qabs_Qmult. reflexivity.
Qed.

Lemma thousand_pow_succ (k : nat) :
  (thousand_pow (S k) == inject_Z 1000 * thousand_pow k)%Q.
Proof.
  unfold thousand_pow. rewrite Nat2Z.inj_succ, Z.pow_succ_r by lia.
  now rewrite inject_Z_mult.
Qed.

Lemma thousand_pow_pos (k : nat) : (0 < thousand_pow k)%Q.
Proof.
  unfold thousand_pow. change 0%Q with (inject_Z 0). rewrite <- Zlt_Qlt.
  apply Z.pow_pos_nonneg; lia.
Qed.

(** The loop stops at the first unit that leaves less than a thousand. *)
Lemma short_format_units_at (k : nat) : forall (units : list string) (q : Q),
  k < List.length units ->
  (k = 0 \/ (thousand_pow k <= Qabs q)%Q) ->
  (Qabs q < thousand_pow (S k))%Q ->
  short_format_units units (Fin q)
  = format_point 1 (Fin (q / thousand_pow k)) ++ nth k units "".
Proof.
  induction k as [|k IH]; intros units q L Lo Hi;
    (destruct units as [|unit rest]; [simpl in L; lia|]).
  - cbn [short_format_units nth].
    rewrite (proj2 (abs_below_thousand_iff q)) by exact Hi.
    cbn [format_point]. f_equal. apply format_fixed_plain_compat.
    unfold thousand_pow. simpl. field.
  - destruct Lo as [Lo | Lo]; [discriminate Lo|].
    assert (NB : abs_below_thousand (Fin q) = false).
    { destruct (abs_below_thousand (Fin q)) eqn:B; [|reflexivity].
      apply abs_below_thousand_iff in B. exfalso.
      apply (Qlt_not_le _ _ B). eapply Qle_trans; [|exact Lo].
      rewrite thousand_pow_succ.
      rewrite <- (Qmult_1_r (inject_Z 1000)) at 1.
      apply Qmult_le_l; [reflexivity|].
      pose proof (thousand_pow_pos k) as P. unfold thousand_pow in *.
      change 1%Q with (inject_Z 1). rewrite <- Zle_Qle.
      change 0%Q with (inject_Z 0) in P. rewrite <- Zlt_Qlt in P. lia. }
    cbn [short_format_units nth]. rewrite NB. cbn [num_div_nat].
    rewrite IH.
    + cbn [format_point]. f_equal. apply format_fixed_plain_compat.
      rewrite Qred_correct, thousand_pow_succ.
      pose proof (thousand_pow_pos k) as P.
      change (inject_Z (Z.of_nat 1000)) with (inject_Z 1000).
      field. intros Z. rewrite Z in P. now apply Qlt_irrefl in P.
    + simpl in L. lia.
    + destruct k as [|k']; [now left | right].
      rewrite Qabs_div_thousand. apply Qle_shift_div_l; [reflexivity|].
      rewrite Qmult_comm, <- thousand_pow_succ. exact Lo.
    + rewrite Qabs_div_thousand. apply Qlt_shift_div_r; [reflexivity|].
      rewrite Qmult_comm, <- thousand_pow_succ. exact Hi.
Qed.





Lemma round_half_even_just_below (s : Q) :
  (19999 # 2 <= s)%Q -> (s < inject_Z 10000)%Q -> round_half_even s = 10000%Z.
Proof.
  unfold Qle, Qlt, round_half_even. destruct s as [a b]. cbn [Qnum Qden inject_Z].
  intros L U.
  assert (F : (a / Z.pos b = 9999)%Z).
  { symmetry. apply Z.div_unique with (r := (a - Z.pos b * 9999)%Z); lia. }
  rewrite F. rewrite (Z.mod_eq a (Z.pos b)) by lia. rewrite F.
  destruct (Z.compare_spec (2 * (a - Z.pos b * 9999)) (Z.pos b)); [reflexivity | lia | reflexivity].
Qed.

Lemma format_just_below_thousand (x : Q) :
  (199990 # 200 <= x)%Q -> (x < inject_Z 1000)%Q ->
  format_fixed_plain 1 x = "1000.0".
Proof.
  intros L U. unfold format_fixed_plain.
  rewrite round_half_even_just_below.
  - replace (Qsign_neg x) with false; [reflexivity|].
    unfold Qsign_neg. unfold Qle in L. destruct x as [a b]. simpl in *.
    destruct (Z.ltb_spec a 0); [lia | reflexivity].
  - assert (E : (19999 # 2 == (199990 # 200) * inject_Z (10 ^ Z.of_nat 1))%Q)
      by reflexivity.
    rewrite E. apply Qmult_le_compat_r; [exact L | discriminate].
  - assert (E : (inject_Z 10000 == inject_Z 1000 * inject_Z (10 ^ Z.of_nat 1))%Q)
      by reflexivity.
    rewrite E. apply Qmult_lt_compat_r; [reflexivity | exact U].
Qed.

(** X10.  The unit is chosen before rounding: a positive number from 999.95
    to just below 1000 units of K, M, B or T (or of one) is shown as 1000.0
    of that unit, not as 1.0 of the next. *)
Theorem short_format_num_rounds_after_unit (q : Q) (k : nat) :
  k <= 4 ->
  ((199990 # 200) * thousand_pow k <= q)%Q ->
  (q < thousand_pow (S k))%Q ->
  short_format_num (Fin q) = "1000.0" ++ nth k short_units "".
Proof.
  intros K Lo Hi.
  pose proof (thousand_pow_pos k) as P.
  assert (Q0 : (0 <= q)%Q).
  { eapply Qle_trans; [|exact Lo]. apply Qmult_le_0_compat; [discriminate|].
    now apply Qlt_le_weak. }
  assert (A : (Qabs q == q)%Q) by now apply Qabs_pos.
  unfold short_format_num. rewrite (short_format_units_at k).
  - cbn [format_point]. f_equal. apply format_just_below_thousand.
    + apply Qle_shift_div_l; [exact P | exact Lo].
    + apply Qlt_shift_div_r; [exact P|]. now rewrite <- thousand_pow_succ.
  - simpl. lia.
  - right. rewrite A. eapply Qle_trans; [|exact Lo].
    rewrite <- (Qmult_1_l (thousand_pow k)) at 1.
    apply Qmult_le_compat_r; [discriminate | now apply Qlt_le_weak].
  - now rewrite A.
Qed.

Lemma short_format_num_rounds_after_unit_witness :
  short_format_num (Fin (99996 # 100)) = "1000.0"
  /\ short_format_num (qnum 999999) = "1000.0K".
Proof.
  split.
  - apply (short_format_num_rounds_after_unit (99996 # 100) 0);
      [lia | vm_compute; discriminate | vm_compute; reflexivity].
  - apply (short_format_num_rounds_after_unit (inject_Z 999999) 1);
      [lia | vm_compute; discriminate | vm_compute; reflexivity].
Defined.

(* ------------------------------------------------------------------ *)
(** ** The cards of an extreme *)

Lemma num_leb_total (x y : num) :
  isnan x = false -> isnan y = false -> num_leb x y = true \/ num_leb y x = true.
Proof.
  destruct x as [|[]|p], y as [|[]|q]; simpl; auto; try discriminate.
  intros _ _. rewrite !Qle_bool_iff.
  destruct (Qlt_le_dec p q) as [L | L]; [left; now apply Qlt_le_weak | now right].
Qed.

Lemma num_leb_trans (x y z : num) :
  num_leb x y = true -> num_leb y z = true -> num_leb x z = true.
Proof.
  destruct x as [|[]|p], y as [|[]|q], z as [|[]|r]; simpl; auto; try discriminate.
  rewrite !Qle_bool_iff. apply Qle_trans.
Qed.

Section Extremes.
Variable pick_max : bool.

Lemma not_better_total (a b : num) :
  isnan a = false -> isnan b = false ->
  not_better pick_max a b = false -> not_better pick_max b a = true.
Proof.
  unfold not_better. intros A B H.
  destruct pick_max; [destruct (num_leb_total a b A B) | destruct (num_leb_total b a B A)];
    congruence.
Qed.

Lemma not_better_refl (a : num) : isnan a = false -> not_better pick_max a a = true.
Proof.
  intros A. destruct (not_better pick_max a a) eqn:E; [reflexivity|].
  pose proof (not_better_total a a A A E). congruence.
Qed.

Lemma not_better_trans (a b c : num) :
  not_better pick_max a b = true -> not_better pick_max b c = true ->
  not_better pick_max a c = true.
Proof.
  unfold not_better. destruct pick_max; intros H1 H2.
  - exact (num_leb_trans _ _ _ H1 H2).
  - exact (num_leb_trans _ _ _ H2 H1).
Qed.

(** [a] better than [b], [b] better than [c]. *)
Lemma better_trans (a b c : num) :
  isnan b = false -> isnan c = false ->
  not_better pick_max a b = false -> not_better pick_max b c = false ->
  not_better pick_max a c = false.
Proof.
  intros B C H1 H2. destruct (not_better pick_max a c) eqn:E; [|reflexivity].
  apply (not_better_total _ _ B C) in H2.
  rewrite (not_better_trans _ _ _ E H2) in H1. discriminate H1.
Qed.

(** [a] better than [b], [p] not better than [b]. *)
Lemma better_than_not_better (a b p : num) :
  not_better pick_max a b = false -> not_better pick_max p b = true ->
  not_better pick_max a p = false.
Proof.
  intros H1 H2. destruct (not_better pick_max a p) eqn:E; [|reflexivity].
  rewrite (not_better_trans _ _ _ E H2) in H1. discriminate H1.
Qed.

(** The scan returns an element that is better than everything before it
    and not worse than anything after it. *)
Lemma extreme_from_split (l : list (Row * num)) : forall best,
  Forall (fun p => isnan (snd p) = false) (best :: l) ->
  exists l1 l2,
    best :: l = (l1 ++ extreme_from pick_max best l :: l2)%list
    /\ Forall (fun p => not_better pick_max
                          (snd (extreme_from pick_max best l)) (snd p) = false) l1
    /\ Forall (fun p => not_better pick_max (snd p)
                          (snd (extreme_from pick_max best l)) = true) l2.
Proof.
  induction l as [|p l IH]; intros best F.
  - exists [], []. repeat split; constructor.
  - inversion F as [|? ? Fb Fl]; subst. inversion Fl as [|? ? Fp Fl']; subst.
    cbn [extreme_from]. destruct (not_better pick_max (snd p) (snd best)) eqn:C.
    + destruct (IH best) as (m1 & m2 & E & F1 & F2); [now constructor|].
      destruct m1 as [|b0 m1].
      * injection E as E1 E2. exists [], (p :: m2). rewrite <- E1 in *.
        split; [now subst m2|].
        split; [constructor | constructor; [exact C | exact F2]].
      * injection E as E1 E2. subst b0. exists (best :: p :: m1), m2.
        inversion F1 as [|? ? Hb F1']; subst.
        split; [simpl; do 2 f_equal; exact E2|]. split; [|exact F2].
        constructor; [exact Hb|]. constructor; [|exact F1'].
        exact (better_than_not_better _ _ _ Hb C).
    + destruct (IH p) as (m1 & m2 & E & F1 & F2); [exact Fl|].
      exists (best :: m1), m2. split; [simpl; f_equal; exact E|]. split; [|exact F2].
      constructor; [|exact F1].
      destruct m1 as [|p0 m1].
      * injection E as E1 E2. now rewrite <- E1.
      * injection E as E1 E2. subst p0. inversion F1 as [|? ? Hp F1']; subst.
        exact (better_trans _ _ _ Fp Fb Hp C).
Qed.
End Extremes.

Lemma as_numbers_values (col : string) (rs : list Row) : forall xs,
  as_numbers col (map (fun r => cell_at r col) rs) = Ok xs ->
  combine rs xs = map (fun r => (r, value_at col r)) rs
  /\ Forall (fun r => cell_at r col = VNum (value_at col r)) rs.
Proof.
  induction rs as [|r rs IH]; intros xs H; simpl in H.
  - injection H as <-. split; constructor.
  - unfold value_at. destruct (cell_at r col) as [s|x|t|] eqn:C; try discriminate H.
    destruct (as_numbers col (map (fun r => cell_at r col) rs)) as [ys|e] eqn:A;
      [|discriminate H].
    injection H as <-. destruct (IH ys eq_refl) as [E F].
    split.
    + simpl. rewrite C. f_equal. exact E.
    + constructor; [now rewrite C | exact F].
Qed.

Lemma filter_map_split {A B : Type} (f : B -> bool) (g : A -> B) (l : list A) :
  forall l1 x l2,
    filter f (map g l) = (l1 ++ x :: l2)%list ->
    exists b r a, l = (b ++ r :: a)%list /\ g r = x
                  /\ filter f (map g b) = l1 /\ filter f (map g a) = l2.
Proof.
  induction l as [|y l IH]; intros l1 x l2 H; simpl in H.
  - destruct l1; discriminate H.
  - destruct (f (g y)) eqn:E.
    + destruct l1 as [|z l1].
      * injection H as H1 H2. exists [], y, l. now repeat split.
      * injection H as H1 H2. destruct (IH _ _ _ H2) as (b & r & a & -> & G & B1 & B2).
        exists (y :: b), r, a. repeat split; [exact G | | exact B2].
        simpl. rewrite E. now rewrite B1, H1.
    + destruct (IH _ _ _ H) as (b & r & a & -> & G & B1 & B2).
      exists (y :: b), r, a. repeat split; [exact G | | exact B2].
      simpl. now rewrite E.
Qed.

Lemma filter_none {A : Type} (f : A -> bool) (l : list A) :
  (forall x, In x l -> f x = false) -> filter f l = [].
Proof.
  induction l as [|y l IH]; intros H; simpl; [reflexivity|].
  rewrite (H y) by now left. apply IH. intros x Hx. apply H. now right.
Qed.

Lemma loc_unique (df : DataFrame) (r : Row) :
  NoDup (map label (rows df)) -> In r (rows df) -> loc df (label r) = inl r.
Proof.
  unfold loc. intros N I.
  assert (E : filter (fun x => Nat.eqb (label x) (label r)) (rows df) = [r]).
  { induction (rows df) as [|y l IH]; [contradiction|].
    simpl in N. inversion N as [|? ? Ny Nl]; subst. simpl.
    destruct I as [-> | I].
    - rewrite Nat.eqb_refl. f_equal. apply filter_none.
      intros x Hx. apply Nat.eqb_neq. intros Q. apply Ny. rewrite <- Q.
      now apply in_map.
    - destruct (Nat.eqb_spec (label y) (label r)) as [Q | _]; [|now apply IH].
      exfalso. apply Ny. rewrite Q. now apply in_map. }
  now rewrite E.
Qed.

Lemma num_column_ok (df : DataFrame) (col : string) (xs : list num) :
  num_column df col = Ok xs ->
  has_column df col = true
  /\ as_numbers col (map (fun r => cell_at r col) (rows df)) = Ok xs.
Proof.
  unfold num_column, column. destruct (has_column df col); [|discriminate].
  cbn [bind]. now split.
Qed.

(** The row that [idxmax] (or [idxmin]) and then [loc] arrive at. *)
Lemma extreme_row_spec (pick_max : bool) (df : DataFrame) (col : string)
    (xs : list num) :
  NoDup (map label (rows df)) ->
  num_column df col = Ok xs ->
  (exists r, In r (rows df) /\ isnan (value_at col r) = false) ->
  exists before row after,
    rows df = (before ++ row :: after)%list
    /\ isnan (value_at col row) = false
    /\ cell_at row col = VNum (value_at col row)
    /\ idx_extreme pick_max df col = inl (label row)
    /\ loc df (label row) = inl row
    /\ (forall r, In r before -> isnan (value_at col r) = false ->
                  not_better pick_max (value_at col row) (value_at col r) = false)
    /\ (forall r, In r (rows df) -> isnan (value_at col r) = false ->
                  not_better pick_max (value_at col r) (value_at col row) = true).
Proof.
  intros ND NC (r1 & I1 & V1).
  destruct (num_column_ok _ _ _ NC) as [HC AN].
  destruct (as_numbers_values _ _ _ AN) as [CB CV].
  set (g := fun r : Row => (r, value_at col r)) in *.
  set (f := fun p : Row * num => negb (isnan (snd p))).
  assert (VL : valued xs (rows df) = filter f (map g (rows df)))
    by (unfold valued; now rewrite CB).
  assert (Mem : forall r, In r (rows df) -> isnan (value_at col r) = false ->
                          In (g r) (valued xs (rows df))).
  { intros r I V. rewrite VL. apply filter_In. split; [now apply in_map|].
    unfold f, g. simpl. now rewrite V. }
  destruct (valued xs (rows df)) as [|first rest] eqn:VE;
    [destruct (Mem r1 I1 V1)|].
  assert (NN : Forall (fun p => isnan (snd p) = false) (first :: rest)).
  { rewrite VL. apply Forall_forall. intros p Hp. apply filter_In in Hp as [_ Hp].
    unfold f in Hp. now destruct (isnan (snd p)). }
  destruct (extreme_from_split pick_max rest first NN) as (l1 & l2 & E & F1 & F2).
  set (res := extreme_from pick_max first rest) in *.
  rewrite VL in E.
  destruct (filter_map_split f g (rows df) l1 res l2 E) as (b & r0 & a & R & G & B1 & B2).
  assert (Vres : snd res = value_at col r0) by (rewrite <- G; reflexivity).
  assert (Fres : fst res = r0) by (rewrite <- G; reflexivity).
  assert (I0 : In r0 (rows df)) by (rewrite R; apply in_or_app; right; now left).
  assert (N0 : isnan (value_at col r0) = false).
  { rewrite <- Vres. rewrite Forall_forall in NN. apply NN.
    rewrite VL, E. apply in_or_app. right. now left. }
  exists b, r0, a. split; [exact R|]. split; [exact N0|].
  split; [rewrite Forall_forall in CV; now apply CV|].
  split.
  { unfold idx_extreme. rewrite NC, VE. fold res. now rewrite Fres. }
  split; [now apply loc_unique|].
  split.
  - intros r I V. rewrite <- Vres. rewrite Forall_forall in F1.
    apply (F1 (g r)). rewrite <- B1. apply filter_In. split; [now apply in_map|].
    unfold f, g. simpl. now rewrite V.
  - intros r I V. rewrite <- Vres.
    pose proof (Mem r I V) as M. rewrite VL, E in M.
    rewrite Forall_forall in F1, F2.
    apply in_app_or in M as [M | [M | M]].
    + apply not_better_total; [now rewrite Vres | exact V | exact (F1 _ M)].
    + rewrite M. simpl. apply not_better_refl. exact V.
    + exact (F2 _ M).
Qed.

Lemma extreme_card_text (py_str : cell -> string) (title col : string)
    (pick_max : bool) (show : num -> string) (df : DataFrame) (row : Row) :
  idx_extreme pick_max df col = inl (label row) ->
  loc df (label row) = inl row ->
  has_column df "name" = true ->
  cell_at row col = VNum (value_at col row) ->
  extreme_card py_str title col pick_max show df
  = inl (title,
         cell_text py_str (name_of row) ++ " " ++ em_dash ++ " "
         ++ show (value_at col row)).
Proof.
  intros I L N C. unfold extreme_card. rewrite I, L, N, C. reflexivity.
Qed.

(** X11.  On a data frame with unique row labels, a name column and a
    numeric column that holds a value in some row, a card of an extreme
    shows the name and the value of a single row of the frame: no row has a
    better value (greater for [idxmax], smaller for [idxmin]; missing values
    are skipped), and every row before it has a strictly worse one, so that
    among equal extremes the first row is shown. *)
Theorem extreme_card_shows_extreme (py_str : cell -> string) (title col : string)
    (pick_max : bool) (show : num -> string) (df : DataFrame) (xs : list num) :
  NoDup (map label (rows df)) ->
  has_column df "name" = true ->
  num_column df col = Ok xs ->
  (exists r, In r (rows df) /\ isnan (value_at col r) = false) ->
  exists before row after,
    rows df = (before ++ row :: after)%list
    /\ isnan (value_at col row) = false
    /\ extreme_card py_str title col pick_max show df
       = inl (title,
              cell_text py_str (name_of row) ++ " " ++ em_dash ++ " "
              ++ show (value_at col row))
    /\ (forall r, In r (rows df) -> isnan (value_at col r) = false ->
                  not_better pick_max (value_at col r) (value_at col row) = true)
    /\ (forall r, In r before -> isnan (value_at col r) = false ->
                  not_better pick_max (value_at col row) (value_at col r) = false).
Proof.
  intros ND HN NC EX.
  destruct (extreme_row_spec pick_max df col xs ND NC EX)
    as (b & row & a & R & N0 & C & I & L & First & Best).
  exists b, row, a. split; [exact R|]. split; [exact N0|].
  split; [now apply extreme_card_text|]. split; [exact Best | exact First].
Qed.

Lemma extreme_card_shows_extreme_witness :
  exists before row after,
    rows df_market = (before ++ row :: after)%list
    /\ List.length before = 3
    /\ max_market_cap (fun _ => "") df_market
       = inl ("Top Market Cap", "Bitcoin " ++ em_dash ++ " $950.0").
Proof.
  destruct (extreme_card_shows_extreme (fun _ => "") "Top Market Cap"
              "market_cap_num" true show_dollars df_market
              [qnum 900; qnum 400; NaN; qnum 950; qnum 120; qnum 410]
              ltac:(repeat constructor; simpl; intuition discriminate)
              eq_refl eq_refl
              ltac:(eexists; split; [left; reflexivity | reflexivity]))
    as (b & row & a & R & _ & E & _ & _).
  exists (firstn 3 (rows df_market)), (nth 3 (rows df_market) row),
    (skipn 4 (rows df_market)).
  split; [reflexivity|]. split; [reflexivity|]. reflexivity.
Defined.

(** X12.  On such a data frame the gainer and the loser cards of a change
    column show two rows of which the gainer's change is not below the
    loser's: the top gainer never has a smaller change than the top loser,
    over 24 hours as over 7 days. *)
Theorem gainer_not_below_loser (py_str : cell -> string) (df : DataFrame)
    (col : string) (xs : list num) :
  NoDup (map label (rows df)) ->
  has_column df "name" = true ->
  num_column df col = Ok xs ->
  (exists r, In r (rows df) /\ isnan (value_at col r) = false) ->
  exists gainer loser,
    In gainer (rows df) /\ In loser (rows df)
    /\ num_leb (value_at col loser) (value_at col gainer) = true
    /\ forall title_g title_l,
         extreme_card py_str title_g col true show_percent df
         = inl (title_g,
                cell_text py_str (name_of gainer) ++ " " ++ em_dash ++ " "
                ++ show_percent (value_at col gainer))
         /\ extreme_card py_str title_l col false show_percent df
            = inl (title_l,
                   cell_text py_str (name_of loser) ++ " " ++ em_dash ++ " "
                   ++ show_percent (value_at col loser)).
Proof.
  intros ND HN NC EX.
  destruct (extreme_row_spec true df col xs ND NC EX)
    as (bg & g & ag & Rg & Ng & Cg & Ig & Lg & _ & Bg).
  destruct (extreme_row_spec false df col xs ND NC EX)
    as (bl & l & al & Rl & Nl & Cl & Il & Ll & _ & _).
  assert (InG : In g (rows df)) by (rewrite Rg; apply in_or_app; right; now left).
  assert (InL : In l (rows df)) by (rewrite Rl; apply in_or_app; right; now left).
  exists g, l. split; [exact InG|]. split; [exact InL|].
  split; [exact (Bg l InL Nl)|].
  intros tg tl. split; now apply extreme_card_text.
Qed.

Lemma gainer_not_below_loser_witness :
  top_gainer_24h (fun _ => "") df_market
  = inl ("Top Gainer (24h)", "Bitcoin " ++ em_dash ++ " 3.00%")
  /\ top_loser_24h (fun _ => "") df_market
     = inl ("Top Loser (24h)", "Ethereum " ++ em_dash ++ " -1.00%").
Proof.
  destruct (gainer_not_below_loser (fun _ => "") df_market "chg_24h_num"
              [qnum 1; qnum (-1); qnum 0; qnum 3; qnum 2; qnum 2]
              ltac:(repeat constructor; simpl; intuition discriminate)
              eq_refl eq_refl
              ltac:(eexists; split; [left; reflexivity | reflexivity]))
    as (g & l & _ & _ & _ & _).
  split; reflexivity.
Defined.

(** X13.  A card of an extreme raises instead of showing something: the
    [KeyError] of an absent column, and the error of an extreme over nothing
    when no row holds a value in the column, which is the case of a data
    frame without rows. *)
Theorem extreme_card_errors (py_str : cell -> string) (title col : string)
    (pick_max : bool) (show : num -> string) (df : DataFrame) :
  (has_column df col = false ->
   extreme_card py_str title col pick_max show df = inr (FrameError (KeyError col)))
  /\ (has_column df col = true ->
      Forall (fun r => cell_at r col = VNum NaN) (rows df) ->
      extreme_card py_str title col pick_max show df
      = inr (ValueError_empty_extreme col)).
Proof.
  split.
  - intros H. unfold extreme_card, idx_extreme, num_column, column. now rewrite H.
  - intros H F. unfold extreme_card, idx_extreme, num_column, column. rewrite H.
    cbn [bind].
    assert (A : as_numbers col (map (fun r => cell_at r col) (rows df))
                = Ok (map (fun _ => NaN) (rows df))).
    { induction F as [|r l C F IH]; [reflexivity|]. simpl. now rewrite C, IH. }
    rewrite A.
    assert (V : valued (map (fun _ => NaN) (rows df)) (rows df) = []).
    { unfold valued. apply filter_none. intros [r x] I.
      apply in_combine_r in I. apply in_map_iff in I as (_ & <- & _). reflexivity. }
    now rewrite V.
Qed.

Lemma extreme_card_errors_witness :
  max_market_cap (fun _ => "") (with_rows df_market [])
  = inr (ValueError_empty_extreme "market_cap_num")
  /\ max_market_cap (fun _ => "") (mkDF ["name"] (rows df_market))
     = inr (FrameError (KeyError "market_cap_num")).
Proof.
  split.
  - apply (proj2 (extreme_card_errors _ _ _ _ _ _)); [reflexivity | constructor].
  - apply (proj1 (extreme_card_errors _ _ _ _ _ _)). reflexivity.
Defined.

Lemma filter_all_in {A : Type} (f : A -> bool) (l : list A) :
  (forall x, In x l -> f x = true) -> filter f l = l.
Proof.
  induction l as [|y l IH]; intros H; simpl; [reflexivity|].
  rewrite (H y) by now left. f_equal. apply IH. intros x Hx. apply H. now right.
Qed.

(** X14.  The count card counts the entities of the selector: on a data
    frame whose name column has no missing value, as after the Row Filter,
    [card_info] shows the length of the list of [get_crypto_list], and this
    is at most the number of rows. *)
Theorem card_info_counts_entities (df : DataFrame) :
  has_column df "name" = true ->
  Forall (fun r => isna (name_of r) = false) (rows df) ->
  exists names,
    get_crypto_list df = Ok names
    /\ card_info df = Ok ("Crypto count", format_count (List.length names))
    /\ List.length names <= List.length (rows df).
Proof.
  intros H F. unfold get_crypto_list, card_info, column. rewrite H. cbn [bind].
  eexists. split; [reflexivity|]. split.
  - do 3 f_equal. unfold nunique. f_equal. apply filter_all_in.
    intros x Hx. unfold unique in Hx. apply unique_from_In in Hx as [Hx _].
    apply in_map_iff in Hx as (r & <- & I). rewrite Forall_forall in F.
    unfold name_of in F. now rewrite (F r I).
  - rewrite <- (length_map (fun r => cell_at r "name") (rows df)).
    apply NoDup_incl_length; [apply unique_from_NoDup|].
    intros x Hx. unfold unique in Hx. now apply unique_from_In in Hx as [Hx _].
Qed.

Lemma card_info_counts_entities_witness :
  card_info df_market = Ok ("Crypto count", "4").
Proof.
  destruct (card_info_counts_entities df_market eq_refl
              ltac:(repeat constructor)) as (names & G & C & _).
  rewrite C. injection G as <-. reflexivity.
Defined.

(* ------------------------------------------------------------------ *)
(** ** The series of the line plot *)

Lemma asc_leb_total (a b : cell) : asc_leb a b = true \/ asc_leb b a = true.
Proof.
  unfold asc_leb. destruct (isna b); [now left|]. destruct (isna a); [now right|].
  apply cell_leb_total.
Qed.

Lemma asc_leb_trans (a b c : cell) :
  asc_leb a b = true -> asc_leb b c = true -> asc_leb a c = true.
Proof.
  unfold asc_leb. destruct (isna c); [reflexivity|].
  destruct (isna b); [discriminate|]. destruct (isna a); [discriminate|].
  apply cell_leb_trans.
Qed.

Lemma insert_asc_perm (col : string) (r : Row) (l : list Row) :
  Permutation (insert_asc col r l) (r :: l).
Proof.
  induction l as [|x l IH]; simpl; [reflexivity|].
  destruct (asc_leb (cell_at r col) (cell_at x col)); [reflexivity|].
  rewrite IH. apply perm_swap.
Qed.

Lemma insert_asc_sorted (col : string) (r : Row) (l : list Row) :
  StronglySorted (asc_by col) l -> StronglySorted (asc_by col) (insert_asc col r l).
Proof.
  induction l as [|x l IH]; intros S; simpl.
  - constructor; constructor.
  - inversion S as [|? ? S' F]; subst.
    destruct (asc_leb (cell_at r col) (cell_at x col)) eqn:L.
    + constructor; [exact S|]. constructor; [exact L|].
      apply Forall_forall. intros y Hy. rewrite Forall_forall in F.
      unfold asc_by in *. eapply asc_leb_trans; [exact L | now apply F].
    + assert (X : asc_by col x r).
      { unfold asc_by. destruct (asc_leb_total (cell_at r col) (cell_at x col));
          congruence. }
      constructor; [now apply IH|].
      apply Forall_forall. intros y Hy.
      apply (Permutation_in _ (insert_asc_perm col r l)) in Hy.
      destruct Hy as [<- | Hy]; [exact X|].
      rewrite Forall_forall in F. now apply F.
Qed.

Lemma insertion_sort_asc_contract : sort_contract_asc insertion_sort_asc.
Proof.
  intros col l. unfold insertion_sort_asc. induction l as [|r l [P S]]; simpl.
  - split; constructor.
  - split.
    + rewrite insert_asc_perm. now constructor.
    + now apply insert_asc_sorted.
Qed.

(** Timestamps compare with one another. *)
Lemma one_kind_times (col : string) (l : list Row) :
  (forall r, In r l -> exists t, cell_at r col = VTime t) ->
  one_kind (map (fun r => cell_at r col) l) = true.
Proof.
  intros T. unfold one_kind.
  assert (A : forall c, In c (filter (fun c => negb (isna c))
                                (map (fun r => cell_at r col) l)) -> rank c = 2).
  { intros c H. apply filter_In in H as [H _]. apply in_map_iff in H as (r & <- & H).
    destruct (T r H) as (t & ->). reflexivity. }
  destruct (filter _ _) as [|c rest]; [reflexivity|].
  apply forallb_forall. intros d Hd.
  rewrite (A c) by now left. rewrite (A d) by now right. reflexivity.
Qed.

Section PlotProperties.
Variable argsort_asc : string -> list Row -> list Row.
Hypothesis argsort_asc_ok : sort_contract_asc argsort_asc.
Variable py_repr : string -> string.

Lemma plot_series_spec (df : DataFrame) (field : string) (cryptos : list string) :
  has_column df "name" = true -> has_column df "timestamp" = true ->
  has_column df field = true ->
  (forall r, In r (rows df) -> exists t, cell_at r "timestamp" = VTime t) ->
  exists evs drawn,
    plot_series argsort_asc py_repr df field cryptos = Ok (evs, drawn)
    /\ Forall2 (fun c ev =>
                  series_step py_repr (filter (name_is c) (rows df)) field c ev)
         cryptos evs
    /\ (drawn = false
        <-> Forall (fun c => filter (name_is c) (rows df) = []) cryptos).
Proof.
  intros HN HT HF Times. induction cryptos as [|c rest (evs & drawn & E & F & D)].
  - exists [], false. repeat split; constructor.
  - cbn [plot_series]. unfold select_name, column. rewrite HN. cbn [bind rows with_rows].
    rewrite E. destruct (filter (name_is c) (rows df)) as [|r0 rs] eqn:Q.
    + cbn [bind fst snd]. exists (st_warning ("No data for " ++ py_repr c) :: evs), drawn.
      split; [reflexivity|]. split.
      * constructor; [|exact F]. left. rewrite Q. now split.
      * rewrite D. split.
        -- intros H. constructor; [exact Q | exact H].
        -- intros H. now inversion H.
    + unfold sort_values_asc. rewrite has_column_with_rows, HT.
      cbn [rows with_rows]. rewrite one_kind_times.
      2:{ intros r I. apply Times. rewrite <- Q in I. now apply filter_In in I. }
      cbn [bind]. rewrite !has_column_with_rows, HF.
      cbn [bind fst snd rows with_rows].
      exists (lineplot field (argsort_asc "timestamp" (r0 :: rs)) c :: evs), true.
      split; [reflexivity|]. split.
      * constructor; [|exact F]. right. rewrite Q. split; [discriminate|].
        eexists. split; [reflexivity|]. apply argsort_asc_ok.
      * split; [discriminate|]. intros H. inversion H as [|? ? H1 H2]; subst.
        rewrite Q in H1. discriminate H1.
Qed.
End PlotProperties.

(** The rows that the range filter keeps have a timestamp. *)
Lemma in_range_time (start_date end_date : Z) (l : list Row) (r : Row) :
  In r (filter (in_range start_date end_date) l) ->
  exists t, cell_at r "timestamp" = VTime t.
Proof.
  intros H. apply filter_In in H as [_ H]. unfold in_range in H.
  destruct (cell_at r "timestamp") as [s|x|t|]; try discriminate H. now exists t.
Qed.

(** X15.  [plot_crypto_field] on a data frame with names, with a timestamp
    column of datetime type and with the field as a column, with any sort
    within the library's contract: it returns no figure exactly when none of
    the requested entities has a record inside the date range, and then it
    has shown one warning per requested entity, in order, and the line
    "No series to plot."; otherwise the figure carries the metric's name and
    all requested names as its title.  Without any requested entity there is
    no figure. *)
Theorem plot_returns_figure_iff_data (argsort_asc : string -> list Row -> list Row)
    (py_repr : string -> string) (df_main : DataFrame) (start_date end_date : Z)
    (cryptos : list string) (field f_name : string) :
  sort_contract_asc argsort_asc ->
  has_column df_main "name" = true -> has_column df_main "timestamp" = true ->
  has_column df_main field = true ->
  forallb is_datetime (map (fun r => cell_at r "timestamp") (rows df_main)) = true ->
  exists evs fig,
    plot_crypto_field argsort_asc py_repr df_main start_date end_date cryptos
      field f_name = Ok (evs, fig)
    /\ (fig = None
        <-> Forall (fun c => records_in_range df_main start_date end_date c = [])
              cryptos)
    /\ (fig = None ->
        evs = (map (fun c => st_warning ("No data for " ++ py_repr c)) cryptos
               ++ [st_info "No series to plot."])%list)
    /\ (fig <> None ->
        fig = Some (f_name ++ " " ++ em_dash ++ " " ++ join_names cryptos)
        /\ last evs (st_info "") = st_pyplot
             (f_name ++ " " ++ em_dash ++ " " ++ join_names cryptos))
    /\ (cryptos = [] -> fig = None).
Proof.
  intros SC HN HT HF HD.
  unfold plot_crypto_field, select_range, column. rewrite HT. cbn [bind].
  rewrite HD. cbn [bind].
  set (df := with_rows df_main (filter (in_range start_date end_date) (rows df_main))).
  destruct (plot_series_spec argsort_asc SC py_repr df field cryptos HN HT HF
              (in_range_time start_date end_date (rows df_main)))
    as (evs & drawn & E & F & D).
  rewrite E. cbn [bind fst snd].
  change (rows df) with (filter (in_range start_date end_date) (rows df_main)) in F, D.
  fold (records_in_range df_main start_date end_date) in D.
  destruct drawn.
  - eexists _, _. split; [reflexivity|].
    split; [split; [discriminate | intros H; apply D in H; discriminate H]|].
    split; [discriminate|].
    split; [intros _; split; [reflexivity | apply last_last]|].
    intros ->. destruct D as [_ D]. specialize (D (Forall_nil _)). discriminate D.
  - eexists _, _. split; [reflexivity|].
    split; [split; [intros _; now apply D | reflexivity]|].
    split.
    + intros _. f_equal. destruct D as [D _]. specialize (D eq_refl).
      clear E. induction F as [|c ev cs es S F IH]; [reflexivity|].
      inversion D as [|? ? D1 D2]; subst. simpl. f_equal; [|now apply IH].
      destruct S as [[_ ->] | [N _]]; [reflexivity|].
      exfalso. apply N. exact D1.
    + split; [intros H; now contradiction H | reflexivity].
Qed.

Lemma plot_returns_figure_iff_data_witness :
  exists evs,
    plot_crypto_field insertion_sort_asc (fun s => s) df_february 20089 20089
      ["Bitcoin"; "Solana"] "price_usd_num" "Price (USD)"
    = Ok (evs, None)
    /\ evs = [st_warning "No data for Bitcoin"; st_warning "No data for Solana";
              st_info "No series to plot."].
Proof.
  destruct (plot_returns_figure_iff_data insertion_sort_asc (fun s => s)
              df_february 20089 20089 ["Bitcoin"; "Solana"] "price_usd_num"
              "Price (USD)" insertion_sort_asc_contract eq_refl eq_refl eq_refl
              eq_refl)
    as (evs & fig & E & N & W & _).
  assert (F : fig = None) by (apply N; repeat constructor).
  exists evs. subst fig. split; [exact E | now apply W].
Defined.

(** X16.  The lines of [plot_crypto_field], on such a data frame and with
    any sort within the library's contract: the events before the closing
    one are one per requested entity, in the order of the request; an entity
    without record inside the date range gets its warning, every other one a
    line labelled with its name over exactly its records inside the range,
    in ascending order of their timestamps. *)
Theorem plot_lines_are_sorted_records (argsort_asc : string -> list Row -> list Row)
    (py_repr : string -> string) (df_main : DataFrame) (start_date end_date : Z)
    (cryptos : list string) (field f_name : string) :
  sort_contract_asc argsort_asc ->
  has_column df_main "name" = true -> has_column df_main "timestamp" = true ->
  has_column df_main field = true ->
  forallb is_datetime (map (fun r => cell_at r "timestamp") (rows df_main)) = true ->
  exists steps closing fig,
    plot_crypto_field argsort_asc py_repr df_main start_date end_date cryptos
      field f_name = Ok ((steps ++ [closing])%list, fig)
    /\ Forall2 (fun c ev =>
                  series_step py_repr
                    (records_in_range df_main start_date end_date c) field c ev)
         cryptos steps.
Proof.
  intros SC HN HT HF HD.
  unfold plot_crypto_field, select_range, column. rewrite HT. cbn [bind].
  rewrite HD. cbn [bind].
  set (df := with_rows df_main (filter (in_range start_date end_date) (rows df_main))).
  destruct (plot_series_spec argsort_asc SC py_repr df field cryptos HN HT HF
              (in_range_time start_date end_date (rows df_main)))
    as (evs & drawn & E & F & _).
  rewrite E. cbn [bind fst snd].
  destruct drawn; eexists evs, _, _; (split; [reflexivity | exact F]).
Qed.

Lemma plot_lines_are_sorted_records_witness :
  plot_crypto_field insertion_sort_asc (fun s => s) df_market 20089 20120
    ["Ethereum"; "Dogecoin"] "price_usd_num" "Price (USD)"
  = Ok ([lineplot "price_usd_num"
           [nth 1 (rows df_market) (mkRow 0 []); nth 5 (rows df_market) (mkRow 0 [])]
           "Ethereum";
         st_warning "No data for Dogecoin";
         st_pyplot ("Price (USD) " ++ em_dash ++ " Ethereum, Dogecoin")],
        Some ("Price (USD) " ++ em_dash ++ " Ethereum, Dogecoin")).
Proof.
  destruct (plot_lines_are_sorted_records insertion_sort_asc (fun s => s)
              df_market 20089 20120 ["Ethereum"; "Dogecoin"] "price_usd_num"
              "Price (USD)" insertion_sort_asc_contract eq_refl eq_refl eq_refl
              eq_refl)
    as (steps & closing & fig & E & _).
  reflexivity.
Defined.

(** The errors of the plot: a timestamp column that holds a text stops the
    range filter with a [TypeError]; a field that is no column stops the
    first line with a [ValueError], and goes unnoticed when no requested
    entity has a record inside the range. *)
Lemma plot_errors (argsort_asc : string -> list Row -> list Row)
    (py_repr : string -> string) :
  plot_crypto_field argsort_asc py_repr
    (mkDF ["name"; "timestamp"]
       [mkRow 0 [("name", VStr "Bitcoin"); ("timestamp", VStr "2025-01-01")]])
    20089 20089 ["Bitcoin"] "name" "Name"
  = Raise (TypeError "timestamp")
  /\ plot_crypto_field argsort_asc py_repr df_market 20089 20120
       ["Ethereum"] "price" "Price"
     = Raise (ValueError_could_not_interpret "price")
  /\ plot_crypto_field argsort_asc py_repr df_market 20089 20120
       ["Dogecoin"] "price" "Price"
     = Ok ([st_warning ("No data for " ++ py_repr "Dogecoin");
            st_info "No series to plot."], None).
Proof. repeat split. Qed.

(* ------------------------------------------------------------------ *)
(** ** The start of the dashboard *)

Lemma has_column_assign (df : DataFrame) (col c : string) (values : list cell) :
  has_column (assign col values df) c = has_column df c || String.eqb c col.
Proof.
  unfold assign. unfold has_column at 1. cbn [columns]. unfold has_column.
  destruct (existsb (String.eqb col) (columns df)) eqn:E.
  - destruct (String.eqb_spec c col) as [->|_].
    + rewrite E. reflexivity.
    + now rewrite orb_false_r.
  - rewrite existsb_app. simpl. now rewrite orb_false_r.
Qed.

Section StartupProperties.
Variable py_str : cell -> string.
Variable to_datetime : list string -> string -> option cell.


Lemma parse_column_rows (f : option string -> num) (src dst : string)
    (df df' : DataFrame) :
  parse_column py_str (map f) src dst df = Ok df' ->
  rows df'
  = map (fun r => set_field dst (VNum (f (raw_text py_str (cell_at r src)))) r) (rows df)
  /\ (forall c, has_column df' c = has_column df c || String.eqb c dst).
Proof.
  unfold parse_column, column. destruct (has_column df src); [|discriminate].
  cbn [bind]. intros [= <-]. split; [|intros c; apply has_column_assign].
  unfold assign. cbn [rows]. induction (rows df) as [|r l IH]; [reflexivity|].
  simpl. f_equal. exact IH.
Qed.

(** X17.  What start-up hands to the dashboard: whenever the pipeline of
    [Cripto_main.py] ends without error, the data frame has the seven
    required columns, every row of it is non-missing in all seven, and
    each derived cell is the value that its parser gives for the raw cell of
    the same row, which is still there; no row is added. *)
Theorem clean_crypto_invariant (df_crypto clean : DataFrame) :
  clean_crypto py_str to_datetime df_crypto = Ok clean ->
  forallb (has_column clean) na_list = true
  /\ Forall (fun r => complete_in na_list r = true /\ derived_from_raw py_str r)
       (rows clean)
  /\ List.length (rows clean) <= List.length (rows df_crypto).
Proof.
  unfold clean_crypto. intros H.
  destruct (column df_crypto "timestamp") as [stamps|] eqn:C0; [|discriminate H].
  cbn [bind] in H.
  destruct (transform_string_to_datetime to_datetime (map (raw_text py_str) stamps))
    as [times|] eqn:T; [|discriminate H].
  cbn [bind] in H.
  set (df0 := assign "timestamp" times df_crypto) in H.
  destruct (parse_column py_str transform_string_to_num _ _ df0) as [d1|] eqn:P1;
    [|discriminate H]. cbn [bind] in H.
  destruct (parse_column py_str transform_dollars_str_to_num "vol_24h" _ d1)
    as [d2|] eqn:P2; [|discriminate H]. cbn [bind] in H.
  destruct (parse_column py_str transform_dollars_str_to_num "market_cap" _ d2)
    as [d3|] eqn:P3; [|discriminate H]. cbn [bind] in H.
  destruct (parse_column py_str transform_percent_str_to_num "total_vol" _ d3)
    as [d4|] eqn:P4; [|discriminate H]. cbn [bind] in H.
  destruct (parse_column py_str transform_percent_str_to_num "chg_24h" _ d4)
    as [d5|] eqn:P5; [|discriminate H]. cbn [bind] in H.
  destruct (parse_column py_str transform_percent_str_to_num "chg_7d" _ d5)
    as [d6|] eqn:P6; [|discriminate H]. cbn [bind] in H.
  destruct (drop_na_line_ok _ _ _ H) as (CC & CR & CF).
  destruct (parse_column_rows _ _ _ _ _ P1) as [R1 _].
  destruct (parse_column_rows _ _ _ _ _ P2) as [R2 _].
  destruct (parse_column_rows _ _ _ _ _ P3) as [R3 _].
  destruct (parse_column_rows _ _ _ _ _ P4) as [R4 _].
  destruct (parse_column_rows _ _ _ _ _ P5) as [R5 _].
  destruct (parse_column_rows _ _ _ _ _ P6) as [R6 _].
  split; [unfold has_column in *; now rewrite CC|].
  split.
  - apply Forall_forall. intros r I. rewrite CR in I. apply filter_In in I as [I K].
    split; [exact K|].
    rewrite R6, R5, R4, R3, R2, R1, !map_map in I.
    apply in_map_iff in I as (r0 & <- & _).
    unfold derived_from_raw, cell_at, set_field. cbn. repeat split.
  - rewrite CR. eapply Nat.le_trans; [apply filter_length_le|].
    rewrite R6, R5, R4, R3, R2, R1, !length_map.
    unfold df0, assign. cbn [rows]. rewrite length_map, length_combine. lia.
Qed.

End StartupProperties.

Lemma clean_crypto_invariant_witness :
  exists clean,
    clean_crypto (fun _ => "") example_to_datetime df_raw = Ok clean
    /\ map label (rows clean) = [0]
    /\ Forall (fun r => complete_in na_list r = true
                        /\ derived_from_raw (fun _ => "") r) (rows clean).
Proof.
  destruct (clean_crypto (fun _ => "") example_to_datetime df_raw) as [clean|e] eqn:E;
    [|vm_compute in E; discriminate E].
  exists clean. split; [reflexivity|].
  destruct (clean_crypto_invariant _ _ _ _ E) as (_ & F & _).
  split; [|exact F].
  vm_compute in E. injection E as <-. reflexivity.
Defined.


(* ------------------------------------------------------------------ *)
(** ** More on the Row Filter *)

Lemma forallb_same_members {A : Type} (f : A -> bool) (l l' : list A) :
  (forall c, In c l <-> In c l') -> forallb f l = forallb f l'.
Proof.
  intros S. apply eq_true_iff_eq. rewrite !forallb_forall. split.
  - intros H c I. apply H. now apply S.
  - intros H c I. apply H. now apply S.
Qed.

(** X19.  The Row Filter depends on the set of the required columns only:
    when they are all columns of the data frame, listing them in another
    order, or some of them twice, gives the same data frame. *)
Theorem drop_na_line_any_order (df : DataFrame) (cols cols' : list string) :
  forallb (has_column df) cols = true ->
  (forall c, In c cols <-> In c cols') ->
  drop_na_line df cols = drop_na_line df cols'.
Proof.
  intros H S.
  assert (H' : forallb (has_column df) cols' = true)
    by now rewrite <- (forallb_same_members _ cols cols' S).
  rewrite !drop_na_line_complete by assumption.
  do 2 f_equal. apply filter_ext. intros r. unfold complete_in.
  now apply forallb_same_members.
Qed.

Lemma drop_na_line_any_order_witness :
  drop_na_line df_market ["market_cap_num"; "name"]
  = drop_na_line df_market ["name"; "market_cap_num"; "name"].
Proof.
  apply drop_na_line_any_order; [reflexivity|].
  intros c. simpl. tauto.
Defined.

(* ------------------------------------------------------------------ *)
(** ** Top-N by frequency *)

Lemma insert_count_perm (p : cell * nat) (l : list (cell * nat)) :
  Permutation (insert_count p l) (p :: l).
Proof.
  induction l as [|q l IH]; simpl; [reflexivity|].
  destruct (Nat.leb (snd q) (snd p)); [reflexivity|].
  rewrite IH. apply perm_swap.
Qed.

Lemma insertion_sort_counts_contract : counts_sort_contract insertion_sort_counts.
Proof.
  intros l. unfold insertion_sort_counts. induction l as [|p l [P S]]; simpl.
  - split; constructor.
  - split; [rewrite insert_count_perm; now constructor|].
    clear P. induction S as [|q m S IH F]; simpl.
    + constructor; constructor.
    + destruct (Nat.leb_spec (snd q) (snd p)) as [L | L].
      * constructor; [now constructor|]. constructor; [exact L|].
        apply Forall_forall. intros y Hy. rewrite Forall_forall in F.
        specialize (F y Hy). simpl in F. lia.
      * constructor; [exact IH|].
        apply Forall_forall. intros y Hy.
        apply (Permutation_in _ (insert_count_perm p m)) in Hy.
        destruct Hy as [<- | Hy]; [lia|].
        rewrite Forall_forall in F. now apply F.
Qed.

Lemma sorted_app_cross {A : Type} (R : A -> A -> Prop) (l1 l2 : list A) :
  StronglySorted R (l1 ++ l2) -> forall a b, In a l1 -> In b l2 -> R a b.
Proof.
  induction l1 as [|x l1 IH]; intros S a b Ia Ib; [contradiction|].
  simpl in S. inversion S as [|? ? S' F]; subst. destruct Ia as [<- | Ia].
  - rewrite Forall_forall in F. apply F. apply in_or_app. now right.
  - now apply IH.
Qed.

Lemma sorted_map_fst (count : cell -> nat) (l : list (cell * nat)) :
  Forall (fun p => snd p = count (fst p)) l ->
  StronglySorted (fun a b => snd b <= snd a) l ->
  StronglySorted (fun x y => count y <= count x) (map fst l).
Proof.
  intros C S. induction S as [|p l S IH F]; simpl; [constructor|].
  inversion C as [|? ? Cp Cl]; subst. constructor; [now apply IH|].
  apply Forall_forall. intros y Hy. apply in_map_iff in Hy as (q & <- & Hq).
  rewrite Forall_forall in F, Cl. rewrite <- Cp, <- (Cl q Hq). now apply F.
Qed.

(** X20.  [count_plot_top_n_by_name] with any sort of the counts within
    the contract.  When the column is absent it shows an error and returns
    no figure, without raising.  Otherwise, for a non-negative N, the bars
    are ordered by a list of distinct non-missing values of the column: as
    many as N allows, in descending order of their frequency, none of them
    less frequent than a value that is left out; and the plot is over exactly
    the rows that hold one of them. *)
Theorem count_plot_most_frequent
    (sort_counts : list (cell * nat) -> list (cell * nat))
    (py_repr : string -> string) (df : DataFrame) (col : string) (n : Z) :
  (has_column df col = false ->
   count_plot_top_n_by_name sort_counts py_repr df col n
   = ([st_error ("Column " ++ py_repr col ++ " not found in DataFrame")], false))
  /\ (has_column df col = true -> counts_sort_contract sort_counts -> (0 <= n)%Z ->
      let values := map (fun r => cell_at r col) (rows df) in
      exists data top,
        count_plot_top_n_by_name sort_counts py_repr df col n
        = ([countplot data col top;
            count_pyplot ("Top " ++ int_text n ++ " by Count")], true)
        /\ NoDup top
        /\ List.length top = Nat.min (Z.to_nat n) (nunique values)
        /\ Forall (fun x => In x values /\ isna x = false) top
        /\ StronglySorted (fun x y => count_of values y <= count_of values x) top
        /\ (forall x y, In x top -> In y values -> isna y = false -> ~ In y top ->
                        count_of values y <= count_of values x)
        /\ (forall r, In r data <-> In r (rows df) /\ In (cell_at r col) top)).
Proof.
  split.
  - intros H. unfold count_plot_top_n_by_name. now rewrite H.
  - intros H SC N values. unfold count_plot_top_n_by_name. rewrite H. cbn [negb].
    fold values. eexists _, _. split; [reflexivity|].
    unfold top_values. rewrite head_nonneg by exact N.
    set (U := filter (fun c => negb (isna c)) (unique values)).
    assert (VU : value_counts_unsorted values = map (fun x => (x, count_of values x)) U)
      by reflexivity.
    destruct (SC (value_counts_unsorted values)) as [P S].
    set (sorted := sort_counts (value_counts_unsorted values)) in *.
    assert (Keys : Permutation (map fst sorted) U).
    { rewrite P, VU, map_map. simpl. now rewrite map_id. }
    assert (NU : NoDup U) by (apply NoDup_filter, unique_from_NoDup).
    assert (Pairs : Forall (fun p => snd p = count_of values (fst p)) sorted).
    { apply Forall_forall. intros p Hp. apply (Permutation_in _ P) in Hp.
      rewrite VU in Hp. apply in_map_iff in Hp as (x & <- & _). reflexivity. }
    assert (InU : forall x, In x U <-> In x values /\ isna x = false).
    { intros x. unfold U. rewrite filter_In. unfold unique.
      rewrite unique_from_In, negb_true_iff. tauto. }
    assert (Top : forall x, In x (map fst (firstn (Z.to_nat n) sorted)) ->
                            In x (map fst sorted)).
    { intros x Hx. apply in_map_iff in Hx as (p & <- & Hp).
      apply in_map. now apply firstn_incl in Hp. }
    split.
    { rewrite <- firstn_map. apply firstn_NoDup.
      apply (Permutation_NoDup (Permutation_sym Keys) NU). }
    split.
    { rewrite length_map, length_firstn. f_equal.
      rewrite <- (length_map fst), (Permutation_length Keys). reflexivity. }
    split.
    { apply Forall_forall. intros x Hx. apply InU.
      apply (Permutation_in _ Keys). now apply Top. }
    split.
    { apply sorted_map_fst.
      - apply Forall_forall. intros p Hp. rewrite Forall_forall in Pairs.
        apply Pairs. now apply firstn_incl in Hp.
      - now apply firstn_sorted. }
    split.
    { intros x y Hx Hy Ny Out.
      apply in_map_iff in Hx as (p & <- & Hp).
      assert (Hq : In (y, count_of values y) sorted).
      { apply (Permutation_in _ (Permutation_sym P)). rewrite VU.
        apply in_map_iff. exists y. split; [reflexivity|]. now apply InU. }
      rewrite <- (firstn_skipn (Z.to_nat n) sorted) in Hq, S.
      apply in_app_or in Hq as [Hq | Hq].
      - exfalso. apply Out. apply in_map_iff. now exists (y, count_of values y).
      - pose proof (sorted_app_cross _ _ _ S p _ Hp Hq) as L. simpl in L.
        rewrite Forall_forall in Pairs.
        rewrite <- (Pairs p); [exact L|]. now apply firstn_incl in Hp. }
    intros r. rewrite filter_In, seen_In. reflexivity.
Qed.

Lemma count_plot_most_frequent_witness :
  count_plot_top_n_by_name insertion_sort_counts (fun s => s) df_market "name" 2
  = ([countplot
        (filter (fun r => negb (cell_eqb (name_of r) (VStr "Tether"))
                          && negb (cell_eqb (name_of r) (VStr "Solana")))
           (rows df_market))
        "name" [VStr "Bitcoin"; VStr "Ethereum"];
      count_pyplot "Top 2 by Count"], true).
Proof.
  destruct (proj2 (count_plot_most_frequent insertion_sort_counts (fun s => s)
                     df_market "name" 2) eq_refl insertion_sort_counts_contract
              ltac:(lia)) as (data & top & E & _).
  reflexivity.
Defined.

(* ------------------------------------------------------------------ *)
(** ** The reductions of the per-entity summary *)

Lemma dropnan_In (l : list num) (y : num) :
  In y (dropnan l) <-> In y l /\ isnan y = false.
Proof. unfold dropnan. rewrite filter_In, negb_true_iff. reflexivity. Qed.

Lemma num_leb_refl (x : num) : isnan x = false -> num_leb x x = true.
Proof. intros H. now destruct (num_leb_total x x H H). Qed.

Lemma fold_min_spec (v : list num) : forall x,
  Forall (fun y => isnan y = false) (x :: v) ->
  let m := fold_left (fun m y => if num_leb y m then y else m) v x in
  In m (x :: v) /\ forall y, In y (x :: v) -> num_leb m y = true.
Proof.
  induction v as [|z v IH]; intros x F; cbn [fold_left].
  - inversion F; subst. split; [now left|].
    intros y [<- | []]. now apply num_leb_refl.
  - inversion F as [|? ? Fx Fv]; subst. inversion Fv as [|? ? Fz Fv']; subst.
    destruct (num_leb z x) eqn:L.
    + destruct (IH z Fv) as [I B]. split; [now right|].
      intros y [<- | Hy]; [|now apply B].
      apply (num_leb_trans _ z); [apply B; now left | exact L].
    + destruct (IH x (Forall_cons _ Fx Fv')) as [I B]. split.
      * destruct I as [I | I]; [now left | right; now right].
      * intros y [<- | [<- | Hy]].
        -- apply B. now left.
        -- apply (num_leb_trans _ x); [apply B; now left|].
           destruct (num_leb_total x z Fx Fz) as [T | T]; [exact T | congruence].
        -- apply B. now right.
Qed.

Lemma fold_max_spec (v : list num) : forall x,
  Forall (fun y => isnan y = false) (x :: v) ->
  let m := fold_left (fun m y => if num_leb m y then y else m) v x in
  In m (x :: v) /\ forall y, In y (x :: v) -> num_leb y m = true.
Proof.
  induction v as [|z v IH]; intros x F; cbn [fold_left].
  - inversion F; subst. split; [now left|].
    intros y [<- | []]. now apply num_leb_refl.
  - inversion F as [|? ? Fx Fv]; subst. inversion Fv as [|? ? Fz Fv']; subst.
    destruct (num_leb x z) eqn:L.
    + destruct (IH z Fv) as [I B]. split; [now right|].
      intros y [<- | Hy]; [|now apply B].
      apply (num_leb_trans _ z); [exact L | apply B; now left].
    + destruct (IH x (Forall_cons _ Fx Fv')) as [I B]. split.
      * destruct I as [I | I]; [now left | right; now right].
      * intros y [<- | [<- | Hy]].
        -- apply B. now left.
        -- apply (num_leb_trans _ x); [|apply B; now left].
           destruct (num_leb_total x z Fx Fz) as [T | T]; [congruence | exact T].
        -- apply B. now right.
Qed.

Lemma dropnan_Forall (l : list num) : Forall (fun y => isnan y = false) (dropnan l).
Proof. apply Forall_forall. intros y Hy. now apply dropnan_In in Hy. Qed.

Lemma insert_num_perm (x : num) (l : list num) : Permutation (insert_num x l) (x :: l).
Proof.
  induction l as [|y l IH]; simpl; [reflexivity|].
  destruct (num_leb x y); [reflexivity|]. rewrite IH. apply perm_swap.
Qed.

Lemma sort_num_perm (l : list num) : Permutation (sort_num l) l.
Proof.
  unfold sort_num. induction l as [|x l IH]; simpl; [reflexivity|].
  rewrite insert_num_perm. now constructor.
Qed.

Lemma midpoint_between (m M p q : Q) :
  (m <= p)%Q -> (m <= q)%Q -> (p <= M)%Q -> (q <= M)%Q ->
  (m <= Qred (Qred (p + q) / inject_Z (Z.of_nat 2)))%Q
  /\ (Qred (Qred (p + q) / inject_Z (Z.of_nat 2)) <= M)%Q.
Proof.
  intros A B C D. rewrite !Qred_correct.
  change (inject_Z (Z.of_nat 2)) with (2 # 1)%Q.
  assert (E1 : (m == (m + m) / (2 # 1))%Q) by field.
  assert (E2 : (M == (M + M) / (2 # 1))%Q) by field.
  split.
  - apply (Qle_trans _ ((m + m) / (2 # 1))); [rewrite <- E1; apply Qle_refl|].
    apply Qmult_le_compat_r; [|discriminate]. now apply Qplus_le_compat.
  - apply (Qle_trans _ ((M + M) / (2 # 1))); [|rewrite <- E2; apply Qle_refl].
    apply Qmult_le_compat_r; [|discriminate]. now apply Qplus_le_compat.
Qed.

(** X21.  The reductions behind the per-entity summary skip the missing
    values.  On a column with none but missing values each of them is
    missing, nothing is raised.  Otherwise the minimum and the maximum are
    values of the column that bound every value of it, and, when the values
    are finite, the median lies between the two. *)
Theorem summary_extremes_and_median (l : list num) :
  (dropnan l = [] ->
   series_min l = NaN /\ series_max l = NaN
   /\ series_median l = NaN /\ series_mean l = NaN)
  /\ (dropnan l <> [] ->
      In (series_min l) l /\ In (series_max l) l
      /\ isnan (series_min l) = false /\ isnan (series_max l) = false
      /\ (forall y, In y l -> isnan y = false ->
                    num_leb (series_min l) y = true
                    /\ num_leb y (series_max l) = true)
      /\ ((forall y, In y l -> y = NaN \/ exists q, y = Fin q) ->
          num_leb (series_min l) (series_median l) = true
          /\ num_leb (series_median l) (series_max l) = true)).
Proof.
  split.
  - intros E. unfold series_min, series_max, series_median, series_mean.
    rewrite E. repeat split; reflexivity.
  - intros NE.
    pose proof (dropnan_Forall l) as F.
    unfold series_min, series_max.
    destruct (dropnan l) as [|x v] eqn:E; [congruence|]. clear NE.
    destruct (fold_min_spec v x F) as [Im Bm].
    destruct (fold_max_spec v x F) as [IM BM].
    set (lo := fold_left (fun m y => if num_leb y m then y else m) v x) in *.
    set (hi := fold_left (fun m y => if num_leb m y then y else m) v x) in *.
    clearbody lo hi. rewrite <- E in Im, IM, Bm, BM.
    assert (Mem : forall y, In y l -> isnan y = false -> In y (dropnan l))
      by (intros y Hy Ny; now apply dropnan_In).
    split; [now apply dropnan_In in Im|].
    split; [now apply dropnan_In in IM|].
    split; [now apply dropnan_In in Im|].
    split; [now apply dropnan_In in IM|].
    split; [intros y Hy Ny; split; [apply Bm | apply BM]; now apply Mem|].
    intros Finite.
    assert (Within : forall y, In y (sort_num (dropnan l)) ->
                       exists q, y = Fin q /\ num_leb lo y = true /\ num_leb y hi = true).
    { intros y Hy. apply (Permutation_in _ (sort_num_perm _)) in Hy.
      pose proof (Bm y Hy) as B1. pose proof (BM y Hy) as B2.
      apply dropnan_In in Hy as [Hy Ny].
      destruct (Finite y Hy) as [-> | [q ->]]; [discriminate|]. now exists q. }
    assert (Len : List.length (sort_num (dropnan l)) = S (List.length v)).
    { rewrite (Permutation_length (sort_num_perm _)), E. reflexivity. }
    unfold series_median. cbv zeta.
    set (s := sort_num (dropnan l)) in *. rewrite Len.
    set (n := S (List.length v)) in *.
    assert (Npos : 0 < n) by (unfold n; lia).
    assert (Nz : Nat.eqb n 0 = false) by (apply Nat.eqb_neq; lia). rewrite Nz.
    assert (Half : n / 2 < n) by (apply Nat.div_lt; lia).
    destruct (Nat.odd n).
    + destruct (Within (nth (n / 2) s NaN)) as (q & _ & B1 & B2);
        [apply nth_In; lia | now split].
    + destruct (Within (nth (n / 2 - 1) s NaN)) as (p & -> & P1 & P2);
        [apply nth_In; lia|].
      destruct (Within (nth (n / 2) s NaN)) as (q & -> & Q1 & Q2);
        [apply nth_In; lia|].
      cbn [num_add num_div_nat].
      apply dropnan_In in Im as [Im _]. apply dropnan_In in IM as [IM _].
      destruct (Finite lo Im) as [N | [m Em]];
        [rewrite N in P1; discriminate|].
      destruct (Finite hi IM) as [N | [M EM]];
        [rewrite N in P2; now destruct p|].
      subst lo hi. cbn [num_leb] in P1, P2, Q1, Q2 |- *.
      rewrite Qle_bool_iff in P1, P2, Q1, Q2. rewrite !Qle_bool_iff.
      now apply midpoint_between.
Qed.

Lemma summary_extremes_and_median_witness :
  let l := [Fin 3; NaN; Fin 1; Fin 2; Fin 7]%Q in
  series_min l = Fin 1 /\ series_max l = Fin 7 /\ series_median l = Fin (5 # 2)
  /\ num_leb (series_min l) (series_median l) = true
  /\ num_leb (series_median l) (series_max l) = true.
Proof.
  intros l.
  assert (NE : dropnan l <> []) by discriminate.
  assert (Finite : forall y, In y l -> y = NaN \/ exists q, y = Fin q).
  { intros y [<- | [<- | [<- | [<- | [<- | []]]]]]; eauto. }
  destruct (proj2 (summary_extremes_and_median l) NE) as (_ & _ & _ & _ & _ & M).
  destruct (M Finite) as [A B].
  repeat split; try reflexivity; assumption.
Defined.

(* ------------------------------------------------------------------ *)
(** ** The default date range *)

Lemma fold_max_bound (l : list Z) : forall x t,
  In t (x :: l) -> (t <= fold_left Z.max l x)%Z.
Proof.
  induction l as [|y l IH]; intros x t H; cbn [fold_left].
  - destruct H as [E | []]. lia.
  - pose proof (IH (Z.max x y) (Z.max x y) (or_introl eq_refl)) as B.
    destruct H as [E | [E | H]]; [lia | lia |]. apply IH. now right.
Qed.

Lemma fold_min_bound (l : list Z) : forall x t,
  In t (x :: l) -> (fold_left Z.min l x <= t)%Z.
Proof.
  induction l as [|y l IH]; intros x t H; cbn [fold_left].
  - destruct H as [E | []]. lia.
  - pose proof (IH (Z.min x y) (Z.min x y) (or_introl eq_refl)) as B.
    destruct H as [E | [E | H]]; [lia | lia |]. apply IH. now right.
Qed.

Lemma stamps_spec (rs : list Row) : forall ts,
  stamps (map (fun r => cell_at r "timestamp") rs) = Ok ts ->
  forall r, In r rs ->
    cell_at r "timestamp" = VNaT
    \/ exists t, cell_at r "timestamp" = VTime t /\ In t ts.
Proof.
  induction rs as [|x rs IH]; intros ts H r Hr; [contradiction|].
  cbn [map stamps] in H.
  destruct (cell_at x "timestamp") as [s|v|t|] eqn:E;
    try (cbv beta iota in H; discriminate H).
  - destruct (stamps (map (fun r => cell_at r "timestamp") rs)) as [ts'|e] eqn:S;
      [|discriminate].
    cbn [bind] in H. injection H as <-. destruct Hr as [<- | Hr].
    + right. exists t. split; [exact E | now left].
    + destruct (IH ts' eq_refl r Hr) as [N | (t' & Et & It)]; [now left|].
      right. exists t'. split; [exact Et | now right].
  - destruct Hr as [<- | Hr]; [now left | now apply (IH ts)].
Qed.

Lemma stamps_datetime (l : list cell) : forall ts,
  stamps l = Ok ts -> forallb is_datetime l = true.
Proof.
  induction l as [|c l IH]; intros ts H; [reflexivity|].
  destruct c as [s|x|t|]; try discriminate H; cbn [stamps] in H; cbn [forallb is_datetime andb].
  - destruct (stamps l) as [ts'|e]; [|discriminate H]. now apply (IH ts').
  - now apply (IH ts).
Qed.

(** X22.  The default range of the date picker, from [min_date] to
    [max_date] as computed at start-up, reaches from the first record to
    23:59:59.999999 of the day of the last one.  Its filter keeps a row
    exactly when the row has a timestamp that, on the last day, is not past
    that time; so when the timestamps are whole microseconds, every record
    that has a timestamp is kept, whatever the time of day of the first and
    of the last record. *)
Theorem default_range_keeps_all (df_crypto : DataFrame) (first_day last_day : Z) :
  min_date df_crypto = Ok (Some first_day) ->
  max_date df_crypto = Ok (Some last_day) ->
  (first_day <= last_day)%Z
  /\ (forall r, In r (rows df_crypto) ->
        in_range first_day last_day r = true
        <-> exists t, cell_at r "timestamp" = VTime t
                      /\ (date_of t = last_day ->
                          (time_of_day t <= last_microsecond)%Z))
  /\ ((forall r t, In r (rows df_crypto) -> cell_at r "timestamp" = VTime t ->
                   (t mod 1000 = 0)%Z) ->
      select_range df_crypto first_day last_day = dropna "timestamp" df_crypto).
Proof.
  unfold select_range, dropna. unfold min_date, max_date, column.
  destruct (has_column df_crypto "timestamp"); [|discriminate].
  cbn [bind].
  destruct (stamps (map (fun r => cell_at r "timestamp") (rows df_crypto)))
    as [[|t ts]|e] eqn:S; cbn [bind]; try discriminate.
  intros [= <-] [= <-].
  rewrite (stamps_datetime _ _ S).
  pose proof (fold_min_bound ts t) as Lo. pose proof (fold_max_bound ts t) as Hi.
  set (lo := fold_left Z.min ts t) in *. set (hi := fold_left Z.max ts t) in *.
  split.
  { specialize (Lo t (or_introl eq_refl)). specialize (Hi t (or_introl eq_refl)).
    unfold date_of, nanoseconds_per_day.
    Z.to_euclidean_division_equations. lia. }
  split.
  { intros r Hr. unfold in_range.
    destruct (stamps_spec _ _ S r Hr) as [-> | (u & -> & Hu)].
    - split; [discriminate | intros (u & E & _); discriminate E].
    - specialize (Lo u Hu). specialize (Hi u Hu).
      rewrite andb_true_iff, !Z.leb_le.
      unfold date_of, time_of_day, last_microsecond, start_of_day, end_of_day,
        nanoseconds_per_day in *.
      split.
      + intros [_ U]. exists u. split; [reflexivity|].
        Z.to_euclidean_division_equations. lia.
      + intros (u' & [= <-] & U). revert U.
        Z.to_euclidean_division_equations. lia. }
  intros Whole. do 2 f_equal. apply filter_ext_in. intros r Hr. unfold in_range.
  destruct (stamps_spec _ _ S r Hr) as [-> | (u & E & Hu)]; [reflexivity|].
  rewrite E. cbn [isna negb]. apply andb_true_iff. rewrite !Z.leb_le.
  specialize (Lo u Hu). specialize (Hi u Hu). pose proof (Whole r u Hr E) as W.
  unfold date_of, start_of_day, end_of_day, nanoseconds_per_day.
  Z.to_euclidean_division_equations. lia.
Qed.

Lemma default_range_keeps_all_witness :
  min_date df_two_days = Ok (Some 20089%Z)
  /\ max_date df_two_days = Ok (Some 20120%Z)
  /\ select_range df_two_days 20089 20120 = Ok df_two_days.
Proof.
  assert (A : min_date df_two_days = Ok (Some 20089%Z)) by reflexivity.
  assert (B : max_date df_two_days = Ok (Some 20120%Z)) by reflexivity.
  destruct (default_range_keeps_all df_two_days _ _ A B) as (_ & _ & E).
  split; [exact A|]. split; [exact B|]. rewrite E; [reflexivity|].
  intros r t [<- | [<- | []]] [= <-]; reflexivity.
Defined.
